(** * trezor.ui: colour and geometry helpers, backlight animations,
      the Widget protocol, the Control/Layout dispatch and the layout
      decorator of [src/trezor/ui/__init__.py], embedded shallowly.

    Integers are [Z] (Python integers are unbounded), [//] and [%] are
    [Z.div] and [Z.modulo] (both floor, sign of the divisor), the bit
    operators are [Z.land], [Z.lor], [Z.shiftl], [Z.shiftr].  Generators are
    resumable state machines: one call of a [*_resume] function is one
    [send]/[throw] of the Python generator. *)

From Stdlib Require Import ZArith List Bool Lia QArith Sorted.
Import ListNotations.

Open Scope Z_scope.

(** ** Python outcomes *)

Module Py.

(** The exceptions that the embedded code can meet.  [ResultExc v] is
    [trezor.ui.Result(v)] (lines 262-264); [OtherExc n] stands for any
    exception raised by a collaborator or a subclass handler. *)
Inductive exn : Type :=
| ZeroDivisionError
| ValueError
| TypeError
| UnboundLocalError
| RuntimeError
| GeneratorExit
| ResultExc (value : Z)
| OtherExc (tag : Z).

(** A call either returns a value or raises. *)
Inductive outcome (A : Type) : Type :=
| Return (a : A)
| Raise (e : exn).
Arguments Return {A} a.
Arguments Raise {A} e.

(** What a suspended generator is resumed with: [send(v)] or [throw(e)]. *)
Inductive msg (V : Type) : Type :=
| Send (v : V)
| Throw (e : exn).
Arguments Send {V} v.
Arguments Throw {V} e.

(** Number of elements of [range(start, stop, step)] for [step <> 0]. *)
Definition range_len (start stop step : Z) : Z :=
  if 0 <? step then
    if start <? stop then (stop - start - 1) / step + 1 else 0
  else
    if stop <? start then (start - stop - 1) / (- step) + 1 else 0.

(** [range(start, stop, step)] as the list it iterates over; a zero step
    raises [ValueError]. *)
Definition range (start stop step : Z) : outcome (list Z) :=
  if step =? 0 then Raise ValueError
  else Return (map (fun k => start + Z.of_nat k * step)
                   (seq 0 (Z.to_nat (range_len start stop step)))).

End Py.

(** ** Colours (lines 33-46) *)

Module Color.

(** [int(q)] on a number: truncation toward zero. *)
Definition int_of (q : Q) : Z := Z.quot (Qnum q) (Zpos (Qden q)).

(** [lerpi] (lines 33-34).  The factor [t] is a Python float; it is modelled
    by a rational, which is exact at the factors [0] and [1] with channel
    values below 256 (every intermediate value is a small integer). *)
Definition lerpi (a b : Z) (t : Q) : Z :=
  int_of (inject_Z a + t * inject_Z (b - a))%Q.

(** [rgb] (lines 37-38). *)
Definition rgb (r g b : Z) : Z :=
  Z.lor (Z.lor (Z.shiftl (Z.land r 0xF8) 8) (Z.shiftl (Z.land g 0xFC) 3))
        (Z.shiftr (Z.land b 0xF8) 3).

(** [blend] (lines 41-46). *)
Definition blend (ca cb : Z) (t : Q) : Z :=
  rgb (lerpi (Z.land (Z.shiftr ca 8) 0xF8) (Z.land (Z.shiftr cb 8) 0xF8) t)
      (lerpi (Z.land (Z.shiftr ca 3) 0xFC) (Z.land (Z.shiftr cb 3) 0xFC) t)
      (lerpi (Z.land (Z.shiftl ca 3) 0xF8) (Z.land (Z.shiftl cb 3) 0xF8) t).

(** A packed RGB565 colour is a 16-bit value. *)
Definition valid_rgb565 (c : Z) : Prop := 0 <= c < 65536.

End Color.

(** ** The display adapter and the shared world *)

Module Hw.

(** Modelled from the spec: the native [trezorui.Display] singleton is not
    part of the sources; section 6 gives [backlight() -> int],
    [backlight(level)], [orientation()] and [clear()].  Only the state those
    calls read or write is kept: [cleared] counts the calls of [clear()]. *)
Record display : Type := mkDisplay {
  backlight : Z;
  orientation : Z;
  cleared : nat
}.

Definition with_backlight (v : Z) (d : display) : display :=
  mkDisplay v (orientation d) (cleared d).

Definition with_clear (d : display) : display :=
  mkDisplay (backlight d) (orientation d) (S (cleared d)).

(** What a generator hands to the scheduler when it suspends:
    [loop.sleep(us)] or [loop.wait(io.TOUCH)]. *)
Inductive syscall : Type :=
| Sleep (us : Z)
| WaitTouch.

(** Observable calls, recorded in program order.  The log is a ghost
    component: the code never reads it. *)
Inductive effect : Type :=
| EBacklight (level : Z)          (* display.backlight(level) *)
| ESleepUs (us : Z)               (* utime.sleep_us(us) *)
| EClear                          (* display.clear() *)
| ESchedule (task : Z)            (* loop.schedule(task) *)
| EClose (task : Z)               (* loop.close(task) *)
| EOnLayoutClose (layout : Z)     (* workflow.onlayoutclose(layout) *)
| ERender                         (* a render handler is entered *)
| ETouch (event x y : Z)          (* a touch handler is entered *)
| ESuspend (call : syscall).      (* the running generator yields *)

(** The state shared by all tasks: the display singleton, the object [self]
    of the widget or control being driven, and the log. *)
Record world (U : Type) : Type := mkWorld {
  disp : display;
  self : U;
  log : list effect
}.
Arguments mkWorld {U} disp self log.
Arguments disp {U} w.
Arguments self {U} w.
Arguments log {U} w.

Definition emit {U} (e : effect) (w : world U) : world U :=
  mkWorld (disp w) (self w) (log w ++ [e]).

Definition set_self {U} (u : U) (w : world U) : world U :=
  mkWorld (disp w) u (log w).

Definition set_disp {U} (d : display) (w : world U) : world U :=
  mkWorld d (self w) (log w).

(** [display.backlight(level)]. *)
Definition set_backlight {U} (level : Z) (w : world U) : world U :=
  emit (EBacklight level) (set_disp (with_backlight level (disp w)) w).

(** [display.backlight()]. *)
Definition get_backlight {U} (w : world U) : Z := backlight (disp w).

(** [display.clear()]. *)
Definition clear {U} (w : world U) : world U :=
  emit EClear (set_disp (with_clear (disp w)) w).

(** One resumption of a generator ends in a yield, a return or a raise. *)
Inductive step (S R : Type) : Type :=
| Yielded (call : syscall) (next : S)
| Returned (r : R)
| Raised (e : Py.exn).
Arguments Yielded {S R} call next.
Arguments Returned {S R} r.
Arguments Raised {S R} e.

(** What the scheduler sends into a resumed generator: [None] after a sleep
    or at the start, the tuple [(event, x, y)] after a touch. *)
Inductive value : Type :=
| VNone
| VTouch (event x y : Z).

(** Where a driven generator stands. *)
Inductive status (S R : Type) : Type :=
| Suspended (st : S)
| Finished (o : Py.outcome R).
Arguments Suspended {S R} st.
Arguments Finished {S R} o.

Section Drive.

Context {U S R : Type}.
Variable resume : S -> Py.msg value -> world U -> world U * step S R.

(** Modelled from the spec: the scheduler [trezor.loop] is not part of the
    sources.  Section 5: one task runs at a time and every suspension is an
    explicit yield to the scheduler.  [drive] resumes one generator with the
    given messages; each suspension is logged, and before the next
    resumption the other tasks may have changed the display, which the
    second component of an input stands for. *)
Fixpoint drive (inputs : list (Py.msg value * (display -> display)))
         (st : S) (w : world U) : world U * status S R :=
  match inputs with
  | [] => (w, Suspended st)
  | (m, others) :: rest =>
      match resume st m w with
      | (w', Yielded call st') =>
          drive rest st' (set_disp (others (disp w')) (emit (ESuspend call) w'))
      | (w', Returned r) => (w', Finished (Py.Return r))
      | (w', Raised e) => (w', Finished (Py.Raise e))
      end
  end.

End Drive.

(** The levels written to the backlight, in order. *)
Definition writes (l : list effect) : list Z :=
  flat_map (fun e => match e with EBacklight v => [v] | _ => [] end) l.

(** The suspensions, in order. *)
Definition suspensions (l : list effect) : list syscall :=
  flat_map (fun e => match e with ESuspend c => [c] | _ => [] end) l.

End Hw.

(** ** Geometry (lines 53-69, 157-177, 205-207) *)

Module Geometry.

Import Py.

Definition point : Type := (Z * Z)%type.
Definition area : Type := (Z * Z * Z * Z)%type.

(** [contains] (lines 53-56). *)
Definition contains (a : area) (pos : point) : bool :=
  let '(x, y) := pos in
  let '(ax, ay, aw, ah) := a in
  (ax <=? x) && (x <=? ax + aw) && (ay <=? y) && (y <=? ay + ah).

(** [in_area] (lines 205-207). *)
Definition in_area (a : area) (x y : Z) : bool :=
  let '(ax, ay, aw, ah) := a in
  (ax <=? x) && (x <=? ax + aw) && (ay <=? y) && (y <=? ay + ah).

Definition VIEWX : Z := 6.
Definition VIEWY : Z := 9.

Section Screen.

(** [Display.WIDTH] and [Display.HEIGHT] come from the native module. *)
Variables WIDTH HEIGHT : Z.

(** [rotate] (lines 59-69).  The function returns a tuple, or Python's
    [None] ([Return None]) when no branch is taken. *)
Definition rotate (d : Hw.display) (pos : point) : outcome (option point) :=
  let r := Hw.orientation d in
  if r =? 0 then Return (Some pos)
  else
    let '(x, y) := pos in
    if r =? 90 then Return (Some (y, WIDTH - x))
    else if r =? 180 then Return (Some (WIDTH - x, HEIGHT - y))
    else if r =? 270 then Return (Some (HEIGHT - y, x))
    else Return None.

(** [grid] (lines 161-177); a zero [n_x] or [n_y] raises on the division. *)
Definition grid (i n_x n_y start_x start_y end_x end_y cells_x cells_y
                 spacing : Z) : outcome area :=
  if n_x =? 0 then Raise ZeroDivisionError
  else
    let w := (end_x - start_x) / n_x in
    if n_y =? 0 then Raise ZeroDivisionError
    else
      let h := (end_y - start_y) / n_y in
      let x := (i mod n_x) * w in
      let y := (i / n_x) * h in
      Return (x + start_x, y + start_y,
              (w - spacing) * cells_x, (h - spacing) * cells_y).

(** [grid(i)] with every default argument. *)
Definition grid_default (i : Z) : outcome area :=
  grid i 3 5 VIEWX VIEWY (WIDTH - VIEWX) (HEIGHT - VIEWY) 1 1 0.

End Screen.

(** A display whose orientation reads [r]. *)
Definition oriented (r : Z) : Hw.display := Hw.mkDisplay 0 r 0.

(** [rotate] applied in turn under the orientation readings [rs], each
    result fed to the next call; the chain stops at a result that is not a
    point. *)
Fixpoint rotate_seq (WIDTH HEIGHT : Z) (rs : list Z) (pos : point)
  : outcome (option point) :=
  match rs with
  | [] => Return (Some pos)
  | r :: rs' =>
      match rotate WIDTH HEIGHT (oriented r) pos with
      | Return (Some pos') => rotate_seq WIDTH HEIGHT rs' pos'
      | other => other
      end
  end.

(** The pixels of a cell, as a half-open rectangle. *)
Definition covers (a : area) (p : point) : bool :=
  let '(x, y) := p in
  let '(ax, ay, aw, ah) := a in
  (ax <=? x) && (x <? ax + aw) && (ay <=? y) && (y <? ay + ah).

(** Whether cell [i] of the grid exists and covers the pixel [p]. *)
Definition cell_covers (i n_x n_y start_x start_y end_x end_y : Z)
           (p : point) : bool :=
  match grid i n_x n_y start_x start_y end_x end_y 1 1 0 with
  | Return a => covers a p
  | Raise _ => false
  end.

(** The pixels of the view rectangle [start_x,end_x) x [start_y,end_y). *)
Definition in_view (start_x start_y end_x end_y : Z) (p : point) : Prop :=
  start_x <= fst p < end_x /\ start_y <= snd p < end_y.

End Geometry.

(** ** Backlight animations (lines 78-89, 105-117) *)

Module Backlight.

Import Py Hw.

Section Animations.

Context {U : Type}.

(** [BACKLIGHT_NORMAL] and [BACKLIGHT_MAX] come from [trezor.ui.style]. *)
Variables BACKLIGHT_NORMAL BACKLIGHT_MAX : Z.

(** [alert] (lines 78-89): not started yet, or inside the [for] loop with
    the indices still to run. *)
Inductive alert_state : Type :=
| AlertStart (count : Z)
| AlertLoop (current : Z) (rest : list Z).

(** The [for] loop of [alert] from its head up to the next suspension, and
    the statement after the loop. *)
Definition alert_loop (current : Z) (rest : list Z) (w : world U)
  : world U * step alert_state unit :=
  match rest with
  | [] => (set_backlight current w, Returned tt)
  | i :: rest' =>
      if i mod 2 =? 0
      then (set_backlight BACKLIGHT_MAX w,
            Yielded (Sleep 20000) (AlertLoop current rest'))
      else (set_backlight BACKLIGHT_NORMAL w,
            Yielded (Sleep 80000) (AlertLoop current rest'))
  end.

Definition alert_resume (st : alert_state) (m : msg value) (w : world U)
  : world U * step alert_state unit :=
  match m with
  | Throw e => (w, Raised e)
  | Send _ =>
      match st with
      | AlertStart count =>
          let current := get_backlight w in
          match range 0 (count * 2) 1 with
          | Raise e => (w, Raised e)
          | Return indices => alert_loop current indices w
          end
      | AlertLoop current rest => alert_loop current rest w
      end
  end.

End Animations.

Section Slides.

Context {U : Type}.

(** [backlight_slide] (lines 105-110). *)
Inductive slide_state : Type :=
| SlideStart (val delay step : Z)
| SlideLoop (delay : Z) (rest : list Z).

Definition slide_loop (delay : Z) (rest : list Z) (w : world U)
  : world U * step slide_state unit :=
  match rest with
  | [] => (w, Returned tt)
  | i :: rest' =>
      (set_backlight i w, Yielded (Sleep delay) (SlideLoop delay rest'))
  end.

Definition slide_resume (st : slide_state) (m : msg value) (w : world U)
  : world U * step slide_state unit :=
  match m with
  | Throw e => (w, Raised e)
  | Send _ =>
      match st with
      | SlideStart val delay step =>
          let current := get_backlight w in
          match range current val (if val <? current then - step else step)
          with
          | Raise e => (w, Raised e)
          | Return levels => slide_loop delay levels w
          end
      | SlideLoop delay rest => slide_loop delay rest w
      end
  end.

(** The body of the loop of [backlight_slide_sync] over the levels left. *)
Fixpoint slide_sync_loop (delay : Z) (levels : list Z) (w : world U)
  : world U :=
  match levels with
  | [] => w
  | i :: rest =>
      slide_sync_loop delay rest (emit (ESleepUs delay) (set_backlight i w))
  end.

(** [backlight_slide_sync] (lines 113-117). *)
Definition backlight_slide_sync (val delay step : Z) (w : world U)
  : world U * outcome unit :=
  let current := get_backlight w in
  match range current val (if val <? current then - step else step) with
  | Raise e => (w, Raise e)
  | Return levels => (slide_sync_loop delay levels w, Return tt)
  end.

End Slides.

End Backlight.

(** ** The Widget protocol (lines 180-199) *)

Module WidgetProto.

Import Py Hw.

Section Widget.

(** [U] is the state of the widget object, [R] the type of its results.
    [render] and [touch] are the virtual methods of the subclass; each
    returns the updated object and either a value or an exception.  [touch]
    returning [Return None] is Python's [None]. *)
Context {U R : Type}.
Variable render : U -> U * outcome unit.
Variable touch : U -> Z -> list Z -> U * outcome (option R).

(** [Widget.__iter__]: not started, or suspended at [yield touch]. *)
Inductive widget_state : Type :=
| WStart
| WWaiting.

(** One pass from the head of the [while] loop to the [yield]. *)
Definition widget_loop (w : world U) : world U * step widget_state R :=
  let w1 := emit ERender w in
  let '(u, o) := render (self w1) in
  let w2 := set_self u w1 in
  match o with
  | Raise e => (w2, Raised e)
  | Return _ => (w2, Yielded WaitTouch WWaiting)
  end.

Definition widget_resume (st : widget_state) (m : msg value) (w : world U)
  : world U * step widget_state R :=
  match m with
  | Throw e => (w, Raised e)
  | Send v =>
      match st with
      | WStart => widget_loop w
      | WWaiting =>
          match v with
          | VNone => (w, Raised TypeError)
          | VTouch event x y =>
              let w1 := emit (ETouch event x y) w in
              let '(u, o) := touch (self w1) event [x; y] in
              let w2 := set_self u w1 in
              match o with
              | Raise e => (w2, Raised e)
              | Return (Some r) => (w2, Returned r)
              | Return None => widget_loop w2
              end
          end
      end
  end.

End Widget.

End WidgetProto.

(** ** The layout decorator (lines 120-134) *)

Module Decorator.

Import Py Hw Backlight.

Section Layout.

(** [L] is the state of the awaitable that [fn] builds and [R] the type of
    what it resolves to.  [construct] is the call [fn( *args, **kwargs)],
    [layout_resume] one resumption of the awaitable it returns.
    [BACKLIGHT_DIM] comes from [trezor.ui.style].  [slide_id] and
    [layout_id] name the objects bound to [slide] and [layout] in the calls
    of the scheduler and of the workflow module, which are logged. *)
Context {U L R : Type}.
Variable BACKLIGHT_DIM : Z.
Variable construct : world U -> world U * outcome L.
Variable layout_resume : L -> msg value -> world U -> world U * step L R.
Variables slide_id layout_id : Z.

(** [inner]: not started, inside [await backlight_slide(BACKLIGHT_DIM)], or
    inside [await layout] within the [try]. *)
Inductive inner_state : Type :=
| InnerStart
| InnerDim (s : slide_state)
| InnerAwait (l : L).

(** The [finally] block with [layout] bound. *)
Definition cleanup (w : world U) : world U :=
  emit (EOnLayoutClose layout_id) (emit (EClose slide_id) w).

(** [await layout]: the message is passed on to the awaited generator.  A
    [GeneratorExit] thrown in closes it and is raised again here; a generator
    that yields on being closed is a [RuntimeError].  Whatever ends the
    [await] runs the [finally] block. *)
Definition await_layout (l : L) (m : msg value) (w : world U)
  : world U * step inner_state R :=
  match layout_resume l m w with
  | (w', Yielded call l') =>
      match m with
      | Throw GeneratorExit => (cleanup w', Raised RuntimeError)
      | _ => (w', Yielded call (InnerAwait l'))
      end
  | (w', Returned r) =>
      match m with
      | Throw GeneratorExit => (cleanup w', Raised GeneratorExit)
      | _ => (cleanup w', Returned r)
      end
  | (w', Raised e) => (cleanup w', Raised e)
  end.

(** The [try] statement of [inner].  When [fn] raises, the [finally] block
    closes [slide] and then reads the unbound local [layout]. *)
Definition inner_try (w : world U) : world U * step inner_state R :=
  match construct w with
  | (w1, Raise _) => (emit (EClose slide_id) w1, Raised UnboundLocalError)
  | (w1, Return l) =>
      await_layout l (Send VNone) (clear (emit (ESchedule slide_id) w1))
  end.

(** [await backlight_slide(BACKLIGHT_DIM)], outside the [try]. *)
Definition inner_dim (s : slide_state) (m : msg value) (w : world U)
  : world U * step inner_state R :=
  match slide_resume s m w with
  | (w', Yielded call s') => (w', Yielded call (InnerDim s'))
  | (w', Returned _) => inner_try w'
  | (w', Raised e) => (w', Raised e)
  end.

Definition inner_resume (st : inner_state) (m : msg value) (w : world U)
  : world U * step inner_state R :=
  match st with
  | InnerStart =>
      match m with
      | Throw e => (w, Raised e)
      | Send _ => inner_dim (SlideStart BACKLIGHT_DIM 35000 20) (Send VNone) w
      end
  | InnerDim s => inner_dim s m w
  | InnerAwait l => await_layout l m w
  end.

End Layout.

End Decorator.

(** ** Control and Layout (lines 210-264) *)

Module LayoutRun.

Import Py Hw.

(** A control object: the attribute [repaint] that [dispatch] sets, and the
    attributes of the subclass. *)
Record control (U : Type) : Type := mkControl {
  repaint : bool;
  fields : U
}.
Arguments mkControl {U} repaint fields.
Arguments repaint {U} c.
Arguments fields {U} c.

Definition RENDER : Z := -1234.
Definition REPAINT : Z := -1235.

Section Control.

Context {U : Type}.

(** [io.TOUCH_START], [io.TOUCH_MOVE] and [io.TOUCH_END] come from the
    native module [trezor.io]. *)
Variables TOUCH_START TOUCH_MOVE TOUCH_END : Z.

(** The handlers of the subclass. *)
Variable on_render : control U -> control U * outcome unit.
Variables on_touch_start on_touch_move on_touch_end
  : control U -> Z -> Z -> control U * outcome unit.

Definition call (h : control U -> control U * outcome unit)
           (w : world (control U)) : world (control U) * outcome unit :=
  let '(c, o) := h (self w) in (set_self c w, o).

(** [Control.dispatch] (lines 216-226). *)
Definition dispatch (event x y : Z) (w : world (control U))
  : world (control U) * outcome unit :=
  if event =? RENDER then call on_render (emit ERender w)
  else if event =? TOUCH_START
       then call (fun c => on_touch_start c x y) (emit (ETouch event x y) w)
  else if event =? TOUCH_MOVE
       then call (fun c => on_touch_move c x y) (emit (ETouch event x y) w)
  else if event =? TOUCH_END
       then call (fun c => on_touch_end c x y) (emit (ETouch event x y) w)
  else if event =? REPAINT
       then (set_self (mkControl true (fields (self w))) w, Return tt)
  else (w, Return tt).

(** The body of [Layout.handle_rendering] (lines 249-253), before the
    decorator is applied. *)
Inductive render_state : Type :=
| RenderStart
| RenderLoop.

Definition render_resume (st : render_state) (m : msg value)
           (w : world (control U))
  : world (control U) * step render_state unit :=
  match m with
  | Throw e => (w, Raised e)
  | Send _ =>
      match dispatch RENDER 0 0 w with
      | (w', Raise e) => (w', Raised e)
      | (w', Return _) => (w', Yielded (Sleep 10000) RenderLoop)
      end
  end.

(** [Layout.handle_input] (lines 255-259). *)
Inductive input_state : Type :=
| InputStart
| InputWait.

Definition input_resume (st : input_state) (m : msg value)
           (w : world (control U))
  : world (control U) * step input_state unit :=
  match m with
  | Throw e => (w, Raised e)
  | Send v =>
      match st with
      | InputStart => (w, Yielded WaitTouch InputWait)
      | InputWait =>
          match v with
          | VNone => (w, Raised TypeError)
          | VTouch event x y =>
              match dispatch event x y w with
              | (w', Raise e) => (w', Raised e)
              | (w', Return _) => (w', Yielded WaitTouch InputWait)
              end
          end
      end
  end.

(** [self.handle_rendering()]: the method is decorated with [layout]
    (line 248), so the call builds [inner] around the generator above. *)
Variable BACKLIGHT_DIM : Z.
Variables slide_id layout_id : Z.

Definition rendering_resume
  : Decorator.inner_state (L := render_state) -> msg value ->
    world (control U) ->
    world (control U) * step (Decorator.inner_state (L := render_state)) unit :=
  Decorator.inner_resume BACKLIGHT_DIM (fun w => (w, Return RenderStart))
                         render_resume slide_id layout_id.

(** *** [Layout.__iter__] (lines 242-246) under the scheduler *)

(** Modelled from the spec: what a child of [loop.spawn] waits for, its
    first run or the system call it yielded. *)
Inductive pending : Type :=
| PStart
| PSys (call : syscall).

(** Modelled from the spec: the two children of the [loop.spawn] call;
    [None] once a child has finished or was closed. *)
Record children : Type := mkChildren {
  render_task : option (Decorator.inner_state (L := render_state) * pending);
  input_task : option (input_state * pending)
}.

(** The layout task awaits the spawned children, or has resolved:
    [Return (Some v)] is [return result.value], [Return None] the end of the
    function body, [Raise e] an exception that is not a [Result]. *)
Inductive layout_status : Type :=
| Running (t : children)
| Resolved (o : outcome (option Z)).

(** The [except Result] clause. *)
Definition catch_result (e : exn) : outcome (option Z) :=
  match e with
  | ResultExc v => Return (Some v)
  | _ => Raise e
  end.

(** Modelled from the spec: [loop.close] stops a task (section 6); closing
    a generator that has run throws [GeneratorExit] into it, one that has
    not run yet just ends. *)
Definition close_render (t : children) (w : world (control U))
  : world (control U) :=
  match render_task t with
  | Some (st, PSys _) => fst (rendering_resume st (Throw GeneratorExit) w)
  | _ => w
  end.

(** Modelled from the spec: [loop.close] on the input task. *)
Definition close_input (t : children) (w : world (control U))
  : world (control U) :=
  match input_task t with
  | Some (st, PSys _) => fst (input_resume st (Throw GeneratorExit) w)
  | _ => w
  end.

(** Modelled from the spec: [loop.spawn] is not part of the sources.
    Sections 4.4 and 6: the children run concurrently; the first child that
    raises ends the group, the other children are cancelled before the
    awaiting task goes on, and the exception is raised in the awaiting task;
    the group resolves when every child has returned. *)
Definition settle_render
           (res : world (control U)
                  * step (Decorator.inner_state (L := render_state)) unit)
           (t : children) : world (control U) * layout_status :=
  match res with
  | (w, Yielded call st) =>
      (w, Running (mkChildren (Some (st, PSys call)) (input_task t)))
  | (w, Returned _) =>
      match input_task t with
      | None => (w, Resolved (Return None))
      | Some _ => (w, Running (mkChildren None (input_task t)))
      end
  | (w, Raised e) => (close_input t w, Resolved (catch_result e))
  end.

(** Modelled from the spec: [loop.spawn], for a step of the input task. *)
Definition settle_input
           (res : world (control U) * step input_state unit)
           (t : children) : world (control U) * layout_status :=
  match res with
  | (w, Yielded call st) =>
      (w, Running (mkChildren (render_task t) (Some (st, PSys call))))
  | (w, Returned _) =>
      match render_task t with
      | None => (w, Resolved (Return None))
      | Some _ => (w, Running (mkChildren (render_task t) None))
      end
  | (w, Raised e) => (close_render t w, Resolved (catch_result e))
  end.

(** Modelled from the spec: what the scheduler does next.  It runs a child
    that is due (just spawned, or its sleep is over), it delivers a touch
    event to the child waiting for one, or it runs some other task, which
    may change the display. *)
Inductive sched_event : Type :=
| RunRender
| RunInput
| Touch (event x y : Z)
| Other (f : display -> display).

(** Modelled from the spec: one step of the scheduler (section 6: [wait],
    [sleep], [spawn], [close]).  A child is resumed only with what it waits
    for; once the layout has resolved, nothing of it is scheduled. *)
Definition sched_step (ev : sched_event) (s : world (control U) * layout_status)
  : world (control U) * layout_status :=
  match s with
  | (w, Resolved _) => s
  | (w, Running t) =>
      match ev with
      | Other f => (set_disp (f (disp w)) w, Running t)
      | RunRender =>
          match render_task t with
          | Some (st, PStart) | Some (st, PSys (Sleep _)) =>
              settle_render (rendering_resume st (Send VNone) w) t
          | _ => s
          end
      | RunInput =>
          match input_task t with
          | Some (st, PStart) | Some (st, PSys (Sleep _)) =>
              settle_input (input_resume st (Send VNone) w) t
          | _ => s
          end
      | Touch event x y =>
          match input_task t with
          | Some (st, PSys WaitTouch) =>
              settle_input (input_resume st (Send (VTouch event x y)) w) t
          | _ => s
          end
      end
  end.

(** Modelled from the spec: the state right after
    [await loop.spawn(self.handle_rendering(), self.handle_input())], where
    both children are created and wait for their first run. *)
Definition layout_start (w : world (control U))
  : world (control U) * layout_status :=
  (w, Running (mkChildren (Some (Decorator.InnerStart, PStart))
                          (Some (InputStart, PStart)))).

(** Modelled from the spec: the scheduler taking the steps [evs] in turn. *)
Definition sched_run (evs : list sched_event)
           (s : world (control U) * layout_status)
  : world (control U) * layout_status :=
  fold_left (fun s ev => sched_step ev s) evs s.

End Control.

End LayoutRun.

(** ** Sample subclasses and wrapped layouts, for concrete runs *)

Module Samples.

Import Py Hw.

(** A widget that counts its renders and resolves to 7 on the event 4. *)
Definition sample_render (u : nat) : nat * outcome unit :=
  (S u, Return tt).

Definition sample_touch (u : nat) (event : Z) (pos : list Z)
  : nat * outcome (option Z) :=
  (u, Return (if event =? 4 then Some 7 else None)).

(** An awaitable that waits for touch events and resolves to 42 on the
    event 4; it does not handle what is thrown into it. *)
Definition sample_layout_resume (l : unit) (m : msg value) (w : world unit)
  : world unit * step unit Z :=
  match m with
  | Send (VTouch event x y) =>
      if event =? 4 then (w, Returned 42) else (w, Yielded WaitTouch tt)
  | Send VNone => (w, Yielded WaitTouch tt)
  | Throw e => (w, Raised e)
  end.

Definition sample_construct (w : world unit) : world unit * outcome unit :=
  (w, Return tt).

Definition failing_construct (w : world unit) : world unit * outcome unit :=
  (w, Raise (OtherExc 9)).

(** A control whose [on_touch_end] raises [Result(42)] at once; the other
    handlers are those of [Control] (they do nothing). *)
Definition idle (c : LayoutRun.control unit)
  : LayoutRun.control unit * outcome unit := (c, Return tt).

Definition idle_at (c : LayoutRun.control unit) (x y : Z)
  : LayoutRun.control unit * outcome unit := (c, Return tt).

Definition result_42 (c : LayoutRun.control unit) (x y : Z)
  : LayoutRun.control unit * outcome unit := (c, Raise (ResultExc 42)).

End Samples.

(** ** Predicates on logs and runs, used in the statements below *)

(** Every resumption is a [send], none a [throw]. *)
Definition all_sent (inputs : list (Py.msg Hw.value * (Hw.display -> Hw.display)))
  : Prop :=
  Forall (fun i => exists v, fst i = Py.Send v) inputs.

(** One blink cycle of [alert] as it appears in the log. *)
Definition blink (BACKLIGHT_NORMAL BACKLIGHT_MAX : Z) : list Hw.effect :=
  [Hw.EBacklight BACKLIGHT_MAX; Hw.ESuspend (Hw.Sleep 20000);
   Hw.EBacklight BACKLIGHT_NORMAL; Hw.ESuspend (Hw.Sleep 80000)].

(** The log of one full iteration of [Widget.__iter__] that received the
    touch event [t]. *)
Definition round (t : Z * Z * Z) : list Hw.effect :=
  let '(event, x, y) := t in
  [Hw.ERender; Hw.ESuspend Hw.WaitTouch; Hw.ETouch event x y].

(** The logs a widget can leave: full iterations, then possibly an
    iteration cut after its render call or at its suspension. *)
Definition widget_log (l : list Hw.effect) : Prop :=
  exists touches tail,
    l = flat_map round touches ++ tail /\
    (tail = [] \/ tail = [Hw.ERender] \/
     tail = [Hw.ERender; Hw.ESuspend Hw.WaitTouch]).

(** What the log looks like while the generator stands at [st]. *)
Definition widget_inv (st : WidgetProto.widget_state) (l : list Hw.effect) : Prop :=
  match st with
  | WidgetProto.WStart => l = []
  | WidgetProto.WWaiting =>
      exists touches,
        l = flat_map round touches ++ [Hw.ERender; Hw.ESuspend Hw.WaitTouch]
  end.

(** A resumption that ended the generator. *)
Definition terminal {S R : Type} (s : Hw.step S R) : Prop :=
  match s with
  | Hw.Yielded _ _ => False
  | _ => True
  end.

(** The last two entries of the log are the calls of the [finally] block. *)
Definition ends_with_cleanup (slide_id layout_id : Z) (l : list Hw.effect)
  : Prop :=
  exists pre, l = pre ++ [Hw.EClose slide_id; Hw.EOnLayoutClose layout_id].

(** How many times a render handler was entered. *)
Definition renders (l : list Hw.effect) : nat :=
  length (filter (fun e => match e with Hw.ERender => true | _ => false end) l).

(** While the layout runs, its input task has not run yet or waits for a
    touch event: no touch event delivered after its first run is lost. *)
Definition input_ready {U : Type}
           (s : Hw.world (LayoutRun.control U) * LayoutRun.layout_status)
  : Prop :=
  match snd s with
  | LayoutRun.Resolved _ => True
  | LayoutRun.Running t =>
      LayoutRun.input_task t = Some (LayoutRun.InputStart, LayoutRun.PStart) \/
      LayoutRun.input_task t
      = Some (LayoutRun.InputWait, LayoutRun.PSys Hw.WaitTouch)
  end.


(** ** [click] (lines 92-102) *)

Module ClickGen.

Import Py Hw.

Section Click.

Context {U : Type}.

(** [io.TOUCH_START] and [io.TOUCH_END] come from the native module
    [trezor.io]. *)
Variables TOUCH_START TOUCH_END : Z.

(** [click]: not started, suspended in the first loop (waiting for the
    touch to start), or suspended in the second loop (waiting for it to
    end). *)
Inductive click_state : Type :=
| ClickStart
| ClickDown
| ClickUp.

Definition click_resume (st : click_state) (m : msg value) (w : world U)
  : world U * step click_state (list Z) :=
  match m with
  | Throw e => (w, Raised e)
  | Send v =>
      match st with
      | ClickStart => (w, Yielded WaitTouch ClickDown)
      | ClickDown =>
          match v with
          | VNone => (w, Raised TypeError)
          | VTouch ev x y =>
              if ev =? TOUCH_START
              then (w, Yielded WaitTouch ClickUp)
              else (w, Yielded WaitTouch ClickDown)
          end
      | ClickUp =>
          match v with
          | VNone => (w, Raised TypeError)
          | VTouch ev x y =>
              if ev =? TOUCH_END
              then (w, Returned [x; y])
              else (w, Yielded WaitTouch ClickUp)
          end
      end
  end.

End Click.

End ClickGen.

(** ** The decorator without fade (lines 137-146) *)

Module Bare.

Import Py Hw.

Section LayoutWithoutFade.

(** [construct] is the call [fn( *args, **kwargs)] and [layout_resume] one
    resumption of the awaitable it returns, as for the decorator with fade.
    [onlayoutstart] and [onlayoutclose] are the calls
    [workflow.onlayoutstart(layout)] and [workflow.onlayoutclose(layout)] on
    the constructed layout; the workflow module is not part of the sources,
    so what the two calls do to the world is left open. *)
Context {U L R : Type}.
Variable construct : world U -> world U * outcome L.
Variable layout_resume : L -> msg value -> world U -> world U * step L R.
Variables onlayoutstart onlayoutclose : world U -> world U.

(** [inner]: not started, or inside [await layout]. *)
Inductive bare_state : Type :=
| BareStart
| BareAwait (l : L).

(** [await layout] inside the [try]; whatever ends it runs the [finally]
    block, which calls [workflow.onlayoutclose(layout)]. *)
Definition await_bare (l : L) (m : msg value) (w : world U)
  : world U * step bare_state R :=
  match layout_resume l m w with
  | (w', Yielded call l') =>
      match m with
      | Throw GeneratorExit => (onlayoutclose w', Raised RuntimeError)
      | _ => (w', Yielded call (BareAwait l'))
      end
  | (w', Returned r) =>
      match m with
      | Throw GeneratorExit => (onlayoutclose w', Raised GeneratorExit)
      | _ => (onlayoutclose w', Returned r)
      end
  | (w', Raised e) => (onlayoutclose w', Raised e)
  end.

(** When [fn] raises, the [finally] block reads the unbound local [layout]
    before it can call [workflow.onlayoutclose]. *)
Definition bare_resume (st : bare_state) (m : msg value) (w : world U)
  : world U * step bare_state R :=
  match st with
  | BareStart =>
      match m with
      | Throw e => (w, Raised e)
      | Send _ =>
          match construct w with
          | (w1, Raise _) => (w1, Raised UnboundLocalError)
          | (w1, Return l) => await_bare l (Send VNone) (onlayoutstart w1)
          end
      end
  | BareAwait l => await_bare l m w
  end.

End LayoutWithoutFade.

End Bare.

(** ** Further predicates on inputs and logs *)

(** The resumptions that deliver the touch events [ts], one each, while no
    other task changes the display. *)
Definition touch_inputs (ts : list (Z * Z * Z))
  : list (Py.msg Hw.value * (Hw.display -> Hw.display)) :=
  map (fun t => let '(event, x, y) := t in
                (Py.Send (Hw.VTouch event x y), fun d : Hw.display => d)) ts.

(** The touch events that reached a touch handler, in order. *)
Definition touch_calls (l : list Hw.effect) : list (Z * Z * Z) :=
  flat_map (fun e => match e with
                     | Hw.ETouch event x y => [(event, x, y)]
                     | _ => []
                     end) l.

(** Every render dispatch in the log comes after a [display.clear()]. *)
Definition cleared_before_render (l : list Hw.effect) : Prop :=
  forall pre post, l = pre ++ Hw.ERender :: post -> In Hw.EClear pre.

(** A step that appends no render dispatch to the log. *)
Definition quiet_step {U : Type} (w w' : Hw.world U) : Prop :=
  exists ext, Hw.log w' = Hw.log w ++ ext /\ ~ In Hw.ERender ext.

(** What holds of a layout under the scheduler: every render dispatch so
    far came after [display.clear()], and once the render task is inside
    its render loop the display has been cleared. *)
Definition first_frame_inv {U : Type}
           (s : Hw.world (LayoutRun.control U) * LayoutRun.layout_status)
  : Prop :=
  cleared_before_render (Hw.log (fst s)) /\
  match snd s with
  | LayoutRun.Resolved _ => True
  | LayoutRun.Running t =>
      forall l p,
        LayoutRun.render_task t = Some (Decorator.InnerAwait l, p) ->
        In Hw.EClear (Hw.log (fst s))
  end.

(** The event code of a scheduler event, if it is a touch. *)
Definition touch_code (ev : LayoutRun.sched_event) : option Z :=
  match ev with
  | LayoutRun.Touch event _ _ => Some event
  | _ => None
  end.

(** ** More sample handlers, for concrete runs *)

Module MoreSamples.

Import Py.

(** An [on_render] that raises [Result(7)]. *)
Definition render_result_7 (c : LayoutRun.control unit)
  : LayoutRun.control unit * outcome unit := (c, Raise (ResultExc 7)).

(** A touch handler that fails with an exception that is not a [Result]. *)
Definition failing_at (c : LayoutRun.control unit) (x y : Z)
  : LayoutRun.control unit * outcome unit := (c, Raise (OtherExc 3)).

(** A layout in its render loop: the render task sleeps between two
    frames and the input task waits for a touch event. *)
Definition running_children : LayoutRun.children :=
  LayoutRun.mkChildren
    (Some (Decorator.InnerAwait LayoutRun.RenderLoop,
           LayoutRun.PSys (Hw.Sleep 10000)))
    (Some (LayoutRun.InputWait, LayoutRun.PSys Hw.WaitTouch)).

Definition running_world : Hw.world (LayoutRun.control unit) :=
  Hw.mkWorld (Hw.mkDisplay 5 0 1) (LayoutRun.mkControl false tt)
             [Hw.ESchedule 1; Hw.EClear; Hw.ERender].

End MoreSamples.

(** * Properties *)

(** ** Colours *)

Example blend_sample_0 : Color.blend 0xF800 0x07E0 0 = 0xF800.
Proof. reflexivity. Qed.

Example blend_sample_1 : Color.blend 0xF800 0x07E0 1 = 0x07E0.
Proof. reflexivity. Qed.

Example blend_sample_half : Color.blend 0xF800 0x001F (1 # 2) = 0x780F.
Proof. reflexivity. Qed.

Lemma lerpi_0 (a b : Z) : Color.lerpi a b 0 = a.
Proof.
  unfold Color.lerpi, Color.int_of, Qplus, Qmult, inject_Z; cbn [Qnum Qden Pos.mul].
  rewrite Z.quot_1_r. lia.
Qed.

Lemma lerpi_1 (a b : Z) : Color.lerpi a b 1 = b.
Proof.
  unfold Color.lerpi, Color.int_of, Qplus, Qmult, inject_Z; cbn [Qnum Qden Pos.mul].
  rewrite Z.quot_1_r. lia.
Qed.

Lemma byte_bits_high (k m : Z) :
  0 <= k < 256 -> 8 <= m -> Z.testbit k m = false.
Proof.
  intros Hk Hm. rewrite <- (Z.mod_small k (2 ^ 8)) by (cbn; lia).
  apply Z.mod_pow2_bits_high. lia.
Qed.

Lemma rgb565_bits_high (c m : Z) :
  Color.valid_rgb565 c -> 16 <= m -> Z.testbit c m = false.
Proof.
  intros Hc Hm. rewrite <- (Z.mod_small c (2 ^ 16)) by (cbn; exact Hc).
  apply Z.mod_pow2_bits_high. lia.
Qed.

(** Bit [n] of a colour unpacked into its three channels and packed again. *)
Lemma repack_testbit (c n : Z) :
  0 <= n ->
  Z.testbit (Color.rgb (Z.land (Z.shiftr c 8) 0xF8) (Z.land (Z.shiftr c 3) 0xFC)
                 (Z.land (Z.shiftl c 3) 0xF8)) n
  = (Z.testbit c n && Z.testbit 0xF8 (n - 8) && Z.testbit 0xF8 (n - 8)
     || Z.testbit c n && Z.testbit 0xFC (n - 3) && Z.testbit 0xFC (n - 3)
     || Z.testbit c n && Z.testbit 0xF8 (n + 3) && Z.testbit 0xF8 (n + 3))%bool.
Proof.
  intros Hn. unfold Color.rgb.
  rewrite !Z.lor_spec, Z.shiftr_spec, !Z.shiftl_spec, !Z.land_spec by lia.
  rewrite Z.shiftl_spec by lia.
  replace (n + 3 - 3) with n by lia.
  assert (Hred : (Z.testbit (Z.shiftr c 8) (n - 8) && Z.testbit 0xF8 (n - 8)
                  = Z.testbit c n && Z.testbit 0xF8 (n - 8))%bool).
  { destruct (Z.ltb_spec n 8) as [Hlt|Hge].
    - rewrite (Z.testbit_neg_r 0xF8 (n - 8)) by lia.
      now rewrite !andb_false_r.
    - rewrite Z.shiftr_spec by lia. now replace (n - 8 + 8) with n by lia. }
  assert (Hgreen : (Z.testbit (Z.shiftr c 3) (n - 3) && Z.testbit 0xFC (n - 3)
                    = Z.testbit c n && Z.testbit 0xFC (n - 3))%bool).
  { destruct (Z.ltb_spec n 3) as [Hlt|Hge].
    - rewrite (Z.testbit_neg_r 0xFC (n - 3)) by lia.
      now rewrite !andb_false_r.
    - rewrite Z.shiftr_spec by lia. now replace (n - 3 + 3) with n by lia. }
  now rewrite Hred, Hgreen.
Qed.

(** Every one of the 16 bit positions belongs to one of the channels. *)
Lemma mask_covers (n : Z) :
  0 <= n < 16 ->
  (Z.testbit 0xF8 (n - 8) || Z.testbit 0xFC (n - 3)
   || Z.testbit 0xF8 (n + 3))%bool = true.
Proof.
  intros Hn. rewrite <- (Z2Nat.id n) by lia.
  assert (Hk : (Z.to_nat n < 16)%nat) by lia.
  revert Hk. generalize (Z.to_nat n). intros k Hk.
  do 16 (destruct k as [|k]; [reflexivity|]). lia.
Qed.

(** Unpacking a valid colour and packing it again gives the colour back. *)
Lemma repack_id (c : Z) :
  Color.valid_rgb565 c ->
  Color.rgb (Z.land (Z.shiftr c 8) 0xF8) (Z.land (Z.shiftr c 3) 0xFC)
      (Z.land (Z.shiftl c 3) 0xF8) = c.
Proof.
  intros Hc. apply Z.bits_inj'. intros n Hn.
  rewrite repack_testbit by exact Hn.
  destruct (Z.ltb_spec n 16) as [Hlt|Hge].
  - pose proof (mask_covers n (conj Hn Hlt)) as Hmask.
    destruct (Z.testbit c n), (Z.testbit 0xF8 (n - 8)),
      (Z.testbit 0xFC (n - 3)), (Z.testbit 0xF8 (n + 3));
      (reflexivity || discriminate Hmask).
  - rewrite (rgb565_bits_high c n Hc Hge).
    rewrite (byte_bits_high 0xF8 (n - 8)), (byte_bits_high 0xFC (n - 3)),
      (byte_bits_high 0xF8 (n + 3)) by lia.
    reflexivity.
Qed.


(** [C8] At the factor [0] the blend of two valid RGB565 colours is exactly
    the first colour, and at the factor [1] it is exactly the second. *)
Theorem blend_endpoints (a b : Z) :
  Color.valid_rgb565 a -> Color.valid_rgb565 b ->
  Color.blend a b 0 = a /\ Color.blend a b 1 = b.
Proof.
  intros Ha Hb. unfold Color.blend.
  rewrite !lerpi_0, !lerpi_1.
  split; apply repack_id; assumption.
Qed.

Lemma blend_endpoints_witness :
  Color.blend 0xF800 0x07E0 0 = 0xF800 /\ Color.blend 0xF800 0x07E0 1 = 0x07E0.
Proof.
  apply (blend_endpoints 0xF800 0x07E0); unfold Color.valid_rgb565; lia.
Defined.

(** ** Geometry *)

Section GridFacts.

Import Py Geometry.

Variables n_x n_y start_x start_y end_x end_y : Z.
Hypothesis n_x_pos : 0 < n_x.
Hypothesis n_y_pos : 0 < n_y.

Let w := (end_x - start_x) / n_x.
Let h := (end_y - start_y) / n_y.

Lemma cell_covers_spec (i px py : Z) :
  cell_covers i n_x n_y start_x start_y end_x end_y (px, py) = true <->
  (start_x + (i mod n_x) * w <= px < start_x + (i mod n_x) * w + w) /\
  (start_y + (i / n_x) * h <= py < start_y + (i / n_x) * h + h).
Proof.
  unfold cell_covers, grid.
  destruct (Z.eqb_spec n_x 0) as [->|_]; [lia|].
  destruct (Z.eqb_spec n_y 0) as [->|_]; [lia|].
  cbn [covers]. fold w h.
  rewrite !andb_true_iff, !Z.leb_le, !Z.ltb_lt. lia.
Qed.

(** Column and row of an index inside the grid. *)
Lemma index_bounds (i : Z) :
  0 <= i < n_x * n_y -> 0 <= i mod n_x < n_x /\ 0 <= i / n_x < n_y.
Proof.
  intros Hi. split.
  - apply Z.mod_pos_bound; lia.
  - split.
    + apply Z.div_pos; lia.
    + apply Z.div_lt_upper_bound; lia.
Qed.

Lemma cells_disjoint (i j : Z) (p : point) :
  0 <= i < n_x * n_y -> 0 <= j < n_x * n_y ->
  cell_covers i n_x n_y start_x start_y end_x end_y p = true ->
  cell_covers j n_x n_y start_x start_y end_x end_y p = true ->
  i = j.
Proof.
  intros Hi Hj. destruct p as [px py].
  rewrite !cell_covers_spec. intros [Hix Hiy] [Hjx Hjy].
  assert (Hcol : i mod n_x = j mod n_x) by nia.
  assert (Hrow : i / n_x = j / n_x) by nia.
  rewrite (Z.div_mod i n_x), (Z.div_mod j n_x) by lia.
  now rewrite Hcol, Hrow.
Qed.

Lemma cells_union (p : point) :
  (exists i, 0 <= i < n_x * n_y /\
             cell_covers i n_x n_y start_x start_y end_x end_y p = true) <->
  in_view start_x start_y (start_x + n_x * w) (start_y + n_y * h) p.
Proof.
  destruct p as [px py]. unfold in_view. cbn [fst snd]. split.
  - intros (i & Hi & Hc). apply cell_covers_spec in Hc.
    destruct (index_bounds i Hi) as [Hcol Hrow]. nia.
  - intros [Hx Hy].
    assert (Hw : 0 < w) by nia.
    assert (Hh : 0 < h) by nia.
    set (col := (px - start_x) / w).
    set (row := (py - start_y) / h).
    assert (Hcol : 0 <= col < n_x).
    { split; [apply Z.div_pos; lia|apply Z.div_lt_upper_bound; nia]. }
    assert (Hrow : 0 <= row < n_y).
    { split; [apply Z.div_pos; lia|apply Z.div_lt_upper_bound; nia]. }
    assert (Hpx : col * w <= px - start_x < col * w + w).
    { pose proof (Z.div_mod (px - start_x) w ltac:(lia)) as E.
      pose proof (Z.mod_pos_bound (px - start_x) w Hw). fold col in E. nia. }
    assert (Hpy : row * h <= py - start_y < row * h + h).
    { pose proof (Z.div_mod (py - start_y) h ltac:(lia)) as E.
      pose proof (Z.mod_pos_bound (py - start_y) h Hh). fold row in E. nia. }
    exists (row * n_x + col). split; [nia|].
    apply cell_covers_spec.
    assert (Hm : (row * n_x + col) mod n_x = col).
    { rewrite Z.add_comm, Z.mod_add by lia. apply Z.mod_small; lia. }
    assert (Hd : (row * n_x + col) / n_x = row).
    { rewrite Z.add_comm, Z.div_add by lia.
      rewrite (Z.div_small col n_x) by lia. lia. }
    rewrite Hm, Hd. lia.
Qed.

Lemma cells_inside_view :
  start_x + n_x * w <= end_x /\ start_y + n_y * h <= end_y.
Proof.
  pose proof (Z.mul_div_le (end_x - start_x) n_x n_x_pos).
  pose proof (Z.mul_div_le (end_y - start_y) n_y n_y_pos).
  subst w h. lia.
Qed.

Lemma cells_fill_view :
  (n_x | end_x - start_x) -> (n_y | end_y - start_y) ->
  start_x + n_x * w = end_x /\ start_y + n_y * h = end_y.
Proof.
  intros [kx Hx] [ky Hy]. subst w h.
  rewrite Hx, Hy, !Z.div_mul by lia. lia.
Qed.

End GridFacts.

Example grid_default_cell_0 :
  Geometry.grid_default 240 240 0 = Py.Return (6, 9, 76, 44).
Proof. reflexivity. Qed.

Example grid_default_cell_14 :
  Geometry.grid_default 240 240 14 = Py.Return (158, 185, 76, 44).
Proof. reflexivity. Qed.

Example grid_zero_columns :
  Geometry.grid 0 0 5 6 9 234 231 1 1 0 = Py.Raise Py.ZeroDivisionError.
Proof. reflexivity. Qed.

(** [C3] as stated fails: the default 3 x 5 grid of a 240 x 240 display has
    cells of height [222 / 5 = 44], so its 15 cells end at row 229 and the
    pixel (6, 229) of the view rectangle lies in none of them; likewise the
    three cells of a 3 x 1 grid over [0,10) x [0,1) are 3 pixels wide and
    miss the pixel (9, 0). *)
Lemma grid_default_leaves_rows_uncovered :
  ~ (forall p : Geometry.point,
        Geometry.in_view Geometry.VIEWX Geometry.VIEWY
                         (240 - Geometry.VIEWX) (240 - Geometry.VIEWY) p ->
        exists i a, 0 <= i < 15 /\
                    Geometry.grid_default 240 240 i = Py.Return a /\
                    Geometry.covers a p = true) /\
  ~ (forall p : Geometry.point,
        Geometry.in_view 0 0 10 1 p ->
        exists i, 0 <= i < 3 * 1 /\
                  Geometry.cell_covers i 3 1 0 0 10 1 p = true).
Proof.
  split.
  - intros Hall.
    destruct (Hall (6, 229)) as (i & a & Hi & Hg & Hc).
    { unfold Geometry.in_view, Geometry.VIEWX, Geometry.VIEWY. cbn. lia. }
    assert (Hcell : Geometry.cell_covers i 3 5 6 9 234 231 (6, 229) = true).
    { unfold Geometry.cell_covers.
      change (Geometry.grid i 3 5 6 9 234 231 1 1 0)
        with (Geometry.grid_default 240 240 i).
      now rewrite Hg. }
    assert (Hview : Geometry.in_view 6 9 (6 + 3 * ((234 - 6) / 3))
                                     (9 + 5 * ((231 - 9) / 5)) (6, 229)).
    { apply cells_union; [lia|lia|]. exists i. split; [lia|exact Hcell]. }
    unfold Geometry.in_view in Hview. cbn in Hview. lia.
  - intros Hall.
    destruct (Hall (9, 0)) as (i & Hi & Hcell).
    { unfold Geometry.in_view. cbn. lia. }
    assert (Hview : Geometry.in_view 0 0 (0 + 3 * ((10 - 0) / 3))
                                     (0 + 1 * ((1 - 0) / 1)) (9, 0)).
    { apply cells_union; [lia|lia|]. exists i. split; [lia|exact Hcell]. }
    unfold Geometry.in_view in Hview. cbn in Hview. lia.
Qed.

(** [C3], amended: with [w = (end_x - start_x) // n_x] and
    [h = (end_y - start_y) // n_y], the [n_x * n_y] cells of a grid without
    spacing are pairwise non-overlapping and their union is exactly
    [start_x, start_x + n_x*w) x [start_y, start_y + n_y*h); this rectangle
    lies inside the view rectangle and is the whole of it when [n_x] divides
    the view's width and [n_y] its height. *)
Theorem grid_partitions_covered_rectangle
        (n_x n_y start_x start_y end_x end_y : Z) :
  0 < n_x -> 0 < n_y ->
  let right := start_x + n_x * ((end_x - start_x) / n_x) in
  let bottom := start_y + n_y * ((end_y - start_y) / n_y) in
  (forall i j p,
      0 <= i < n_x * n_y -> 0 <= j < n_x * n_y ->
      Geometry.cell_covers i n_x n_y start_x start_y end_x end_y p = true ->
      Geometry.cell_covers j n_x n_y start_x start_y end_x end_y p = true ->
      i = j) /\
  (forall p,
      (exists i, 0 <= i < n_x * n_y /\
                 Geometry.cell_covers i n_x n_y start_x start_y end_x end_y p
                 = true) <->
      Geometry.in_view start_x start_y right bottom p) /\
  (right <= end_x /\ bottom <= end_y) /\
  ((n_x | end_x - start_x) -> (n_y | end_y - start_y) ->
   right = end_x /\ bottom = end_y).
Proof.
  intros Hx Hy right bottom. split; [|split; [|split]].
  - intros i j p. now apply cells_disjoint.
  - intros p. now apply cells_union.
  - now apply cells_inside_view.
  - now apply cells_fill_view.
Qed.

Lemma grid_partitions_covered_rectangle_witness :
  (forall i j p,
      0 <= i < 3 * 5 -> 0 <= j < 3 * 5 ->
      Geometry.cell_covers i 3 5 6 9 234 231 p = true ->
      Geometry.cell_covers j 3 5 6 9 234 231 p = true ->
      i = j) /\
  (forall p,
      (exists i, 0 <= i < 3 * 5 /\
                 Geometry.cell_covers i 3 5 6 9 234 231 p = true) <->
      Geometry.in_view 6 9 (6 + 3 * ((234 - 6) / 3))
                       (9 + 5 * ((231 - 9) / 5)) p) /\
  (6 + 3 * ((234 - 6) / 3) <= 234 /\ 9 + 5 * ((231 - 9) / 5) <= 231) /\
  ((3 | 234 - 6) -> (5 | 231 - 9) ->
   6 + 3 * ((234 - 6) / 3) = 234 /\ 9 + 5 * ((231 - 9) / 5) = 231).
Proof.
  apply (grid_partitions_covered_rectangle 3 5 6 9 234 231); lia.
Defined.

Example rotate_90_sample :
  Geometry.rotate 240 240 (Geometry.oriented 90) (10, 20)
  = Py.Return (Some (20, 230)).
Proof. reflexivity. Qed.

(** [C4] as stated fails: one rotation at each of 0, 90, 180 and 270 degrees
    sends the origin of a 240 x 240 display to (240, 240). *)
Lemma rotate_four_orientations_moves_origin :
  Geometry.rotate_seq 240 240 [0; 90; 180; 270] (0, 0)
  = Py.Return (Some (240, 240)) /\
  Geometry.rotate_seq 240 240 [0; 90; 180; 270] (0, 0)
  <> Py.Return (Some (0, 0)).
Proof. split; [reflexivity|discriminate]. Qed.

(** [C4], amended: [rotate] is an involution at 0 and at 180 degrees; one
    rotation at each of 0, 90, 180, 270 degrees maps [(x, y)] to
    [(WIDTH - x, WIDTH - y)]; four rotations at 90 degrees, and four at 270
    degrees, return the original point. *)
Theorem rotate_involution_and_cycles (WIDTH HEIGHT : Z) (p : Geometry.point) :
  Geometry.rotate_seq WIDTH HEIGHT [0; 0] p = Py.Return (Some p) /\
  Geometry.rotate_seq WIDTH HEIGHT [180; 180] p = Py.Return (Some p) /\
  Geometry.rotate_seq WIDTH HEIGHT [0; 90; 180; 270] p
  = Py.Return (Some (WIDTH - fst p, WIDTH - snd p)) /\
  Geometry.rotate_seq WIDTH HEIGHT [90; 90; 90; 90] p = Py.Return (Some p) /\
  Geometry.rotate_seq WIDTH HEIGHT [270; 270; 270; 270] p
  = Py.Return (Some p).
Proof.
  destruct p as [x y]. cbn.
  repeat split; do 2 f_equal; f_equal; lia.
Qed.

(** [C5] as stated fails: under the orientation reading 45, [rotate] raises
    nothing; it returns [None]. *)
Lemma rotate_unknown_orientation_no_error :
  Geometry.rotate 240 240 (Geometry.oriented 45) (10, 20) = Py.Return None /\
  ~ (exists e, Geometry.rotate 240 240 (Geometry.oriented 45) (10, 20)
               = Py.Raise e).
Proof.
  split; [reflexivity|]. intros [e He]. discriminate He.
Qed.

(** [C5], amended: for every orientation reading outside {0, 90, 180, 270},
    [rotate] raises no error and returns [None]. *)
Theorem rotate_unknown_orientation_returns_none
        (WIDTH HEIGHT : Z) (d : Hw.display) (p : Geometry.point) :
  Hw.orientation d <> 0 -> Hw.orientation d <> 90 ->
  Hw.orientation d <> 180 -> Hw.orientation d <> 270 ->
  Geometry.rotate WIDTH HEIGHT d p = Py.Return None.
Proof.
  intros H0 H90 H180 H270. unfold Geometry.rotate. destruct p as [x y].
  destruct (Z.eqb_spec (Hw.orientation d) 0); [contradiction|].
  destruct (Z.eqb_spec (Hw.orientation d) 90); [contradiction|].
  destruct (Z.eqb_spec (Hw.orientation d) 180); [contradiction|].
  destruct (Z.eqb_spec (Hw.orientation d) 270); [contradiction|].
  reflexivity.
Qed.

Lemma rotate_unknown_orientation_returns_none_witness :
  Geometry.rotate 240 240 (Geometry.oriented 45) (10, 20) = Py.Return None.
Proof.
  apply (rotate_unknown_orientation_returns_none 240 240
           (Geometry.oriented 45) (10, 20)); cbn; lia.
Defined.

(** ** Ranges *)

Lemma range_nonzero_step (start stop step : Z) :
  step <> 0 ->
  Py.range start stop step
  = Py.Return (map (fun k => start + Z.of_nat k * step)
                   (seq 0 (Z.to_nat (Py.range_len start stop step)))).
Proof.
  intros Hs. unfold Py.range. now destruct (Z.eqb_spec step 0).
Qed.

Lemma range_zero_step (start stop : Z) :
  Py.range start stop 0 = Py.Raise Py.ValueError.
Proof. reflexivity. Qed.

Lemma range_empty (start step : Z) :
  step <> 0 -> Py.range start start step = Py.Return [].
Proof.
  intros Hs. rewrite range_nonzero_step by exact Hs.
  unfold Py.range_len. rewrite Z.ltb_irrefl.
  now destruct (0 <? step).
Qed.

Lemma range_count (n : nat) :
  Py.range 0 (Z.of_nat n) 1
  = Py.Return (map (fun k => 0 + Z.of_nat k * 1) (seq 0 n)).
Proof.
  rewrite range_nonzero_step by lia. do 3 f_equal.
  unfold Py.range_len. change (0 <? 1) with true. cbv iota.
  destruct (Z.ltb_spec 0 (Z.of_nat n)) as [Hpos|Hzero].
  - rewrite Z.div_1_r. lia.
  - cbn. lia.
Qed.

Example range_samples :
  Py.range 0 6 1 = Py.Return [0; 1; 2; 3; 4; 5] /\
  Py.range 5 150 20 = Py.Return [5; 25; 45; 65; 85; 105; 125; 145] /\
  Py.range 150 5 (-20) = Py.Return [150; 130; 110; 90; 70; 50; 30; 10] /\
  Py.range 5 45 20 = Py.Return [5; 25] /\
  Py.range 5 150 (-20) = Py.Return [] /\
  Py.range 7 7 0 = Py.Raise Py.ValueError.
Proof. repeat split. Qed.

(** ** Backlight animations *)

Section AlertFacts.

Import Py Hw Backlight.

Context {U : Type}.
Variables NORMAL MAX : Z.

Let resume := @alert_resume U NORMAL MAX.

Lemma even_index (k : nat) :
  ((0 + Z.of_nat (2 * k) * 1) mod 2 =? 0) = true.
Proof.
  apply Z.eqb_eq. replace (0 + Z.of_nat (2 * k) * 1) with (Z.of_nat k * 2) by lia.
  apply Z.mod_mul. lia.
Qed.

Lemma odd_index (k : nat) :
  ((0 + Z.of_nat (S (2 * k)) * 1) mod 2 =? 0) = false.
Proof.
  apply Z.eqb_neq.
  replace (0 + Z.of_nat (S (2 * k)) * 1) with (1 + Z.of_nat k * 2) by lia.
  rewrite Z.mod_add by lia. discriminate.
Qed.

Lemma alert_loop_drive (n : nat) :
  forall (k : nat) (cur : Z) inputs (w : world U),
    all_sent inputs -> length inputs = S (2 * n) ->
    exists w',
      drive resume inputs
            (AlertLoop cur (map (fun j => 0 + Z.of_nat j * 1)
                                (seq (2 * k) (2 * n)))) w
      = (w', Finished (Return tt)) /\
      log w' = log w ++ concat (repeat (blink NORMAL MAX) n)
                     ++ [EBacklight cur] /\
      get_backlight w' = cur /\ self w' = self w.
Proof.
  induction n as [|n IH]; intros k cur inputs w Hsent Hlen.
  - destruct inputs as [|[m f] [|? ?]]; try discriminate Hlen.
    inversion Hsent as [|? ? [v Hv] _]; subst. cbn in Hv. subst m.
    unfold resume. cbn. eexists. repeat split.
  - destruct inputs as [|[m1 f1] [|[m2 f2] rest]]; try discriminate Hlen.
    inversion Hsent as [|? ? [v1 Hv1] Hsent1]; subst.
    inversion Hsent1 as [|? ? [v2 Hv2] Hsent2]; subst.
    cbn in Hv1, Hv2. subst m1 m2.
    replace (2 * S n)%nat with (S (S (2 * n))) by lia.
    unfold resume in *.
    cbn [seq map drive alert_resume alert_loop]. rewrite even_index.
    cbn [seq map drive alert_resume alert_loop]. rewrite odd_index.
    replace (S (S (2 * k))) with (2 * S k)%nat by lia.
    cbn [length] in Hlen.
    destruct (IH (S k) cur rest
                 (set_disp (f2 (disp (set_backlight NORMAL
                   (set_disp (f1 (disp (set_backlight MAX w)))
                      (emit (ESuspend (Sleep 20000)) (set_backlight MAX w))))))
                   (emit (ESuspend (Sleep 80000)) (set_backlight NORMAL
                     (set_disp (f1 (disp (set_backlight MAX w)))
                        (emit (ESuspend (Sleep 20000)) (set_backlight MAX w)))))))
      as (w' & Hrun & Hlog & Hlevel & Hself); [exact Hsent2|lia|].
    exists w'. split; [exact Hrun|]. split; [|split; [exact Hlevel|]].
    + rewrite Hlog. cbn. rewrite <- !app_assoc. reflexivity.
    + rewrite Hself. reflexivity.
Qed.

Lemma alert_drive (count : nat) inputs (w : world U) :
  all_sent inputs -> length inputs = S (2 * count) ->
  exists w',
    drive resume inputs (AlertStart (Z.of_nat count)) w
    = (w', Finished (Return tt)) /\
    log w' = log w ++ concat (repeat (blink NORMAL MAX) count)
                   ++ [EBacklight (get_backlight w)] /\
    get_backlight w' = get_backlight w /\ self w' = self w.
Proof.
  intros Hsent Hlen.
  destruct (alert_loop_drive count 0 (get_backlight w) inputs w Hsent Hlen)
    as (w' & Hrun & Hrest).
  exists w'. split; [|exact Hrest].
  rewrite <- Hrun.
  destruct inputs as [|[m f] rest]; [discriminate Hlen|].
  inversion Hsent as [|? ? [v Hv] _]; subst. cbn in Hv. subst m.
  unfold resume. cbn [drive alert_resume].
  replace (Z.of_nat count * 2) with (Z.of_nat (2 * count)) by lia.
  rewrite range_count. destruct count; reflexivity.
Qed.

End AlertFacts.

Lemma suspensions_app (l1 l2 : list Hw.effect) :
  Hw.suspensions (l1 ++ l2) = Hw.suspensions l1 ++ Hw.suspensions l2.
Proof. apply flat_map_app. Qed.

Lemma writes_app (l1 l2 : list Hw.effect) :
  Hw.writes (l1 ++ l2) = Hw.writes l1 ++ Hw.writes l2.
Proof. apply flat_map_app. Qed.

Example alert_twice_from_40 :
  Hw.drive (Backlight.alert_resume 60 255)
           (repeat (Py.Send Hw.VNone, fun d => d) 5)
           (Backlight.AlertStart 2)
           (Hw.mkWorld (Hw.mkDisplay 40 0 0) tt [])
  = (Hw.mkWorld (Hw.mkDisplay 40 0 0) tt
       [Hw.EBacklight 255; Hw.ESuspend (Hw.Sleep 20000);
        Hw.EBacklight 60; Hw.ESuspend (Hw.Sleep 80000);
        Hw.EBacklight 255; Hw.ESuspend (Hw.Sleep 20000);
        Hw.EBacklight 60; Hw.ESuspend (Hw.Sleep 80000);
        Hw.EBacklight 40],
     Hw.Finished (Py.Return tt)).
Proof. reflexivity. Qed.

(** [C6] For every [count >= 0], [alert(count)] resumed until it returns
    (once to start it and once after each of its [2 * count] sleeps) leaves
    the backlight at the level read at entry, whatever other tasks did to the
    display in between; its log is [count] cycles "maximum, short sleep,
    normal, long sleep" followed by the write of the entry level, so for
    [count = 3] it suspends on exactly six sleeps, three short and three
    long. *)
Theorem alert_restores_backlight
        {U : Type} (BACKLIGHT_NORMAL BACKLIGHT_MAX count : Z)
        (inputs : list (Py.msg Hw.value * (Hw.display -> Hw.display)))
        (w : Hw.world U) :
  0 <= count -> all_sent inputs ->
  length inputs = S (2 * Z.to_nat count) ->
  exists w',
    Hw.drive (Backlight.alert_resume BACKLIGHT_NORMAL BACKLIGHT_MAX) inputs
             (Backlight.AlertStart count) w
    = (w', Hw.Finished (Py.Return tt)) /\
    Hw.get_backlight w' = Hw.get_backlight w /\
    Hw.log w' = Hw.log w
                ++ concat (repeat (blink BACKLIGHT_NORMAL BACKLIGHT_MAX)
                                  (Z.to_nat count))
                ++ [Hw.EBacklight (Hw.get_backlight w)] /\
    (count = 3 ->
     Hw.suspensions (Hw.log w')
     = Hw.suspensions (Hw.log w)
       ++ [Hw.Sleep 20000; Hw.Sleep 80000; Hw.Sleep 20000; Hw.Sleep 80000;
           Hw.Sleep 20000; Hw.Sleep 80000]).
Proof.
  intros Hcount Hsent Hlen.
  destruct (alert_drive BACKLIGHT_NORMAL BACKLIGHT_MAX (Z.to_nat count)
                        inputs w Hsent Hlen)
    as (w' & Hrun & Hlog & Hlevel & _).
  rewrite Z2Nat.id in Hrun by exact Hcount.
  exists w'. repeat split; try assumption.
  intros ->. rewrite Hlog, suspensions_app. reflexivity.
Qed.

Lemma alert_restores_backlight_witness :
  exists w',
    Hw.drive (Backlight.alert_resume 60 255)
             (repeat (Py.Send Hw.VNone, fun d => Hw.with_backlight 7 d) 7)
             (Backlight.AlertStart 3)
             (Hw.mkWorld (Hw.mkDisplay 40 0 0) tt [])
    = (w', Hw.Finished (Py.Return tt)) /\
    Hw.get_backlight w' = 40 /\
    Hw.log w' = [] ++ concat (repeat (blink 60 255) (Z.to_nat 3))
                   ++ [Hw.EBacklight 40] /\
    (3 = 3 ->
     Hw.suspensions (Hw.log w')
     = [] ++ [Hw.Sleep 20000; Hw.Sleep 80000; Hw.Sleep 20000; Hw.Sleep 80000;
              Hw.Sleep 20000; Hw.Sleep 80000]).
Proof.
  apply (alert_restores_backlight 60 255 3
           (repeat (Py.Send Hw.VNone, fun d => Hw.with_backlight 7 d) 7)
           (Hw.mkWorld (Hw.mkDisplay 40 0 0) tt [])).
  - lia.
  - repeat constructor; exists Hw.VNone; reflexivity.
  - reflexivity.
Defined.

Section RisingRange.

(** [range(start, stop, step)] with [start < stop] and a positive step. *)
Variables start stop step : Z.
Hypothesis below : start < stop.
Hypothesis step_pos : 0 < step.

Let n := Z.to_nat (Py.range_len start stop step).
Let levels := map (fun k => start + Z.of_nat k * step) (seq 0 n).

Lemma rising_len : Py.range_len start stop step = (stop - start - 1) / step + 1.
Proof.
  unfold Py.range_len.
  destruct (Z.ltb_spec 0 step); [|lia].
  destruct (Z.ltb_spec start stop); [reflexivity|lia].
Qed.

Lemma rising_count : (0 < n)%nat /\ Z.of_nat n = (stop - start - 1) / step + 1.
Proof.
  unfold n. rewrite rising_len.
  assert (0 <= (stop - start - 1) / step) by (apply Z.div_pos; lia).
  lia.
Qed.

Lemma rising_range : Py.range start stop step = Py.Return levels.
Proof. apply range_nonzero_step. lia. Qed.

Lemma rising_nonempty : levels <> [].
Proof.
  destruct rising_count as [Hn _]. unfold levels.
  destruct n as [|m]; [lia|discriminate].
Qed.

Lemma rising_head : hd 0 levels = start.
Proof.
  destruct rising_count as [Hn _]. unfold levels.
  destruct n as [|m]; [lia|]. cbn. lia.
Qed.

Lemma rising_below_stop : Forall (fun i => i < stop) levels.
Proof.
  destruct rising_count as [_ Hn]. apply Forall_forall. intros i Hi.
  apply in_map_iff in Hi as (k & <- & Hk). apply in_seq in Hk.
  pose proof (Z.mul_div_le (stop - start - 1) step step_pos). nia.
Qed.

Lemma rising_sorted_from (a m : nat) :
  StronglySorted Z.lt (map (fun k => start + Z.of_nat k * step) (seq a m)).
Proof.
  revert a. induction m as [|m IH]; intros a; cbn; constructor.
  - apply IH.
  - apply Forall_forall. intros i Hi.
    apply in_map_iff in Hi as (k & <- & Hk). apply in_seq in Hk. nia.
Qed.

Lemma rising_sorted : StronglySorted Z.lt levels.
Proof. apply rising_sorted_from. Qed.

Lemma rising_last : stop - step <= last levels 0 < stop.
Proof.
  destruct rising_count as [Hpos Hn]. unfold levels.
  destruct n as [|m]; [lia|].
  rewrite seq_S, map_app. cbn [map]. rewrite last_last. cbn [Nat.add].
  pose proof (Z.div_mod (stop - start - 1) step ltac:(lia)) as Hdm.
  pose proof (Z.mod_pos_bound (stop - start - 1) step step_pos) as Hmod.
  nia.
Qed.

Lemma rising_never_stop : ~ In stop levels.
Proof.
  intros Hin. pose proof rising_below_stop as Hall.
  rewrite Forall_forall in Hall. specialize (Hall _ Hin). lia.
Qed.

End RisingRange.

Section SlideFacts.

Import Py Hw Backlight.

Context {U : Type}.

Lemma slide_loop_drive (delay : Z) (levels : list Z) :
  forall inputs (w : world U),
    all_sent inputs -> length inputs = S (length levels) ->
    exists w',
      drive slide_resume inputs (SlideLoop delay levels) w
      = (w', Finished (Return tt)) /\
      log w' = log w ++ flat_map (fun i => [EBacklight i; ESuspend (Sleep delay)])
                                 levels.
Proof.
  induction levels as [|i rest IH]; intros inputs w Hsent Hlen.
  - destruct inputs as [|[m f] [|? ?]]; try discriminate Hlen.
    inversion Hsent as [|? ? [v Hv] _]; subst. cbn in Hv. subst m.
    cbn. exists w. now rewrite app_nil_r.
  - destruct inputs as [|[m f] inputs']; [discriminate Hlen|].
    inversion Hsent as [|? ? [v Hv] Hsent']; subst. cbn in Hv. subst m.
    cbn [drive slide_resume slide_loop].
    destruct (IH inputs'
                 (set_disp (f (disp (set_backlight i w)))
                           (emit (ESuspend (Sleep delay)) (set_backlight i w)))
                 Hsent') as (w' & Hrun & Hlog).
    { cbn in Hlen. lia. }
    exists w'. split; [exact Hrun|].
    rewrite Hlog. cbn. rewrite <- !app_assoc. reflexivity.
Qed.

Lemma slide_start_drive (val delay step : Z) (levels : list Z) inputs
      (w : world U) :
  range (get_backlight w) val
        (if val <? get_backlight w then - step else step) = Return levels ->
  all_sent inputs -> length inputs = S (length levels) ->
  exists w',
    drive slide_resume inputs (SlideStart val delay step) w
    = (w', Finished (Return tt)) /\
    log w' = log w ++ flat_map (fun i => [EBacklight i; ESuspend (Sleep delay)])
                               levels.
Proof.
  intros Hrange Hsent Hlen.
  destruct (slide_loop_drive delay levels inputs w Hsent Hlen)
    as (w' & Hrun & Hlog).
  exists w'. split; [|exact Hlog]. rewrite <- Hrun.
  destruct inputs as [|[m f] rest]; [discriminate Hlen|].
  inversion Hsent as [|? ? [v Hv] _]; subst. cbn in Hv. subst m.
  cbn [drive slide_resume]. rewrite Hrange. reflexivity.
Qed.

End SlideFacts.

Example slide_up_from_5_to_150 :
  Hw.drive Backlight.slide_resume
           (repeat (Py.Send Hw.VNone, fun d => d) 9)
           (Backlight.SlideStart 150 35000 20)
           (Hw.mkWorld (Hw.mkDisplay 5 0 0) tt [])
  = (Hw.mkWorld (Hw.mkDisplay 145 0 0) tt
       (flat_map (fun i => [Hw.EBacklight i; Hw.ESuspend (Hw.Sleep 35000)])
                 [5; 25; 45; 65; 85; 105; 125; 145]),
     Hw.Finished (Py.Return tt)).
Proof. reflexivity. Qed.

Example slide_down_from_150_to_5 :
  Hw.writes (Hw.log (fst (Hw.drive Backlight.slide_resume
           (repeat (Py.Send Hw.VNone, fun d => d) 9)
           (Backlight.SlideStart 5 35000 20)
           (Hw.mkWorld (Hw.mkDisplay 150 0 0) tt []))))
  = [150; 130; 110; 90; 70; 50; 30; 10].
Proof. reflexivity. Qed.

(** [C7] From a backlight level strictly below the target, and with a
    positive step, [backlight_slide] writes the levels of
    [range(current, target, step)], one before each sleep: a non-empty,
    strictly increasing sequence that starts at the current level, stays
    strictly below the target, ends less than the target by at most [step],
    and never contains the target; resumed once after each sleep the
    generator returns. *)
Theorem backlight_slide_rising
        {U : Type} (val delay step : Z) (w : Hw.world U) :
  Hw.get_backlight w < val -> 0 < step ->
  exists levels,
    levels <> [] /\
    hd 0 levels = Hw.get_backlight w /\
    StronglySorted Z.lt levels /\
    Forall (fun i => i < val) levels /\
    val - step <= last levels 0 < val /\
    ~ In val levels /\
    forall inputs,
      all_sent inputs -> length inputs = S (length levels) ->
      exists w',
        Hw.drive Backlight.slide_resume inputs
                 (Backlight.SlideStart val delay step) w
        = (w', Hw.Finished (Py.Return tt)) /\
        Hw.log w' = Hw.log w
                    ++ flat_map (fun i => [Hw.EBacklight i;
                                           Hw.ESuspend (Hw.Sleep delay)])
                                levels /\
        Hw.writes (Hw.log w') = Hw.writes (Hw.log w) ++ levels.
Proof.
  intros Hlt Hstep.
  assert (Hrange : Py.range (Hw.get_backlight w) val step
                   = Py.Return (map (fun k => Hw.get_backlight w
                                              + Z.of_nat k * step)
                                    (seq 0 (Z.to_nat (Py.range_len
                                      (Hw.get_backlight w) val step)))))
    by (apply rising_range; assumption).
  exists (map (fun k => Hw.get_backlight w + Z.of_nat k * step)
              (seq 0 (Z.to_nat (Py.range_len (Hw.get_backlight w) val step)))).
  split; [|split; [|split; [|split; [|split; [|split]]]]].
  - apply rising_nonempty; assumption.
  - apply rising_head; assumption.
  - apply rising_sorted; assumption.
  - apply rising_below_stop; assumption.
  - apply rising_last; assumption.
  - apply rising_never_stop; assumption.
  - set (levels := map _ _) in *. intros inputs Hsent Hlen.
    destruct (slide_start_drive val delay step levels inputs w)
      as (w' & Hrun & Hlog); [|exact Hsent|exact Hlen|].
    + destruct (Z.ltb_spec val (Hw.get_backlight w)); [lia|exact Hrange].
    + exists w'. split; [exact Hrun|]. split; [exact Hlog|].
      rewrite Hlog, writes_app. f_equal.
      generalize levels.
      intros l. induction l as [|i l IH]; [reflexivity|].
      cbn [flat_map]. rewrite writes_app, IH. reflexivity.
Qed.

Lemma backlight_slide_rising_witness :
  exists levels,
    levels <> [] /\
    hd 0 levels = 5 /\
    StronglySorted Z.lt levels /\
    Forall (fun i => i < 150) levels /\
    150 - 20 <= last levels 0 < 150 /\
    ~ In 150 levels /\
    forall inputs,
      all_sent inputs -> length inputs = S (length levels) ->
      exists w',
        Hw.drive Backlight.slide_resume inputs
                 (Backlight.SlideStart 150 35000 20)
                 (Hw.mkWorld (Hw.mkDisplay 5 0 0) tt [])
        = (w', Hw.Finished (Py.Return tt)) /\
        Hw.log w' = [] ++ flat_map (fun i => [Hw.EBacklight i;
                                              Hw.ESuspend (Hw.Sleep 35000)])
                                   levels /\
        Hw.writes (Hw.log w') = [] ++ levels.
Proof.
  apply (backlight_slide_rising 150 35000 20
           (Hw.mkWorld (Hw.mkDisplay 5 0 0) tt [])); cbn; lia.
Defined.

(** [C10] When the backlight already is at the target, [backlight_slide]
    and [backlight_slide_sync] write nothing and leave the display and the
    log as they were; with a non-zero step (the default is 20) both return
    at once, the suspending variant without a single suspension. *)
Theorem backlight_slide_at_target
        {U : Type} (val delay step : Z) (v : Hw.value) (w : Hw.world U) :
  Hw.get_backlight w = val ->
  fst (Backlight.slide_resume (Backlight.SlideStart val delay step)
                              (Py.Send v) w) = w /\
  fst (Backlight.backlight_slide_sync val delay step w) = w /\
  (step <> 0 ->
   Backlight.slide_resume (Backlight.SlideStart val delay step) (Py.Send v) w
   = (w, Hw.Returned tt) /\
   Backlight.backlight_slide_sync val delay step w = (w, Py.Return tt)).
Proof.
  intros Hat.
  unfold Backlight.backlight_slide_sync. cbn [Backlight.slide_resume].
  rewrite Hat, Z.ltb_irrefl.
  destruct (Z.eq_dec step 0) as [->|Hstep].
  - rewrite range_zero_step. cbn.
    split; [reflexivity|split; [reflexivity|]]. intros Hne. now elim Hne.
  - rewrite range_empty by exact Hstep. cbn.
    split; [reflexivity|split; [reflexivity|]]. intros _. split; reflexivity.
Qed.

Lemma backlight_slide_at_target_witness :
  fst (Backlight.slide_resume (Backlight.SlideStart 150 35000 20)
         (Py.Send Hw.VNone) (Hw.mkWorld (Hw.mkDisplay 150 0 0) tt [])) =
  Hw.mkWorld (Hw.mkDisplay 150 0 0) tt [] /\
  fst (Backlight.backlight_slide_sync 150 35000 20
         (Hw.mkWorld (Hw.mkDisplay 150 0 0) tt [])) =
  Hw.mkWorld (Hw.mkDisplay 150 0 0) tt [] /\
  (20 <> 0 ->
   Backlight.slide_resume (Backlight.SlideStart 150 35000 20)
     (Py.Send Hw.VNone) (Hw.mkWorld (Hw.mkDisplay 150 0 0) tt [])
   = (Hw.mkWorld (Hw.mkDisplay 150 0 0) tt [], Hw.Returned tt) /\
   Backlight.backlight_slide_sync 150 35000 20
     (Hw.mkWorld (Hw.mkDisplay 150 0 0) tt [])
   = (Hw.mkWorld (Hw.mkDisplay 150 0 0) tt [], Py.Return tt)).
Proof.
  apply (backlight_slide_at_target 150 35000 20 Hw.VNone
           (Hw.mkWorld (Hw.mkDisplay 150 0 0) tt [])).
  reflexivity.
Defined.

(** ** The Widget protocol *)

Lemma rounds_snoc (touches : list (Z * Z * Z)) (event x y : Z) :
  (flat_map round touches ++ [Hw.ERender; Hw.ESuspend Hw.WaitTouch])
    ++ [Hw.ETouch event x y]
  = flat_map round (touches ++ [(event, x, y)]).
Proof.
  rewrite flat_map_app. cbn. rewrite <- app_assoc. reflexivity.
Qed.

Lemma widget_log_touch (l : list Hw.effect) :
  widget_log l ->
  forall pre event x y post,
    l = pre ++ Hw.ETouch event x y :: post ->
    exists pre', pre = pre' ++ [Hw.ERender; Hw.ESuspend Hw.WaitTouch].
Proof.
  intros (touches & tail & -> & Htail).
  induction touches as [|[[e0 x0] y0] touches IH];
    intros pre event x y post Heq.
  - cbn in Heq.
    destruct Htail as [-> | [-> | ->]];
      destruct pre as [|a [|b [|c pre]]]; discriminate Heq.
  - cbn in Heq.
    destruct pre as [|a [|b [|c pre]]]; try discriminate Heq.
    + exists []. cbn in Heq. now inversion Heq.
    + cbn in Heq. inversion Heq as [[Ha Hb Hc Hrest]].
      destruct (IH pre event x y post Hrest) as [pre' ->].
      exists (Hw.ERender :: Hw.ESuspend Hw.WaitTouch
                :: Hw.ETouch e0 x0 y0 :: pre').
      reflexivity.
Qed.

Lemma widget_log_suspend (l : list Hw.effect) :
  widget_log l ->
  forall pre call post,
    l = pre ++ Hw.ESuspend call :: post ->
    exists pre', pre = pre' ++ [Hw.ERender].
Proof.
  intros (touches & tail & -> & Htail).
  induction touches as [|[[e0 x0] y0] touches IH];
    intros pre call post Heq.
  - cbn in Heq.
    destruct Htail as [-> | [-> | ->]];
      destruct pre as [|a [|b [|c pre]]]; try discriminate Heq.
    exists []. cbn in Heq. now inversion Heq.
  - cbn in Heq.
    destruct pre as [|a [|b [|c pre]]]; try discriminate Heq.
    + exists []. cbn in Heq. now inversion Heq.
    + cbn in Heq. inversion Heq as [[Ha Hb Hc Hrest]].
      destruct (IH pre call post Hrest) as [pre' ->].
      exists (Hw.ERender :: Hw.ESuspend Hw.WaitTouch
                :: Hw.ETouch e0 x0 y0 :: pre').
      reflexivity.
Qed.

Lemma widget_log_head (l : list Hw.effect) :
  widget_log l -> l = [] \/ exists rest, l = Hw.ERender :: rest.
Proof.
  intros ([|[[e0 x0] y0] touches] & tail & -> & Htail).
  - destruct Htail as [-> | [-> | ->]]; cbn; eauto.
  - right. cbn. eauto.
Qed.

Section WidgetFacts.

Import Py Hw WidgetProto.

Context {U R : Type}.
Variable render : U -> U * outcome unit.
Variable touch : U -> Z -> list Z -> U * outcome (option R).

Let resume := @widget_resume U R render touch.

Lemma widget_inv_log (st : widget_state) (l : list effect) :
  widget_inv st l -> widget_log l.
Proof.
  destruct st; cbn.
  - intros ->. exists [], []. auto.
  - intros [touches ->]. exists touches, [ERender; ESuspend WaitTouch]. auto.
Qed.

(** A pass through the loop head from a log of full iterations. *)
Lemma widget_loop_log (touches : list (Z * Z * Z)) (w : world U) :
  log w = flat_map round touches ->
  match @widget_loop U R render w with
  | (w', Yielded call st') =>
      call = WaitTouch /\ st' = WWaiting /\
      log w' = flat_map round touches ++ [ERender]
  | (w', _) => log w' = flat_map round touches ++ [ERender]
  end.
Proof.
  intros Hlog. unfold widget_loop.
  destruct (render (self (emit ERender w))) as [u [[]|e]]; cbn;
    rewrite Hlog; auto.
Qed.

Lemma widget_drive_log inputs :
  forall (st : widget_state) (w : world U),
    widget_inv st (log w) ->
    widget_log (log (fst (drive resume inputs st w))).
Proof.
  induction inputs as [|[m f] inputs IH]; intros st w Hinv.
  - cbn. eapply widget_inv_log, Hinv.
  - cbn [drive]. unfold resume at 1. unfold widget_resume.
    destruct m as [v|e]; [|cbn; eapply widget_inv_log, Hinv].
    destruct st; cbn in Hinv.
    + pose proof (widget_loop_log [] w Hinv) as Hloop.
      destruct (@widget_loop U R render w) as [w' [call st'|r|e]].
      * destruct Hloop as (-> & -> & Hlog). apply IH. cbn.
        exists []. rewrite Hlog. reflexivity.
      * cbn. exists [], [ERender]. auto.
      * cbn. exists [], [ERender]. auto.
    + destruct Hinv as [touches Hlog].
      destruct v as [|event x y]; [cbn; exists touches; eauto|].
      assert (Hlog1 : log (emit (ETouch event x y) w)
                      = flat_map round (touches ++ [(event, x, y)])).
      { cbn. rewrite Hlog. apply rounds_snoc. }
      destruct (touch (self (emit (ETouch event x y) w)) event [x; y])
        as [u [[r|]|e]].
      * cbn. exists (touches ++ [(event, x, y)]), [].
        rewrite app_nil_r. auto.
      * pose proof (widget_loop_log (touches ++ [(event, x, y)])
                      (set_self u (emit (ETouch event x y) w)) Hlog1) as Hloop.
        destruct (@widget_loop U R render _) as [w' [call st'|r|e]].
        -- destruct Hloop as (-> & -> & Hlog'). apply IH. cbn.
           exists (touches ++ [(event, x, y)]). rewrite Hlog'.
           rewrite <- app_assoc. reflexivity.
        -- cbn. exists (touches ++ [(event, x, y)]), [ERender]. auto.
        -- cbn. exists (touches ++ [(event, x, y)]), [ERender]. auto.
      * cbn. exists (touches ++ [(event, x, y)]), [].
        rewrite app_nil_r. auto.
Qed.

End WidgetFacts.

Example widget_two_touches :
  Hw.drive (WidgetProto.widget_resume Samples.sample_render Samples.sample_touch)
           [(Py.Send Hw.VNone, fun d => d);
            (Py.Send (Hw.VTouch 1 10 20), fun d => d);
            (Py.Send (Hw.VTouch 4 10 20), fun d => d)]
           WidgetProto.WStart
           (Hw.mkWorld (Hw.mkDisplay 0 0 0) 0%nat [])
  = (Hw.mkWorld (Hw.mkDisplay 0 0 0) 2%nat
       [Hw.ERender; Hw.ESuspend Hw.WaitTouch; Hw.ETouch 1 10 20;
        Hw.ERender; Hw.ESuspend Hw.WaitTouch; Hw.ETouch 4 10 20],
     Hw.Finished (Py.Return 7)).
Proof. reflexivity. Qed.

(** [C2] However a widget is driven from a fresh log, whatever its [render]
    and [touch] methods do: every call of [touch] comes directly after a
    suspension that itself comes directly after a call of [render] (so
    [render] has run before the first touch event reaches [touch]), every
    suspension comes directly after a call of [render], and the first thing
    the widget does is to render. *)
Theorem widget_renders_before_touch
        {U R : Type}
        (render : U -> U * Py.outcome unit)
        (touch : U -> Z -> list Z -> U * Py.outcome (option R))
        (inputs : list (Py.msg Hw.value * (Hw.display -> Hw.display)))
        (w : Hw.world U) :
  Hw.log w = [] ->
  let l := Hw.log (fst (Hw.drive (WidgetProto.widget_resume render touch)
                                 inputs WidgetProto.WStart w)) in
  (forall pre event x y post,
      l = pre ++ Hw.ETouch event x y :: post ->
      exists pre', pre = pre' ++ [Hw.ERender; Hw.ESuspend Hw.WaitTouch]) /\
  (forall pre call post,
      l = pre ++ Hw.ESuspend call :: post ->
      exists pre', pre = pre' ++ [Hw.ERender]) /\
  (l = [] \/ exists rest, l = Hw.ERender :: rest).
Proof.
  intros Hfresh l.
  assert (Hshape : widget_log l).
  { apply widget_drive_log. exact Hfresh. }
  split; [|split].
  - now apply widget_log_touch.
  - now apply widget_log_suspend.
  - now apply widget_log_head.
Qed.

Lemma widget_renders_before_touch_witness :
  let l := Hw.log (fst (Hw.drive
                          (WidgetProto.widget_resume Samples.sample_render Samples.sample_touch)
                          [(Py.Send Hw.VNone, fun d => d);
                           (Py.Send (Hw.VTouch 1 10 20), fun d => d);
                           (Py.Send (Hw.VTouch 4 10 20), fun d => d)]
                          WidgetProto.WStart
                          (Hw.mkWorld (Hw.mkDisplay 0 0 0) 0%nat []))) in
  (forall pre event x y post,
      l = pre ++ Hw.ETouch event x y :: post ->
      exists pre', pre = pre' ++ [Hw.ERender; Hw.ESuspend Hw.WaitTouch]) /\
  (forall pre call post,
      l = pre ++ Hw.ESuspend call :: post ->
      exists pre', pre = pre' ++ [Hw.ERender]) /\
  (l = [] \/ exists rest, l = Hw.ERender :: rest).
Proof.
  apply (widget_renders_before_touch Samples.sample_render Samples.sample_touch
           [(Py.Send Hw.VNone, fun d => d);
            (Py.Send (Hw.VTouch 1 10 20), fun d => d);
            (Py.Send (Hw.VTouch 4 10 20), fun d => d)]
           (Hw.mkWorld (Hw.mkDisplay 0 0 0) 0%nat [])).
  reflexivity.
Defined.

(** ** The layout decorator *)

Lemma drive_app {U S R : Type}
      (resume : S -> Py.msg Hw.value -> Hw.world U -> Hw.world U * Hw.step S R)
      (pre post : list (Py.msg Hw.value * (Hw.display -> Hw.display))) :
  forall (st : S) (w : Hw.world U),
    Hw.drive resume (pre ++ post) st w
    = match Hw.drive resume pre st w with
      | (w1, Hw.Suspended st1) => Hw.drive resume post st1 w1
      | done => done
      end.
Proof.
  induction pre as [|[m f] pre IH]; intros st w; cbn; [reflexivity|].
  destruct (resume st m w) as [w1 [call st1|r|e]]; [apply IH|reflexivity..].
Qed.

Section DecoratorFacts.

Import Py Hw Decorator.

Context {U L R : Type}.
Variable BACKLIGHT_DIM : Z.
Variable construct : world U -> world U * outcome L.
Variable layout_resume : L -> msg value -> world U -> world U * step L R.
Variables slide_id layout_id : Z.

Let inner := @inner_resume U L R BACKLIGHT_DIM construct layout_resume
                           slide_id layout_id.
Let await := @await_layout U L R layout_resume slide_id layout_id.

Lemma cleanup_log (w : world U) :
  ends_with_cleanup slide_id layout_id (log (cleanup slide_id layout_id w)).
Proof. exists (log w). cbn. now rewrite <- app_assoc. Qed.

(** Whatever ends [await layout] has run the [finally] block; a yield keeps
    the generator inside the [await]. *)
Lemma await_layout_cases (l : L) (m : msg value) (w : world U) :
  match await l m w with
  | (w', Yielded _ st') => exists l', st' = InnerAwait l'
  | (w', _) => ends_with_cleanup slide_id layout_id (log w')
  end.
Proof.
  unfold await, await_layout.
  destruct (layout_resume l m w) as [w1 [call l'|r|e]].
  - destruct m as [v|[]]; eauto using cleanup_log.
  - destruct m as [v|[]]; eauto using cleanup_log.
  - apply cleanup_log.
Qed.

Lemma await_cleanup (l : L) (m : msg value) (w w' : world U)
      (res : step inner_state R) :
  await l m w = (w', res) -> terminal res ->
  ends_with_cleanup slide_id layout_id (log w').
Proof.
  intros Heq Hterm. pose proof (await_layout_cases l m w) as Hc.
  rewrite Heq in Hc. destruct res; [contradiction|exact Hc..].
Qed.

Lemma try_cleanup (w w1 w' : world U) (l : L) (res : step inner_state R) :
  construct w = (w1, Return l) ->
  inner_try construct layout_resume slide_id layout_id w = (w', res) ->
  terminal res ->
  ends_with_cleanup slide_id layout_id (log w').
Proof.
  unfold inner_try. intros ->. apply await_cleanup.
Qed.

Lemma drive_await_cleanup inputs :
  forall (l : L) (w w' : world U) (o : outcome R),
    drive inner inputs (InnerAwait l) w = (w', Finished o) ->
    ends_with_cleanup slide_id layout_id (log w').
Proof.
  induction inputs as [|[m f] inputs IH]; intros l w w' o Hrun.
  - discriminate Hrun.
  - cbn [drive] in Hrun. unfold inner at 1 in Hrun. cbn [inner_resume] in Hrun.
    pose proof (await_layout_cases l m w) as Hc. unfold await in Hc.
    destruct (await_layout layout_resume slide_id layout_id l m w)
      as [w1 [call st1|r|e]].
    + destruct Hc as [l' ->]. eapply IH, Hrun.
    + now inversion Hrun; subst.
    + now inversion Hrun; subst.
Qed.

End DecoratorFacts.

Example layout_resolves_on_touch_end :
  Hw.drive (Decorator.inner_resume 5 Samples.sample_construct
                                   Samples.sample_layout_resume 1 2)
           [(Py.Send Hw.VNone, fun d => d);
            (Py.Send Hw.VNone, fun d => d);
            (Py.Send (Hw.VTouch 4 10 20), fun d => d)]
           Decorator.InnerStart
           (Hw.mkWorld (Hw.mkDisplay 10 0 0) tt [])
  = (Hw.mkWorld (Hw.mkDisplay 10 0 1) tt
       [Hw.EBacklight 10; Hw.ESuspend (Hw.Sleep 35000);
        Hw.ESchedule 1; Hw.EClear; Hw.ESuspend Hw.WaitTouch;
        Hw.EClose 1; Hw.EOnLayoutClose 2],
     Hw.Finished (Py.Return 42)).
Proof. reflexivity. Qed.

(** When [fn] raises, the [finally] block closes [slide] and then fails on
    the unbound local [layout]: the workflow module is not notified. *)
Example layout_construct_failure :
  Hw.drive (Decorator.inner_resume 5 Samples.failing_construct
                                   Samples.sample_layout_resume 1 2)
           [(Py.Send Hw.VNone, fun d => d)]
           Decorator.InnerStart
           (Hw.mkWorld (Hw.mkDisplay 5 0 0) tt [])
  = (Hw.mkWorld (Hw.mkDisplay 5 0 0) tt [Hw.EClose 1],
     Hw.Finished (Py.Raise Py.UnboundLocalError)).
Proof. reflexivity. Qed.

(** [C9] as stated fails: a decorated function that is closed while it
    still fades the backlight down (here after the first of three steps
    from 60 to 5) ends with [GeneratorExit] and runs no cleanup; neither
    [loop.close(slide)] nor [workflow.onlayoutclose] is called. *)
Lemma layout_closed_during_fade_skips_cleanup :
  let run := Hw.drive (Decorator.inner_resume 5 Samples.sample_construct
                                              Samples.sample_layout_resume 1 2)
                      [(Py.Send Hw.VNone, fun d => d);
                       (Py.Throw Py.GeneratorExit, fun d => d)]
                      Decorator.InnerStart
                      (Hw.mkWorld (Hw.mkDisplay 60 0 0) tt []) in
  snd run = Hw.Finished (Py.Raise Py.GeneratorExit) /\
  Hw.log (fst run) = [Hw.EBacklight 60; Hw.ESuspend (Hw.Sleep 35000)] /\
  ~ In (Hw.EClose 1) (Hw.log (fst run)) /\
  ~ In (Hw.EOnLayoutClose 2) (Hw.log (fst run)).
Proof.
  cbv zeta. split; [reflexivity|]. split; [reflexivity|].
  split; intros [H|[H|[]]]; discriminate H.
Qed.

(** [C9], amended: once the wrapped layout has been constructed, every exit
    of the decorated function (the layout returns, raises a [Result] or any
    other exception, or the task is closed or thrown into while it awaits
    the layout) has run the cleanup block: the last two calls are
    [loop.close(slide)] and [workflow.onlayoutclose(layout)].  This holds for
    an exit in the very resumption that constructs the layout, for every
    run that starts inside the [await], and for every run from the start
    that was once suspended inside the [await]. *)
Theorem layout_cleanup_after_construction
        {U L R : Type} (BACKLIGHT_DIM : Z)
        (construct : Hw.world U -> Hw.world U * Py.outcome L)
        (layout_resume : L -> Py.msg Hw.value -> Hw.world U
                         -> Hw.world U * Hw.step L R)
        (slide_id layout_id : Z) :
  let inner := Decorator.inner_resume BACKLIGHT_DIM construct layout_resume
                                      slide_id layout_id in
  (forall w w1 l w' res,
      construct w = (w1, Py.Return l) ->
      Decorator.inner_try construct layout_resume slide_id layout_id w
      = (w', res) ->
      terminal res ->
      ends_with_cleanup slide_id layout_id (Hw.log w')) /\
  (forall inputs l w w' o,
      Hw.drive inner inputs (Decorator.InnerAwait l) w = (w', Hw.Finished o) ->
      ends_with_cleanup slide_id layout_id (Hw.log w')) /\
  (forall pre post l w w1 w' o,
      Hw.drive inner pre Decorator.InnerStart w
      = (w1, Hw.Suspended (Decorator.InnerAwait l)) ->
      Hw.drive inner (pre ++ post) Decorator.InnerStart w
      = (w', Hw.Finished o) ->
      ends_with_cleanup slide_id layout_id (Hw.log w')).
Proof.
  intros inner. split; [|split].
  - intros w w1 l w' res. apply try_cleanup.
  - intros inputs l w w' o. apply drive_await_cleanup.
  - intros pre post l w w1 w' o Hpre Hrun.
    rewrite drive_app, Hpre in Hrun.
    eapply drive_await_cleanup, Hrun.
Qed.

Lemma layout_cleanup_after_construction_witness :
  ends_with_cleanup 1 2
    (Hw.log (fst (Hw.drive
                    (Decorator.inner_resume 5 Samples.sample_construct
                                            Samples.sample_layout_resume 1 2)
                    ([(Py.Send Hw.VNone, fun d => d);
                      (Py.Send Hw.VNone, fun d => d)]
                       ++ [(Py.Throw Py.GeneratorExit, fun d => d)])
                    Decorator.InnerStart
                    (Hw.mkWorld (Hw.mkDisplay 10 0 0) tt [])))).
Proof.
  destruct (layout_cleanup_after_construction
              5 Samples.sample_construct Samples.sample_layout_resume 1 2)
    as (_ & _ & Hrun).
  eapply (Hrun [(Py.Send Hw.VNone, fun d => d); (Py.Send Hw.VNone, fun d => d)]
               [(Py.Throw Py.GeneratorExit, fun d => d)] tt
               (Hw.mkWorld (Hw.mkDisplay 10 0 0) tt []));
    reflexivity.
Defined.

(** ** Control and Layout *)

Lemma renders_app (l1 l2 : list Hw.effect) :
  renders (l1 ++ l2) = (renders l1 + renders l2)%nat.
Proof. unfold renders. now rewrite filter_app, length_app. Qed.

Section LayoutFacts.

Import Py Hw LayoutRun.

Context {U : Type}.
Variables TOUCH_START TOUCH_MOVE TOUCH_END : Z.
Variable on_render : control U -> control U * outcome unit.
Variables on_touch_start on_touch_move on_touch_end
  : control U -> Z -> Z -> control U * outcome unit.
Variable BACKLIGHT_DIM : Z.
Variables slide_id layout_id : Z.

Let dispatch' := dispatch TOUCH_START TOUCH_MOVE TOUCH_END on_render
                          on_touch_start on_touch_move on_touch_end.
Let step' := sched_step TOUCH_START TOUCH_MOVE TOUCH_END on_render
                        on_touch_start on_touch_move on_touch_end
                        BACKLIGHT_DIM slide_id layout_id.
Let run' := sched_run TOUCH_START TOUCH_MOVE TOUCH_END on_render
                      on_touch_start on_touch_move on_touch_end
                      BACKLIGHT_DIM slide_id layout_id.
Let close' := close_render TOUCH_START TOUCH_MOVE TOUCH_END on_render
                           on_touch_start on_touch_move on_touch_end
                           BACKLIGHT_DIM slide_id layout_id.

(** Closing the render task dispatches nothing: it adds to the log the two
    calls of the decorator's [finally] block, or nothing at all when the
    task still fades the backlight or has not run yet. *)
Lemma close_render_log (t : children) (w : world (control U)) :
  exists part,
    log (close' t w) = log w ++ part /\
    (part = [] \/ part = [EClose slide_id; EOnLayoutClose layout_id]).
Proof.
  unfold close', close_render.
  destruct (render_task t) as [[st [|call]]|];
    try (exists []; rewrite app_nil_r; auto; fail).
  destruct st as [|s|l]; cbn.
  - exists []. rewrite app_nil_r. auto.
  - exists []. rewrite app_nil_r. auto.
  - exists [EClose slide_id; EOnLayoutClose layout_id].
    rewrite <- app_assoc. auto.
Qed.

(** Once the layout has resolved, the scheduler runs nothing of it. *)
Lemma resolved_is_final (evs : list sched_event) (w : world (control U))
      (o : outcome (option Z)) :
  run' evs (w, Resolved o) = (w, Resolved o).
Proof.
  unfold run', sched_run. induction evs as [|ev evs IH]; [reflexivity|].
  cbn [fold_left sched_step]. exact IH.
Qed.

Lemma touch_raising_result (w : world (control U)) (t : children)
      (event x y v : Z) :
  input_task t = Some (InputWait, PSys WaitTouch) ->
  snd (dispatch' event x y w) = Raise (ResultExc v) ->
  step' (Touch event x y) (w, Running t)
  = (close' t (fst (dispatch' event x y w)), Resolved (Return (Some v))).
Proof.
  intros Hinput Hraise. unfold step', sched_step. rewrite Hinput.
  cbn [input_resume]. fold dispatch'.
  destruct (dispatch' event x y w) as [w1 o]. cbn in Hraise. subst o.
  reflexivity.
Qed.

Lemma settle_render_ready
      (res : world (control U)
             * step (Decorator.inner_state (L := render_state)) unit)
      (t : children) (w : world (control U)) :
  input_ready (w, Running t) ->
  input_ready (settle_render TOUCH_START TOUCH_MOVE TOUCH_END on_render
                             on_touch_start on_touch_move on_touch_end
                             res t).
Proof.
  unfold input_ready. cbn [snd]. intros Hready.
  destruct res as [w1 [call st1|r|e]]; cbn.
  - exact Hready.
  - destruct Hready as [Hin | Hin]; rewrite Hin; cbn; auto.
  - exact I.
Qed.

Lemma input_ready_step (ev : sched_event)
      (s : world (control U) * layout_status) :
  input_ready s -> input_ready (step' ev s).
Proof.
  destruct s as [w [t|o]]; [|intros _; exact I].
  intros Hready. unfold step', sched_step.
  destruct ev as [| |event x y|f].
  - destruct (render_task t) as [[st [|[us|]]]|]; try exact Hready;
      now apply settle_render_ready with (w := w).
  - unfold input_ready in *. cbn [snd] in Hready.
    destruct Hready as [Hin | Hin]; rewrite Hin; cbn; auto.
  - unfold input_ready in *. cbn [snd] in Hready.
    destruct Hready as [Hin | Hin]; rewrite Hin; cbn; auto.
    fold dispatch'. destruct (dispatch' event x y w) as [w1 [[]|e]]; cbn; auto.
  - exact Hready.
Qed.

Lemma input_ready_run (evs : list sched_event) (w : world (control U)) :
  input_ready (run' evs (layout_start w)).
Proof.
  unfold run', sched_run.
  assert (Hstart : input_ready (layout_start w)) by (cbn; auto).
  revert Hstart. generalize (layout_start w).
  induction evs as [|ev evs IH]; intros s Hs; [exact Hs|].
  cbn [fold_left]. apply IH. now apply input_ready_step.
Qed.

End LayoutFacts.

(** A layout over the sample control, started at the dim level so that the
    fade-down has no step: the render task renders once and sleeps, the
    input task waits, a touch-start is dispatched, the render task renders
    again, then the touch-end raises [Result(42)]; the two scheduler events
    after it find nothing to run. *)
Example layout_run_to_42 :
  LayoutRun.sched_run 1 2 4 Samples.idle Samples.idle_at Samples.idle_at
                      Samples.result_42 5 1 2
                      [LayoutRun.RunRender; LayoutRun.RunInput;
                       LayoutRun.Touch 1 10 20; LayoutRun.RunRender;
                       LayoutRun.Touch 4 10 20;
                       LayoutRun.RunRender; LayoutRun.Touch 1 0 0]
                      (LayoutRun.layout_start
                         (Hw.mkWorld (Hw.mkDisplay 5 0 0)
                                     (LayoutRun.mkControl false tt) []))
  = (Hw.mkWorld (Hw.mkDisplay 5 0 1) (LayoutRun.mkControl false tt)
       [Hw.ESchedule 1; Hw.EClear; Hw.ERender; Hw.ETouch 1 10 20; Hw.ERender;
        Hw.ETouch 4 10 20; Hw.EClose 1; Hw.EOnLayoutClose 2],
     LayoutRun.Resolved (Py.Return (Some 42))).
Proof. reflexivity. Qed.

(** [C1] While the input task of a layout waits for a touch event, a touch
    event whose dispatch raises [Result(v)] resolves the layout to exactly
    [v]; the render task is closed in the same scheduler step, which adds to
    the log at most the two calls of the decorator's cleanup, and whatever
    the scheduler does afterwards changes nothing: the number of render
    dispatches stays what it was when the handler raised. *)
Theorem layout_resolves_to_result
        {U : Type} (TOUCH_START TOUCH_MOVE TOUCH_END : Z)
        (on_render : LayoutRun.control U
                     -> LayoutRun.control U * Py.outcome unit)
        (on_touch_start on_touch_move on_touch_end
         : LayoutRun.control U -> Z -> Z
           -> LayoutRun.control U * Py.outcome unit)
        (BACKLIGHT_DIM slide_id layout_id : Z)
        (w : Hw.world (LayoutRun.control U)) (t : LayoutRun.children)
        (event x y v : Z) (later : list LayoutRun.sched_event) :
  LayoutRun.input_task t
  = Some (LayoutRun.InputWait, LayoutRun.PSys Hw.WaitTouch) ->
  snd (LayoutRun.dispatch TOUCH_START TOUCH_MOVE TOUCH_END on_render
                          on_touch_start on_touch_move on_touch_end
                          event x y w)
  = Py.Raise (Py.ResultExc v) ->
  let raised := fst (LayoutRun.dispatch TOUCH_START TOUCH_MOVE TOUCH_END
                                        on_render on_touch_start on_touch_move
                                        on_touch_end event x y w) in
  let resolved := LayoutRun.sched_step TOUCH_START TOUCH_MOVE TOUCH_END
                                       on_render on_touch_start on_touch_move
                                       on_touch_end BACKLIGHT_DIM slide_id
                                       layout_id (LayoutRun.Touch event x y)
                                       (w, LayoutRun.Running t) in
  snd resolved = LayoutRun.Resolved (Py.Return (Some v)) /\
  (exists part,
      Hw.log (fst resolved) = Hw.log raised ++ part /\
      (part = [] \/
       part = [Hw.EClose slide_id; Hw.EOnLayoutClose layout_id])) /\
  LayoutRun.sched_run TOUCH_START TOUCH_MOVE TOUCH_END on_render
                      on_touch_start on_touch_move on_touch_end
                      BACKLIGHT_DIM slide_id layout_id later resolved
  = resolved /\
  renders (Hw.log (fst (LayoutRun.sched_run
                          TOUCH_START TOUCH_MOVE TOUCH_END on_render
                          on_touch_start on_touch_move on_touch_end
                          BACKLIGHT_DIM slide_id layout_id later resolved)))
  = renders (Hw.log raised).
Proof.
  intros Hinput Hraise raised resolved.
  assert (Hstep : resolved
                  = (LayoutRun.close_render
                       TOUCH_START TOUCH_MOVE TOUCH_END on_render
                       on_touch_start on_touch_move on_touch_end
                       BACKLIGHT_DIM slide_id layout_id t raised,
                     LayoutRun.Resolved (Py.Return (Some v))))
    by (apply touch_raising_result; assumption).
  destruct (close_render_log TOUCH_START TOUCH_MOVE TOUCH_END on_render
              on_touch_start on_touch_move on_touch_end
              BACKLIGHT_DIM slide_id layout_id t raised)
    as (part & Hlog & Hpart).
  rewrite Hstep, resolved_is_final. cbn [fst snd].
  split; [reflexivity|]. split; [exists part; auto|]. split; [reflexivity|].
  rewrite Hlog, renders_app.
  destruct Hpart as [-> | ->]; cbn; lia.
Qed.

Lemma layout_resolves_to_result_witness :
  let w := Hw.mkWorld (Hw.mkDisplay 5 0 1) (LayoutRun.mkControl false tt)
                      [Hw.ESchedule 1; Hw.EClear; Hw.ERender] in
  let t := LayoutRun.mkChildren
             (Some (Decorator.InnerAwait LayoutRun.RenderLoop,
                    LayoutRun.PSys (Hw.Sleep 10000)))
             (Some (LayoutRun.InputWait, LayoutRun.PSys Hw.WaitTouch)) in
  let raised := fst (LayoutRun.dispatch 1 2 4 Samples.idle Samples.idle_at
                                        Samples.idle_at Samples.result_42
                                        4 10 20 w) in
  let resolved := LayoutRun.sched_step 1 2 4 Samples.idle Samples.idle_at
                                       Samples.idle_at Samples.result_42
                                       5 1 2 (LayoutRun.Touch 4 10 20)
                                       (w, LayoutRun.Running t) in
  snd resolved = LayoutRun.Resolved (Py.Return (Some 42)) /\
  (exists part,
      Hw.log (fst resolved) = Hw.log raised ++ part /\
      (part = [] \/ part = [Hw.EClose 1; Hw.EOnLayoutClose 2])) /\
  LayoutRun.sched_run 1 2 4 Samples.idle Samples.idle_at Samples.idle_at
                      Samples.result_42 5 1 2
                      [LayoutRun.RunRender; LayoutRun.Touch 1 0 0] resolved
  = resolved /\
  renders (Hw.log (fst (LayoutRun.sched_run
                          1 2 4 Samples.idle Samples.idle_at Samples.idle_at
                          Samples.result_42 5 1 2
                          [LayoutRun.RunRender; LayoutRun.Touch 1 0 0]
                          resolved)))
  = renders (Hw.log raised).
Proof.
  apply (layout_resolves_to_result
           1 2 4 Samples.idle Samples.idle_at Samples.idle_at
           Samples.result_42 5 1 2
           (Hw.mkWorld (Hw.mkDisplay 5 0 1) (LayoutRun.mkControl false tt)
                       [Hw.ESchedule 1; Hw.EClear; Hw.ERender])
           (LayoutRun.mkChildren
              (Some (Decorator.InnerAwait LayoutRun.RenderLoop,
                     LayoutRun.PSys (Hw.Sleep 10000)))
              (Some (LayoutRun.InputWait, LayoutRun.PSys Hw.WaitTouch)))
           4 10 20 42 [LayoutRun.RunRender; LayoutRun.Touch 1 0 0]);
    reflexivity.
Defined.

(** * Further properties of the module *)

(** ** Colours: packing and unpacking *)

Lemma mask_F8_bit (k : Z) :
  Z.testbit 0xF8 k = ((3 <=? k) && (k <? 8))%bool.
Proof.
  destruct (Z.ltb_spec k 0) as [Hneg|Hpos].
  - rewrite Z.testbit_neg_r by lia.
    destruct (Z.leb_spec 3 k); [lia|reflexivity].
  - destruct (Z.ltb_spec k 8) as [Hlow|Hhigh].
    + rewrite <- (Z2Nat.id k) by lia.
      assert (Hk : (Z.to_nat k < 8)%nat) by lia.
      revert Hk. generalize (Z.to_nat k). intros j Hj.
      do 8 (destruct j as [|j]; [reflexivity|]). lia.
    + rewrite byte_bits_high by lia. now rewrite andb_false_r.
Qed.

Lemma mask_FC_bit (k : Z) :
  Z.testbit 0xFC k = ((2 <=? k) && (k <? 8))%bool.
Proof.
  destruct (Z.ltb_spec k 0) as [Hneg|Hpos].
  - rewrite Z.testbit_neg_r by lia.
    destruct (Z.leb_spec 2 k); [lia|reflexivity].
  - destruct (Z.ltb_spec k 8) as [Hlow|Hhigh].
    + rewrite <- (Z2Nat.id k) by lia.
      assert (Hk : (Z.to_nat k < 8)%nat) by lia.
      revert Hk. generalize (Z.to_nat k). intros j Hj.
      do 8 (destruct j as [|j]; [reflexivity|]). lia.
    + rewrite byte_bits_high by lia. now rewrite andb_false_r.
Qed.

(** Bit [n] of a packed colour comes from exactly one channel. *)
Lemma rgb_testbit (r g b n : Z) :
  0 <= n ->
  Z.testbit (Color.rgb r g b) n
  = (Z.testbit r (n - 8) && ((11 <=? n) && (n <? 16))
     || Z.testbit g (n - 3) && ((5 <=? n) && (n <? 11))
     || Z.testbit b (n + 3) && (n <? 5))%bool.
Proof.
  intros Hn. unfold Color.rgb.
  rewrite !Z.lor_spec, Z.shiftr_spec, !Z.shiftl_spec, !Z.land_spec by lia.
  rewrite !mask_F8_bit, mask_FC_bit.
  replace (3 <=? n - 8) with (11 <=? n) by (apply Bool.eq_true_iff_eq; rewrite !Z.leb_le; lia).
  replace (n - 8 <? 8) with (n <? 16) by (apply Bool.eq_true_iff_eq; rewrite !Z.ltb_lt; lia).
  replace (2 <=? n - 3) with (5 <=? n) by (apply Bool.eq_true_iff_eq; rewrite !Z.leb_le; lia).
  replace (n - 3 <? 8) with (n <? 11) by (apply Bool.eq_true_iff_eq; rewrite !Z.ltb_lt; lia).
  replace (3 <=? n + 3) with true by (symmetry; apply Z.leb_le; lia).
  replace (n + 3 <? 8) with (n <? 5) by (apply Bool.eq_true_iff_eq; rewrite !Z.ltb_lt; lia).
  reflexivity.
Qed.

Ltac case_leb :=
  match goal with
  | |- context [?a <=? ?b] => destruct (Z.leb_spec a b)
  end.

Ltac case_ltb :=
  match goal with
  | |- context [?a <? ?b] => destruct (Z.ltb_spec a b)
  end.

Ltac split_comparisons := repeat first [case_leb | case_ltb].




(** [X2] Unpacking what [rgb] packed, with the shifts and masks that
    [blend] uses, gives back each channel cut to the bits RGB565 keeps:
    the top 5 bits of red and blue and the top 6 bits of green. *)
Theorem rgb_unpack_roundtrip (r g b : Z) :
  Z.land (Z.shiftr (Color.rgb r g b) 8) 0xF8 = Z.land r 0xF8 /\
  Z.land (Z.shiftr (Color.rgb r g b) 3) 0xFC = Z.land g 0xFC /\
  Z.land (Z.shiftl (Color.rgb r g b) 3) 0xF8 = Z.land b 0xF8.
Proof.
  split; [|split]; apply Z.bits_inj'; intros n Hn.
  - rewrite !Z.land_spec, Z.shiftr_spec, rgb_testbit, mask_F8_bit by lia.
    replace (n + 8 - 8) with n by lia.
    split_comparisons; try lia; cbn [andb orb];
      rewrite ?andb_false_r, ?andb_true_r, ?orb_false_r; reflexivity.
  - rewrite !Z.land_spec, Z.shiftr_spec, rgb_testbit, mask_FC_bit by lia.
    replace (n + 3 - 3) with n by lia.
    split_comparisons; try lia; cbn [andb orb];
      rewrite ?andb_false_r, ?andb_true_r, ?orb_false_r; reflexivity.
  - rewrite !Z.land_spec, Z.shiftl_spec, mask_F8_bit by lia.
    destruct (Z.ltb_spec n 3) as [Hlow|Hge].
    + destruct (Z.leb_spec 3 n); [lia|]. cbn [andb]. now rewrite !andb_false_r.
    + rewrite rgb_testbit by lia.
      replace (n - 3 + 3) with n by lia.
      split_comparisons; try lia; cbn [andb orb];
        rewrite ?andb_false_r, ?andb_true_r, ?orb_false_r; reflexivity.
Qed.

Lemma lerpi_same (a : Z) (t : Q) : Color.lerpi a a t = a.
Proof.
  unfold Color.lerpi, Color.int_of, Qplus, Qmult, inject_Z.
  cbn [Qnum Qden]. rewrite Z.sub_diag, Z.mul_0_r, Z.mul_0_l, Z.add_0_r.
  rewrite Pos.mul_1_l. apply Z.quot_mul. discriminate.
Qed.

(** [X3] Blending a valid colour with itself gives that colour back, for
    every factor. *)
Theorem blend_same_colour (a : Z) (t : Q) :
  Color.valid_rgb565 a -> Color.blend a a t = a.
Proof.
  intros Ha. unfold Color.blend. rewrite !lerpi_same.
  now apply repack_id.
Qed.

Lemma blend_same_colour_witness : Color.blend 0x1234 0x1234 (3 # 7) = 0x1234.
Proof.
  apply (blend_same_colour 0x1234 (3 # 7)). unfold Color.valid_rgb565. lia.
Defined.



(** ** Geometry: hit tests, grid cells and rotations *)

(** [X5] [contains] and [in_area] are the same test, and it is inclusive on
    all four edges: an area of non-negative size contains its four corners,
    no area contains a point one pixel outside any edge, and an area of
    negative width or height contains nothing. *)
Theorem contains_is_inclusive (ax ay aw ah x y : Z) :
  Geometry.contains (ax, ay, aw, ah) (x, y)
  = Geometry.in_area (ax, ay, aw, ah) x y /\
  (0 <= aw -> 0 <= ah ->
   Geometry.contains (ax, ay, aw, ah) (ax, ay) = true /\
   Geometry.contains (ax, ay, aw, ah) (ax + aw, ay) = true /\
   Geometry.contains (ax, ay, aw, ah) (ax, ay + ah) = true /\
   Geometry.contains (ax, ay, aw, ah) (ax + aw, ay + ah) = true) /\
  Geometry.contains (ax, ay, aw, ah) (ax - 1, y) = false /\
  Geometry.contains (ax, ay, aw, ah) (ax + aw + 1, y) = false /\
  Geometry.contains (ax, ay, aw, ah) (x, ay - 1) = false /\
  Geometry.contains (ax, ay, aw, ah) (x, ay + ah + 1) = false /\
  (aw < 0 \/ ah < 0 -> Geometry.contains (ax, ay, aw, ah) (x, y) = false).
Proof.
  unfold Geometry.contains, Geometry.in_area.
  split; [reflexivity|]. split; [|split; [|split; [|split; [|split]]]].
  - intros Hw Hh. repeat split; split_comparisons; try lia; reflexivity.
  - split_comparisons; try lia; reflexivity.
  - split_comparisons; try lia; reflexivity.
  - split_comparisons; try lia; reflexivity.
  - split_comparisons; try lia; reflexivity.
  - intros Hneg. split_comparisons; try lia; reflexivity.
Qed.

Lemma contains_is_inclusive_witness :
  Geometry.contains (6, 9, 76, 44) (50, 30)
  = Geometry.in_area (6, 9, 76, 44) 50 30 /\
  (0 <= 76 -> 0 <= 44 ->
   Geometry.contains (6, 9, 76, 44) (6, 9) = true /\
   Geometry.contains (6, 9, 76, 44) (6 + 76, 9) = true /\
   Geometry.contains (6, 9, 76, 44) (6, 9 + 44) = true /\
   Geometry.contains (6, 9, 76, 44) (6 + 76, 9 + 44) = true) /\
  Geometry.contains (6, 9, 76, 44) (6 - 1, 30) = false /\
  Geometry.contains (6, 9, 76, 44) (6 + 76 + 1, 30) = false /\
  Geometry.contains (6, 9, 76, 44) (50, 9 - 1) = false /\
  Geometry.contains (6, 9, 76, 44) (50, 9 + 44 + 1) = false /\
  (76 < 0 \/ 44 < 0 -> Geometry.contains (6, 9, 76, 44) (50, 30) = false).
Proof. exact (contains_is_inclusive 6 9 76 44 50 30). Defined.

(** Moving [k] columns to the right inside one row of the grid. *)
Lemma same_row (i k n : Z) :
  0 < n -> 0 <= k -> i mod n + k < n ->
  (i + k) mod n = i mod n + k /\ (i + k) / n = i / n.
Proof.
  intros Hn Hk Hfit.
  pose proof (Z.mod_pos_bound i n Hn) as Hmod.
  pose proof (Z.div_mod i n ltac:(lia)) as Hdm.
  assert (Hsplit : i + k = n * (i / n) + (i mod n + k)) by lia.
  split.
  - symmetry. apply (Z.mod_unique (i + k) n (i / n)); [left; lia|exact Hsplit].
  - symmetry. apply (Z.div_unique (i + k) n (i / n) (i mod n + k));
      [left; lia|exact Hsplit].
Qed.

(** [X6] Two horizontally adjacent cells of a grid without spacing both
    contain, under the inclusive test [contains], every point of the edge
    they share: a touch on that column hits both cells. *)
Theorem adjacent_cells_share_edge
        (i n_x n_y start_x start_y end_x end_y py : Z) :
  0 < n_x -> 0 < n_y -> start_x <= end_x -> start_y <= end_y ->
  i mod n_x + 1 < n_x ->
  exists x y w h,
    Geometry.grid i n_x n_y start_x start_y end_x end_y 1 1 0
    = Py.Return (x, y, w, h) /\
    Geometry.grid (i + 1) n_x n_y start_x start_y end_x end_y 1 1 0
    = Py.Return (x + w, y, w, h) /\
    (y <= py <= y + h ->
     Geometry.contains (x, y, w, h) (x + w, py) = true /\
     Geometry.contains (x + w, y, w, h) (x + w, py) = true).
Proof.
  intros Hx Hy Hwide Hhigh Hfit.
  destruct (same_row i 1 n_x Hx ltac:(lia) Hfit) as [Hmod Hdiv].
  unfold Geometry.grid.
  destruct (Z.eqb_spec n_x 0) as [->|_]; [lia|].
  destruct (Z.eqb_spec n_y 0) as [->|_]; [lia|].
  rewrite Hmod, Hdiv.
  assert (Hw : 0 <= (end_x - start_x) / n_x) by (apply Z.div_pos; lia).
  set (w := (end_x - start_x) / n_x) in *.
  set (h := (end_y - start_y) / n_y) in *.
  do 4 eexists. split; [reflexivity|]. split.
  - replace ((i mod n_x + 1) * w + start_x)
      with (i mod n_x * w + start_x + (w - 0) * 1) by lia.
    reflexivity.
  - intros Hpy. unfold Geometry.contains.
    split; split_comparisons; try lia; reflexivity.
Qed.

Lemma adjacent_cells_share_edge_witness :
  exists x y w h,
    Geometry.grid 0 3 5 6 9 234 231 1 1 0 = Py.Return (x, y, w, h) /\
    Geometry.grid (0 + 1) 3 5 6 9 234 231 1 1 0 = Py.Return (x + w, y, w, h) /\
    (y <= 20 <= y + h ->
     Geometry.contains (x, y, w, h) (x + w, 20) = true /\
     Geometry.contains (x + w, y, w, h) (x + w, 20) = true).
Proof.
  apply (adjacent_cells_share_edge 0 3 5 6 9 234 231 20); cbn; lia.
Defined.



(** [X8] An index outside [0, n_x * n_y) raises nothing: [grid] returns a
    cell of a row above or below the grid, which covers no pixel of the
    rectangle that the cells with valid indices tile. *)
Theorem out_of_range_cell_is_outside
        (i n_x n_y start_x start_y end_x end_y : Z) (p : Geometry.point) :
  0 < n_x -> 0 < n_y ->
  i < 0 \/ n_x * n_y <= i ->
  (exists a, Geometry.grid i n_x n_y start_x start_y end_x end_y 1 1 0
             = Py.Return a) /\
  (Geometry.in_view start_x start_y
                    (start_x + n_x * ((end_x - start_x) / n_x))
                    (start_y + n_y * ((end_y - start_y) / n_y)) p ->
   Geometry.cell_covers i n_x n_y start_x start_y end_x end_y p = false).
Proof.
  intros Hx Hy Hout. split.
  - unfold Geometry.grid.
    destruct (Z.eqb_spec n_x 0) as [->|_]; [lia|].
    destruct (Z.eqb_spec n_y 0) as [->|_]; [lia|].
    eexists. reflexivity.
  - destruct p as [px py]. unfold Geometry.in_view. cbn [fst snd].
    intros [Hpx Hpy].
    destruct (Geometry.cell_covers i n_x n_y start_x start_y end_x end_y
                                   (px, py)) eqn:Hc; [|reflexivity].
    apply cell_covers_spec in Hc; [|lia|lia]. destruct Hc as [_ Hrow].
    assert (Hh : 0 < (end_y - start_y) / n_y) by nia.
    assert (Hi : i / n_x < 0 \/ n_y <= i / n_x).
    { destruct Hout as [Hneg|Hbig].
      - left. apply Z.div_lt_upper_bound; lia.
      - right. apply Z.div_le_lower_bound; lia. }
    nia.
Qed.

Lemma out_of_range_cell_is_outside_witness :
  (exists a, Geometry.grid 15 3 5 6 9 234 231 1 1 0 = Py.Return a) /\
  (Geometry.in_view 6 9 (6 + 3 * ((234 - 6) / 3)) (9 + 5 * ((231 - 9) / 5))
                    (100, 200) ->
   Geometry.cell_covers 15 3 5 6 9 234 231 (100, 200) = false).
Proof.
  apply (out_of_range_cell_is_outside 15 3 5 6 9 234 231 (100, 200)); lia.
Defined.

(** [X9] For a valid index and a spacing between 0 and the cell size, the
    rectangle that [grid] returns has a non-negative size and lies inside
    the view rectangle; the spacing shrinks it without moving its origin. *)
Theorem spaced_cell_inside_view
        (i n_x n_y start_x start_y end_x end_y spacing : Z) :
  0 < n_x -> 0 < n_y -> 0 <= i < n_x * n_y ->
  0 <= spacing <= (end_x - start_x) / n_x ->
  spacing <= (end_y - start_y) / n_y ->
  exists x y w h,
    Geometry.grid i n_x n_y start_x start_y end_x end_y 1 1 spacing
    = Py.Return (x, y, w, h) /\
    Geometry.grid i n_x n_y start_x start_y end_x end_y 1 1 0
    = Py.Return (x, y, w + spacing, h + spacing) /\
    0 <= w /\ 0 <= h /\
    start_x <= x /\ x + w <= end_x /\ start_y <= y /\ y + h <= end_y.
Proof.
  intros Hx Hy Hi Hsx Hsy.
  assert (Hcol : 0 <= i mod n_x < n_x) by (apply Z.mod_pos_bound; lia).
  assert (Hrow : 0 <= i / n_x < n_y).
  { split; [apply Z.div_pos; lia|apply Z.div_lt_upper_bound; lia]. }
  pose proof (Z.mul_div_le (end_x - start_x) n_x Hx) as Hwx.
  pose proof (Z.mul_div_le (end_y - start_y) n_y Hy) as Hwy.
  unfold Geometry.grid.
  destruct (Z.eqb_spec n_x 0) as [->|_]; [lia|].
  destruct (Z.eqb_spec n_y 0) as [->|_]; [lia|].
  set (w := (end_x - start_x) / n_x) in *.
  set (h := (end_y - start_y) / n_y) in *.
  do 4 eexists. split; [reflexivity|]. split.
  - replace ((w - spacing) * 1 + spacing) with ((w - 0) * 1) by lia.
    replace ((h - spacing) * 1 + spacing) with ((h - 0) * 1) by lia.
    reflexivity.
  - nia.
Qed.

Lemma spaced_cell_inside_view_witness :
  exists x y w h,
    Geometry.grid 14 3 5 6 9 234 231 1 1 4 = Py.Return (x, y, w, h) /\
    Geometry.grid 14 3 5 6 9 234 231 1 1 0
    = Py.Return (x, y, w + 4, h + 4) /\
    0 <= w /\ 0 <= h /\ 6 <= x /\ x + w <= 234 /\ 9 <= y /\ y + h <= 231.
Proof.
  apply (spaced_cell_inside_view 14 3 5 6 9 234 231 4); cbn; lia.
Defined.

(** [X10] [rotate] keeps a point of the screen on the screen: at 0 and 180
    degrees a point of [0,WIDTH] x [0,HEIGHT] stays in that rectangle, and
    at 90 and 270 degrees it lands in [0,HEIGHT] x [0,WIDTH], the rectangle
    with the sides swapped. *)
Theorem rotate_stays_on_screen
        (WIDTH HEIGHT : Z) (d : Hw.display) (x y x' y' : Z) :
  0 <= x <= WIDTH -> 0 <= y <= HEIGHT ->
  Geometry.rotate WIDTH HEIGHT d (x, y) = Py.Return (Some (x', y')) ->
  if (Hw.orientation d =? 90) || (Hw.orientation d =? 270)
  then 0 <= x' <= HEIGHT /\ 0 <= y' <= WIDTH
  else 0 <= x' <= WIDTH /\ 0 <= y' <= HEIGHT.
Proof.
  intros Hx Hy. unfold Geometry.rotate.
  destruct (Z.eqb_spec (Hw.orientation d) 0) as [E0|N0].
  - rewrite E0. cbn. intros H. inversion H; subst. lia.
  - destruct (Z.eqb_spec (Hw.orientation d) 90) as [E90|N90].
    + cbn. intros H. inversion H; subst. lia.
    + destruct (Z.eqb_spec (Hw.orientation d) 180) as [E180|N180].
      * rewrite E180. cbn. intros H. inversion H; subst. lia.
      * destruct (Z.eqb_spec (Hw.orientation d) 270) as [E270|N270].
        -- cbn. intros H. inversion H; subst. lia.
        -- discriminate.
Qed.

Lemma rotate_stays_on_screen_witness :
  if (Hw.orientation (Geometry.oriented 90) =? 90)
     || (Hw.orientation (Geometry.oriented 90) =? 270)
  then 0 <= 20 <= 320 /\ 0 <= 230 <= 240
  else 0 <= 20 <= 240 /\ 0 <= 230 <= 320.
Proof.
  apply (rotate_stays_on_screen 240 320 (Geometry.oriented 90) 10 20 20 230);
    [lia|lia|reflexivity].
Defined.

(** [X11] A quarter turn followed by the opposite quarter turn shifts the
    point by [HEIGHT - WIDTH] along one axis, and two quarter turns at 90
    degrees differ from the half turn by the same amount: on a square
    display the 90 and 270 degree maps are inverse to each other and two
    quarter turns make the half turn. *)
Theorem rotate_quarter_turns (WIDTH HEIGHT x y : Z) :
  Geometry.rotate_seq WIDTH HEIGHT [90; 270] (x, y)
  = Py.Return (Some (x + (HEIGHT - WIDTH), y)) /\
  Geometry.rotate_seq WIDTH HEIGHT [270; 90] (x, y)
  = Py.Return (Some (x, y + (WIDTH - HEIGHT))) /\
  Geometry.rotate_seq WIDTH HEIGHT [90; 90] (x, y)
  = Py.Return (Some (WIDTH - x, WIDTH - y)) /\
  Geometry.rotate_seq WIDTH HEIGHT [180] (x, y)
  = Py.Return (Some (WIDTH - x, HEIGHT - y)) /\
  (WIDTH = HEIGHT ->
   Geometry.rotate_seq WIDTH HEIGHT [90; 270] (x, y) = Py.Return (Some (x, y)) /\
   Geometry.rotate_seq WIDTH HEIGHT [270; 90] (x, y) = Py.Return (Some (x, y)) /\
   Geometry.rotate_seq WIDTH HEIGHT [90; 90] (x, y)
   = Geometry.rotate_seq WIDTH HEIGHT [180] (x, y)).
Proof.
  cbn. repeat split; try intros ->; do 2 f_equal; f_equal; lia.
Qed.

Lemma rotate_quarter_turns_witness :
  Geometry.rotate_seq 240 240 [90; 270] (10, 20) = Py.Return (Some (10, 20)) /\
  Geometry.rotate_seq 240 240 [270; 90] (10, 20) = Py.Return (Some (10, 20)) /\
  Geometry.rotate_seq 240 240 [90; 90] (10, 20)
  = Geometry.rotate_seq 240 240 [180] (10, 20).
Proof.
  destruct (rotate_quarter_turns 240 240 10 20) as (_ & _ & _ & _ & Hsquare).
  apply Hsquare. reflexivity.
Defined.

(** ** Backlight animations: the other direction and the edges *)

Section FallingRange.

(** [range(start, stop, -step)] with [stop < start] and a positive step. *)
Variables start stop step : Z.
Hypothesis above : stop < start.
Hypothesis step_pos : 0 < step.

Let n := Z.to_nat (Py.range_len start stop (- step)).
Let levels := map (fun k => start + Z.of_nat k * - step) (seq 0 n).

Lemma falling_count :
  (0 < n)%nat /\ Z.of_nat n = (start - stop - 1) / step + 1.
Proof.
  unfold n, Py.range_len.
  destruct (Z.ltb_spec 0 (- step)); [lia|].
  destruct (Z.ltb_spec stop start); [|lia].
  rewrite Z.opp_involutive.
  assert (0 <= (start - stop - 1) / step) by (apply Z.div_pos; lia).
  lia.
Qed.

Lemma falling_range : Py.range start stop (- step) = Py.Return levels.
Proof. apply range_nonzero_step. lia. Qed.

Lemma falling_nonempty : levels <> [].
Proof.
  destruct falling_count as [Hn _]. unfold levels.
  destruct n as [|m]; [lia|discriminate].
Qed.

Lemma falling_head : hd 0 levels = start.
Proof.
  destruct falling_count as [Hn _]. unfold levels.
  destruct n as [|m]; [lia|]. cbn. lia.
Qed.

Lemma falling_above_stop : Forall (fun i => stop < i) levels.
Proof.
  destruct falling_count as [_ Hn]. apply Forall_forall. intros i Hi.
  apply in_map_iff in Hi as (k & <- & Hk). apply in_seq in Hk.
  pose proof (Z.mul_div_le (start - stop - 1) step step_pos). nia.
Qed.

Lemma falling_sorted_from (a m : nat) :
  StronglySorted Z.gt (map (fun k => start + Z.of_nat k * - step) (seq a m)).
Proof.
  revert a. induction m as [|m IH]; intros a; cbn; constructor.
  - apply IH.
  - apply Forall_forall. intros i Hi.
    apply in_map_iff in Hi as (k & <- & Hk). apply in_seq in Hk. nia.
Qed.

Lemma falling_sorted : StronglySorted Z.gt levels.
Proof. apply falling_sorted_from. Qed.

Lemma falling_last : stop < last levels 0 <= stop + step.
Proof.
  destruct falling_count as [Hpos Hn]. unfold levels.
  destruct n as [|m]; [lia|].
  rewrite seq_S, map_app. cbn [map]. rewrite last_last. cbn [Nat.add].
  pose proof (Z.div_mod (start - stop - 1) step ltac:(lia)) as Hdm.
  pose proof (Z.mod_pos_bound (start - stop - 1) step step_pos) as Hmod.
  nia.
Qed.

End FallingRange.

Lemma writes_of_steps (delay : Z) (levels : list Z) :
  Hw.writes (flat_map (fun i => [Hw.EBacklight i; Hw.ESuspend (Hw.Sleep delay)])
                      levels) = levels.
Proof.
  induction levels as [|i l IH]; [reflexivity|].
  cbn [flat_map]. rewrite writes_app, IH. reflexivity.
Qed.

(** [X12] From a backlight level strictly above the target, and with a
    positive step, [backlight_slide] writes a non-empty, strictly
    decreasing sequence that starts at the current level, stays strictly
    above the target and ends at most [step] above it; resumed once after
    each sleep the generator returns, and the target itself is never
    written. *)
Theorem backlight_slide_falling
        {U : Type} (val delay step : Z) (w : Hw.world U) :
  val < Hw.get_backlight w -> 0 < step ->
  exists levels,
    levels <> [] /\
    hd 0 levels = Hw.get_backlight w /\
    StronglySorted Z.gt levels /\
    Forall (fun i => val < i) levels /\
    val < last levels 0 <= val + step /\
    forall inputs,
      all_sent inputs -> length inputs = S (length levels) ->
      exists w',
        Hw.drive Backlight.slide_resume inputs
                 (Backlight.SlideStart val delay step) w
        = (w', Hw.Finished (Py.Return tt)) /\
        Hw.writes (Hw.log w') = Hw.writes (Hw.log w) ++ levels.
Proof.
  intros Hgt Hstep.
  set (levels := map (fun k => Hw.get_backlight w + Z.of_nat k * - step)
                     (seq 0 (Z.to_nat (Py.range_len (Hw.get_backlight w)
                                                    val (- step))))).
  assert (Hrange : Py.range (Hw.get_backlight w) val (- step)
                   = Py.Return levels) by (apply falling_range; assumption).
  exists levels. split; [|split; [|split; [|split; [|split]]]].
  - apply falling_nonempty; assumption.
  - apply falling_head; assumption.
  - apply falling_sorted; assumption.
  - apply falling_above_stop; assumption.
  - apply falling_last; assumption.
  - intros inputs Hsent Hlen.
    destruct (slide_start_drive val delay step levels inputs w)
      as (w' & Hrun & Hlog); [|exact Hsent|exact Hlen|].
    + destruct (Z.ltb_spec val (Hw.get_backlight w)); [exact Hrange|lia].
    + exists w'. split; [exact Hrun|].
      now rewrite Hlog, writes_app, writes_of_steps.
Qed.

Lemma backlight_slide_falling_witness :
  exists levels,
    levels <> [] /\
    hd 0 levels = 150 /\
    StronglySorted Z.gt levels /\
    Forall (fun i => 5 < i) levels /\
    5 < last levels 0 <= 5 + 20 /\
    forall inputs,
      all_sent inputs -> length inputs = S (length levels) ->
      exists w',
        Hw.drive Backlight.slide_resume inputs
                 (Backlight.SlideStart 5 35000 20)
                 (Hw.mkWorld (Hw.mkDisplay 150 0 0) tt [])
        = (w', Hw.Finished (Py.Return tt)) /\
        Hw.writes (Hw.log w') = [] ++ levels.
Proof.
  apply (backlight_slide_falling 5 35000 20
           (Hw.mkWorld (Hw.mkDisplay 150 0 0) tt [])); cbn; lia.
Defined.

Lemma slide_sync_loop_log {U : Type} (delay : Z) (levels : list Z) :
  forall w : Hw.world U,
    Hw.log (Backlight.slide_sync_loop delay levels w)
    = Hw.log w ++ flat_map (fun i => [Hw.EBacklight i; Hw.ESleepUs delay])
                           levels.
Proof.
  induction levels as [|i l IH]; intros w; cbn [Backlight.slide_sync_loop].
  - cbn. now rewrite app_nil_r.
  - rewrite IH. cbn. rewrite <- !app_assoc. reflexivity.
Qed.

Lemma writes_of_sync_steps (delay : Z) (levels : list Z) :
  Hw.writes (flat_map (fun i => [Hw.EBacklight i; Hw.ESleepUs delay]) levels)
  = levels /\
  Hw.suspensions (flat_map (fun i => [Hw.EBacklight i; Hw.ESleepUs delay])
                           levels) = [].
Proof.
  induction levels as [|i l [IHw IHs]]; [split; reflexivity|].
  cbn [flat_map]. rewrite writes_app, suspensions_app, IHw, IHs.
  split; reflexivity.
Qed.

(** [X13] For a non-zero step the blocking [backlight_slide_sync] returns
    without raising and without suspending, and writes exactly the levels
    that the suspending [backlight_slide] writes when it is resumed to its
    end from the same state; both sleep [delay] after every write. *)
Theorem slide_sync_matches_async
        {U : Type} (val delay step : Z) (w : Hw.world U) :
  step <> 0 ->
  exists levels ws,
    Backlight.backlight_slide_sync val delay step w = (ws, Py.Return tt) /\
    Hw.log ws = Hw.log w
                ++ flat_map (fun i => [Hw.EBacklight i; Hw.ESleepUs delay])
                            levels /\
    Hw.suspensions (Hw.log ws) = Hw.suspensions (Hw.log w) /\
    forall inputs,
      all_sent inputs -> length inputs = S (length levels) ->
      exists wa,
        Hw.drive Backlight.slide_resume inputs
                 (Backlight.SlideStart val delay step) w
        = (wa, Hw.Finished (Py.Return tt)) /\
        Hw.log wa = Hw.log w
                    ++ flat_map (fun i => [Hw.EBacklight i;
                                           Hw.ESuspend (Hw.Sleep delay)])
                                levels /\
        Hw.writes (Hw.log wa) = Hw.writes (Hw.log ws).
Proof.
  intros Hstep.
  set (signed := if val <? Hw.get_backlight w then - step else step).
  assert (Hsigned : signed <> 0) by (unfold signed; destruct (val <? _); lia).
  pose proof (range_nonzero_step (Hw.get_backlight w) val signed Hsigned)
    as Hrange.
  set (levels := map _ _) in Hrange.
  exists levels, (Backlight.slide_sync_loop delay levels w).
  split; [|split; [|split]].
  - unfold Backlight.backlight_slide_sync. fold signed. now rewrite Hrange.
  - apply slide_sync_loop_log.
  - rewrite slide_sync_loop_log, suspensions_app.
    destruct (writes_of_sync_steps delay levels) as [_ ->].
    now rewrite app_nil_r.
  - intros inputs Hsent Hlen.
    destruct (slide_start_drive val delay step levels inputs w Hrange Hsent Hlen)
      as (wa & Hrun & Hlog).
    exists wa. split; [exact Hrun|]. split; [exact Hlog|].
    rewrite Hlog, slide_sync_loop_log, !writes_app, writes_of_steps.
    destruct (writes_of_sync_steps delay levels) as [-> _]. reflexivity.
Qed.

Lemma slide_sync_matches_async_witness :
  exists levels ws,
    Backlight.backlight_slide_sync 5 35000 20
      (Hw.mkWorld (Hw.mkDisplay 150 0 0) tt []) = (ws, Py.Return tt) /\
    Hw.log ws = [] ++ flat_map (fun i => [Hw.EBacklight i; Hw.ESleepUs 35000])
                               levels /\
    Hw.suspensions (Hw.log ws) = Hw.suspensions [] /\
    forall inputs,
      all_sent inputs -> length inputs = S (length levels) ->
      exists wa,
        Hw.drive Backlight.slide_resume inputs
                 (Backlight.SlideStart 5 35000 20)
                 (Hw.mkWorld (Hw.mkDisplay 150 0 0) tt [])
        = (wa, Hw.Finished (Py.Return tt)) /\
        Hw.log wa = [] ++ flat_map (fun i => [Hw.EBacklight i;
                                              Hw.ESuspend (Hw.Sleep 35000)])
                                   levels /\
        Hw.writes (Hw.log wa) = Hw.writes (Hw.log ws).
Proof.
  apply (slide_sync_matches_async 5 35000 20
           (Hw.mkWorld (Hw.mkDisplay 150 0 0) tt [])). lia.
Defined.

(** [X14] With a step that is not positive the slide never touches the
    backlight, whatever the current level and the target: a negative step
    makes both variants return at once, a zero step makes both raise
    [ValueError]; display and log stay as they were. *)
Theorem slide_needs_positive_step
        {U : Type} (val delay step : Z) (v : Hw.value) (w : Hw.world U) :
  step <= 0 ->
  Backlight.slide_resume (Backlight.SlideStart val delay step) (Py.Send v) w
  = (w, if step =? 0 then Hw.Raised Py.ValueError else Hw.Returned tt) /\
  Backlight.backlight_slide_sync val delay step w
  = (w, if step =? 0 then Py.Raise Py.ValueError else Py.Return tt).
Proof.
  intros Hstep.
  unfold Backlight.backlight_slide_sync. cbn [Backlight.slide_resume].
  destruct (Z.eqb_spec step 0) as [->|Hne].
  - destruct (val <? Hw.get_backlight w); cbn; split; reflexivity.
  - assert (Hempty : Py.range (Hw.get_backlight w) val
                       (if val <? Hw.get_backlight w then - step else step)
                     = Py.Return []).
    { destruct (Z.ltb_spec val (Hw.get_backlight w)) as [Hlt|Hge].
      - rewrite range_nonzero_step by lia. unfold Py.range_len.
        destruct (Z.ltb_spec 0 (- step)); [|lia].
        destruct (Z.ltb_spec (Hw.get_backlight w) val); [lia|reflexivity].
      - rewrite range_nonzero_step by lia. unfold Py.range_len.
        destruct (Z.ltb_spec 0 step); [lia|].
        destruct (Z.ltb_spec val (Hw.get_backlight w)); [lia|reflexivity]. }
    rewrite Hempty. cbn. split; reflexivity.
Qed.

Lemma slide_needs_positive_step_witness :
  Backlight.slide_resume (Backlight.SlideStart 150 35000 (-20))
    (Py.Send Hw.VNone) (Hw.mkWorld (Hw.mkDisplay 5 0 0) tt [])
  = (Hw.mkWorld (Hw.mkDisplay 5 0 0) tt [],
     if -20 =? 0 then Hw.Raised Py.ValueError else Hw.Returned tt) /\
  Backlight.backlight_slide_sync 150 35000 (-20)
    (Hw.mkWorld (Hw.mkDisplay 5 0 0) tt [])
  = (Hw.mkWorld (Hw.mkDisplay 5 0 0) tt [],
     if -20 =? 0 then Py.Raise Py.ValueError else Py.Return tt).
Proof.
  apply (slide_needs_positive_step 150 35000 (-20) Hw.VNone
           (Hw.mkWorld (Hw.mkDisplay 5 0 0) tt [])). lia.
Defined.

(** [X15] [alert] with a count of zero or less does not blink: its first
    resumption writes the level it has just read back to the backlight and
    returns, without any suspension; the display is left as it was. *)
Theorem alert_without_blinks
        {U : Type} (BACKLIGHT_NORMAL BACKLIGHT_MAX count : Z)
        (v : Hw.value) (w : Hw.world U) :
  count <= 0 ->
  Backlight.alert_resume BACKLIGHT_NORMAL BACKLIGHT_MAX
                         (Backlight.AlertStart count) (Py.Send v) w
  = (Hw.set_backlight (Hw.get_backlight w) w, Hw.Returned tt) /\
  Hw.disp (Hw.set_backlight (Hw.get_backlight w) w) = Hw.disp w /\
  Hw.log (Hw.set_backlight (Hw.get_backlight w) w)
  = Hw.log w ++ [Hw.EBacklight (Hw.get_backlight w)].
Proof.
  intros Hcount. cbn [Backlight.alert_resume].
  rewrite range_nonzero_step by lia.
  assert (Hlen : Py.range_len 0 (count * 2) 1 = 0).
  { unfold Py.range_len. change (0 <? 1) with true. cbv iota.
    destruct (Z.ltb_spec 0 (count * 2)); [lia|reflexivity]. }
  rewrite Hlen. cbn. split; [reflexivity|]. split; [|reflexivity].
  destruct w as [[level turn clears] u l]. reflexivity.
Qed.

Lemma alert_without_blinks_witness :
  Backlight.alert_resume 60 255 (Backlight.AlertStart 0) (Py.Send Hw.VNone)
                         (Hw.mkWorld (Hw.mkDisplay 40 0 0) tt [])
  = (Hw.set_backlight 40 (Hw.mkWorld (Hw.mkDisplay 40 0 0) tt []),
     Hw.Returned tt) /\
  Hw.disp (Hw.set_backlight 40 (Hw.mkWorld (Hw.mkDisplay 40 0 0) tt []))
  = Hw.mkDisplay 40 0 0 /\
  Hw.log (Hw.set_backlight 40 (Hw.mkWorld (Hw.mkDisplay 40 0 0) tt []))
  = [] ++ [Hw.EBacklight 40].
Proof.
  apply (alert_without_blinks 60 255 0 Hw.VNone
           (Hw.mkWorld (Hw.mkDisplay 40 0 0) tt [])). lia.
Defined.

Section AlertInterrupted.

Import Py Hw Backlight.

Context {U : Type}.
Variables NORMAL MAX : Z.

Lemma alert_loop_thrown (e : exn) (f : display -> display) (cur : Z) sends :
  forall (rest : list Z) (w : world U),
    all_sent sends -> (length sends <= length rest)%nat ->
    exists w' levels,
      drive (alert_resume NORMAL MAX) (sends ++ [(Throw e, f)])
            (AlertLoop cur rest) w
      = (w', Finished (Raise e)) /\
      writes (log w') = writes (log w) ++ levels /\
      length levels = length sends /\
      Forall (fun v => v = MAX \/ v = NORMAL) levels.
Proof.
  induction sends as [|[m g] sends IH]; intros rest w Hsent Hlen.
  - exists w, []. cbn. rewrite app_nil_r. auto.
  - inversion Hsent as [|? ? [v Hv] Hsent']; subst. cbn in Hv. subst m.
    destruct rest as [|i rest]; [cbn in Hlen; lia|].
    cbn [app drive alert_resume alert_loop].
    destruct (i mod 2 =? 0).
    + destruct (IH rest
                   (set_disp (g (disp (set_backlight MAX w)))
                             (emit (ESuspend (Sleep 20000))
                                   (set_backlight MAX w))) Hsent')
        as (w' & levels & Hrun & Hw & Hn & Hall); [cbn in Hlen; lia|].
      exists w', (MAX :: levels). split; [exact Hrun|].
      split; [|split; [cbn; lia|constructor; auto]].
      rewrite Hw. cbn. rewrite !writes_app. cbn. now rewrite <- !app_assoc.
    + destruct (IH rest
                   (set_disp (g (disp (set_backlight NORMAL w)))
                             (emit (ESuspend (Sleep 80000))
                                   (set_backlight NORMAL w))) Hsent')
        as (w' & levels & Hrun & Hw & Hn & Hall); [cbn in Hlen; lia|].
      exists w', (NORMAL :: levels). split; [exact Hrun|].
      split; [|split; [cbn; lia|constructor; auto]].
      rewrite Hw. cbn. rewrite !writes_app. cbn. now rewrite <- !app_assoc.
Qed.

End AlertInterrupted.

(** [X16] [alert] has no cleanup: when an exception is thrown into it (or
    it is closed) before it has finished, after any number of resumptions
    up to its [2 * count] sleeps, it ends with that exception and has
    written only the maximum and the normal level, one per resumption; the
    level read at entry is not written back. *)
Theorem alert_interrupted_does_not_restore
        {U : Type} (BACKLIGHT_NORMAL BACKLIGHT_MAX count : Z) (e : Py.exn)
        (f : Hw.display -> Hw.display)
        (sends : list (Py.msg Hw.value * (Hw.display -> Hw.display)))
        (w : Hw.world U) :
  all_sent sends -> (length sends <= 2 * Z.to_nat count)%nat ->
  exists w' levels,
    Hw.drive (Backlight.alert_resume BACKLIGHT_NORMAL BACKLIGHT_MAX)
             (sends ++ [(Py.Throw e, f)]) (Backlight.AlertStart count) w
    = (w', Hw.Finished (Py.Raise e)) /\
    Hw.writes (Hw.log w') = Hw.writes (Hw.log w) ++ levels /\
    length levels = length sends /\
    Forall (fun v => v = BACKLIGHT_MAX \/ v = BACKLIGHT_NORMAL) levels.
Proof.
  intros Hsent Hlen.
  destruct sends as [|[m g] sends'] eqn:Hsends.
  - exists w, []. cbn. rewrite app_nil_r. auto.
  - rewrite <- Hsends in *.
    assert (Hcount : 0 < count) by (subst sends; cbn in Hlen; lia).
    destruct (alert_loop_thrown BACKLIGHT_NORMAL BACKLIGHT_MAX e f
                (Hw.get_backlight w) sends
                (map (fun k => 0 + Z.of_nat k * 1)
                     (seq 0 (Z.to_nat (Py.range_len 0 (count * 2) 1))))
                w Hsent)
      as (w' & levels & Hrun & Hrest).
    { rewrite length_map, length_seq. unfold Py.range_len.
      change (0 <? 1) with true. cbv iota.
      destruct (Z.ltb_spec 0 (count * 2)); [|lia].
      rewrite Z.div_1_r. lia. }
    exists w', levels. split; [|exact Hrest].
    rewrite <- Hrun. subst sends.
    inversion Hsent as [|? ? [v Hv] _]; subst. cbn in Hv. subst m.
    cbn [app Hw.drive Backlight.alert_resume].
    rewrite range_nonzero_step by lia. reflexivity.
Qed.

Lemma alert_interrupted_does_not_restore_witness :
  exists w' levels,
    Hw.drive (Backlight.alert_resume 60 255)
             ([(Py.Send Hw.VNone, fun d => d); (Py.Send Hw.VNone, fun d => d);
               (Py.Send Hw.VNone, fun d => d)]
                ++ [(Py.Throw Py.GeneratorExit, fun d => d)])
             (Backlight.AlertStart 3)
             (Hw.mkWorld (Hw.mkDisplay 40 0 0) tt [])
    = (w', Hw.Finished (Py.Raise Py.GeneratorExit)) /\
    Hw.writes (Hw.log w') = Hw.writes [] ++ levels /\
    length levels = 3%nat /\
    Forall (fun v => v = 255 \/ v = 60) levels.
Proof.
  apply (alert_interrupted_does_not_restore 60 255 3 Py.GeneratorExit
           (fun d => d)
           [(Py.Send Hw.VNone, fun d => d); (Py.Send Hw.VNone, fun d => d);
            (Py.Send Hw.VNone, fun d => d)]
           (Hw.mkWorld (Hw.mkDisplay 40 0 0) tt [])).
  - repeat constructor; exists Hw.VNone; reflexivity.
  - cbn. lia.
Defined.

(** ** [click] *)

Section ClickFacts.

Import Py Hw ClickGen.

Context {U : Type}.
Variables TOUCH_START TOUCH_END : Z.

Let resume := @click_resume U TOUCH_START TOUCH_END.

(** The second loop: the result is the position of the first touch-end. *)
Lemma click_up_phase (pos : list Z) (ts : list (Z * Z * Z)) :
  forall w : world U,
    snd (drive resume (touch_inputs ts) ClickUp w) = Finished (Return pos) <->
    exists mid x y post,
      ts = mid ++ (TOUCH_END, x, y) :: post /\
      Forall (fun t => fst (fst t) <> TOUCH_END) mid /\
      pos = [x; y].
Proof.
  induction ts as [|[[ev x0] y0] ts IH]; intros w.
  - cbn. split; [discriminate|].
    intros (mid & x & y & post & Heq & _). destruct mid; discriminate Heq.
  - cbn [touch_inputs map drive]. unfold resume at 1. cbn [click_resume].
    destruct (Z.eqb_spec ev TOUCH_END) as [->|Hne].
    + cbn [snd]. split.
      * intros H. inversion H; subst. exists [], x0, y0, ts. auto.
      * intros (mid & x & y & post & Heq & Hmid & ->).
        destruct mid as [|t mid].
        -- cbn in Heq. now inversion Heq.
        -- cbn in Heq. inversion Heq; subst. inversion Hmid; subst.
           cbn in *. congruence.
    + fold (touch_inputs ts). rewrite IH. split.
      * intros (mid & x & y & post & -> & Hmid & ->).
        exists ((ev, x0, y0) :: mid), x, y, post. repeat split.
        constructor; [exact Hne|exact Hmid].
      * intros (mid & x & y & post & Heq & Hmid & ->).
        destruct mid as [|t mid].
        -- cbn in Heq. inversion Heq; subst. contradiction.
        -- cbn in Heq. inversion Heq; subst. inversion Hmid; subst.
           exists mid, x, y, post. auto.
Qed.

(** The first loop: everything before the first touch-start is skipped. *)
Lemma click_down_phase (pos : list Z) (ts : list (Z * Z * Z)) :
  forall w : world U,
    snd (drive resume (touch_inputs ts) ClickDown w) = Finished (Return pos) <->
    exists pre xs ys mid x y post,
      ts = pre ++ (TOUCH_START, xs, ys) :: mid ++ (TOUCH_END, x, y) :: post /\
      Forall (fun t => fst (fst t) <> TOUCH_START) pre /\
      Forall (fun t => fst (fst t) <> TOUCH_END) mid /\
      pos = [x; y].
Proof.
  induction ts as [|[[ev x0] y0] ts IH]; intros w.
  - cbn. split; [discriminate|].
    intros (pre & xs & ys & mid & x & y & post & Heq & _).
    destruct pre; discriminate Heq.
  - cbn [touch_inputs map drive]. unfold resume at 1. cbn [click_resume].
    destruct (Z.eqb_spec ev TOUCH_START) as [->|Hne];
      fold (touch_inputs ts).
    + rewrite click_up_phase. split.
      * intros (mid & x & y & post & -> & Hmid & ->).
        exists [], x0, y0, mid, x, y, post. auto.
      * intros (pre & xs & ys & mid & x & y & post & Heq & Hpre & Hmid & ->).
        destruct pre as [|t pre].
        -- cbn in Heq. inversion Heq; subst. exists mid, x, y, post. auto.
        -- cbn in Heq. inversion Heq; subst. inversion Hpre; subst.
           cbn in *. congruence.
    + rewrite IH. split.
      * intros (pre & xs & ys & mid & x & y & post & -> & Hpre & Hmid & ->).
        exists ((ev, x0, y0) :: pre), xs, ys, mid, x, y, post.
        repeat split; [constructor; [exact Hne|exact Hpre]|exact Hmid].
      * intros (pre & xs & ys & mid & x & y & post & Heq & Hpre & Hmid & ->).
        destruct pre as [|t pre].
        -- cbn in Heq. inversion Heq; subst. contradiction.
        -- cbn in Heq. inversion Heq; subst. inversion Hpre; subst.
           exists pre, xs, ys, mid, x, y, post. auto.
Qed.

Lemma suspend_keeps (call : syscall) (w : world U) :
  let w1 := set_disp (disp w) (emit (ESuspend call) w) in
  disp w1 = disp w /\ self w1 = self w /\ writes (log w1) = writes (log w).
Proof.
  cbn. rewrite writes_app. cbn. now rewrite app_nil_r.
Qed.

(** [click] only waits: it leaves the display alone and logs nothing but
    its suspensions. *)
Lemma click_only_waits (ts : list (Z * Z * Z)) :
  forall (st : click_state) (w : world U),
    disp (fst (drive resume (touch_inputs ts) st w)) = disp w /\
    self (fst (drive resume (touch_inputs ts) st w)) = self w /\
    writes (log (fst (drive resume (touch_inputs ts) st w))) = writes (log w).
Proof.
  induction ts as [|[[ev x0] y0] ts IH]; intros st w; [cbn; auto|].
  assert (Hnext : forall st',
             disp (fst (drive resume (touch_inputs ts) st'
                          (set_disp (disp w) (emit (ESuspend WaitTouch) w))))
             = disp w /\
             self (fst (drive resume (touch_inputs ts) st'
                          (set_disp (disp w) (emit (ESuspend WaitTouch) w))))
             = self w /\
             writes (log (fst (drive resume (touch_inputs ts) st'
                          (set_disp (disp w) (emit (ESuspend WaitTouch) w)))))
             = writes (log w)).
  { intros st'.
    destruct (IH st' (set_disp (disp w) (emit (ESuspend WaitTouch) w)))
      as (Hd & Hs & Hw).
    destruct (suspend_keeps WaitTouch w) as (Hd1 & Hs1 & Hw1).
    rewrite Hd, Hs, Hw. auto. }
  destruct st; cbn [touch_inputs map drive]; unfold resume;
    cbn [click_resume]; fold (touch_inputs ts).
  - exact (Hnext _).
  - destruct (ev =? TOUCH_START); exact (Hnext _).
  - destruct (ev =? TOUCH_END); [cbn; auto|exact (Hnext _)].
Qed.

Lemma click_never_raises (ts : list (Z * Z * Z)) :
  forall (st : click_state) (w : world U) (e : exn),
    snd (drive resume (touch_inputs ts) st w) <> Finished (Raise e).
Proof.
  induction ts as [|[[ev x0] y0] ts IH]; intros st w e; [discriminate|].
  destruct st; cbn [touch_inputs map drive]; unfold resume;
    cbn [click_resume]; fold (touch_inputs ts).
  - apply IH.
  - destruct (ev =? TOUCH_START); apply IH.
  - destruct (ev =? TOUCH_END); [discriminate|apply IH].
Qed.

End ClickFacts.

Example click_sample :
  Hw.drive (ClickGen.click_resume 1 4)
           ((Py.Send Hw.VNone, fun d => d)
              :: touch_inputs [(4, 1, 1); (2, 5, 5); (1, 10, 20); (2, 11, 21);
                               (4, 12, 22); (4, 90, 90)])
           ClickGen.ClickStart
           (Hw.mkWorld (Hw.mkDisplay 60 0 0) tt [])
  = (Hw.mkWorld (Hw.mkDisplay 60 0 0) tt
       (repeat (Hw.ESuspend Hw.WaitTouch) 5),
     Hw.Finished (Py.Return [12; 22])).
Proof. reflexivity. Qed.

(** [X17] Started and then fed the touch events [ts], [click] returns a
    position exactly when [ts] holds a touch-start followed later by a
    touch-end, and the position is that of the first touch-end after the
    first touch-start; events before that touch-start, touch-ends included,
    and events between the two are skipped. *)
Theorem click_returns_first_release
        {U : Type} (TOUCH_START TOUCH_END : Z)
        (f : Hw.display -> Hw.display) (ts : list (Z * Z * Z))
        (pos : list Z) (w : Hw.world U) :
  snd (Hw.drive (ClickGen.click_resume TOUCH_START TOUCH_END)
                ((Py.Send Hw.VNone, f) :: touch_inputs ts)
                ClickGen.ClickStart w)
  = Hw.Finished (Py.Return pos) <->
  exists pre xs ys mid x y post,
    ts = pre ++ (TOUCH_START, xs, ys) :: mid ++ (TOUCH_END, x, y) :: post /\
    Forall (fun t => fst (fst t) <> TOUCH_START) pre /\
    Forall (fun t => fst (fst t) <> TOUCH_END) mid /\
    pos = [x; y].
Proof.
  cbn [Hw.drive ClickGen.click_resume]. apply click_down_phase.
Qed.

(** [X18] Fed touch events, [click] never raises, never writes to the
    display and leaves the display as it was: it only suspends, waiting for
    the next touch event. *)
Theorem click_only_waits_for_touch
        {U : Type} (TOUCH_START TOUCH_END : Z) (ts : list (Z * Z * Z))
        (w : Hw.world U) :
  let run := Hw.drive (ClickGen.click_resume TOUCH_START TOUCH_END)
                      ((Py.Send Hw.VNone, fun d => d) :: touch_inputs ts)
                      ClickGen.ClickStart w in
  (forall e, snd run <> Hw.Finished (Py.Raise e)) /\
  Hw.disp (fst run) = Hw.disp w /\
  Hw.writes (Hw.log (fst run)) = Hw.writes (Hw.log w).
Proof.
  cbn [Hw.drive ClickGen.click_resume]. split; [|split].
  - intros e. apply click_never_raises.
  - destruct (click_only_waits TOUCH_START TOUCH_END ts ClickGen.ClickDown
                (Hw.set_disp (Hw.disp w) (Hw.emit (Hw.ESuspend Hw.WaitTouch) w)))
      as (Hd & _ & _).
    exact Hd.
  - destruct (click_only_waits TOUCH_START TOUCH_END ts ClickGen.ClickDown
                (Hw.set_disp (Hw.disp w) (Hw.emit (Hw.ESuspend Hw.WaitTouch) w)))
      as (_ & _ & Hw).
    rewrite Hw. cbn. rewrite writes_app. cbn. now rewrite app_nil_r.
Qed.

(** ** The decorator without fade *)

Section BareFacts.

Import Py Hw Bare.

Context {U L R : Type}.
Variable construct : world U -> world U * outcome L.
Variable layout_resume : L -> msg value -> world U -> world U * step L R.
Variables onlayoutstart onlayoutclose : world U -> world U.

Let bare := @bare_resume U L R construct layout_resume
                         onlayoutstart onlayoutclose.

Lemma await_bare_cases (l : L) (m : msg value) (w : world U) :
  match await_bare layout_resume onlayoutclose l m w with
  | (w', Yielded _ st') => exists l', st' = BareAwait l'
  | (w', _) => exists w0, w' = onlayoutclose w0
  end.
Proof.
  unfold await_bare.
  destruct (layout_resume l m w) as [w1 [call l'|r|e]].
  - destruct m as [v|[]]; eauto.
  - destruct m as [v|[]]; eauto.
  - eauto.
Qed.

Lemma drive_bare_await inputs :
  forall (l : L) (w w' : world U) (o : outcome R),
    drive bare inputs (BareAwait l) w = (w', Finished o) ->
    exists w0, w' = onlayoutclose w0.
Proof.
  induction inputs as [|[m f] inputs IH]; intros l w w' o Hrun.
  - discriminate Hrun.
  - cbn [drive] in Hrun. unfold bare at 1 in Hrun. cbn [bare_resume] in Hrun.
    pose proof (await_bare_cases l m w) as Hc.
    destruct (await_bare layout_resume onlayoutclose l m w)
      as [w1 [call st1|r|e]].
    + destruct Hc as [l' ->]. eapply IH, Hrun.
    + inversion Hrun; subst. exact Hc.
    + inversion Hrun; subst. exact Hc.
Qed.

Lemma drive_bare_start inputs (w w' : world U) (o : outcome R) :
  drive bare inputs BareStart w = (w', Finished o) ->
  (exists e f rest, inputs = (Throw e, f) :: rest /\ w' = w /\ o = Raise e) \/
  (exists e, construct w = (w', Raise e) /\ o = Raise UnboundLocalError) \/
  (exists w1 l w0, construct w = (w1, Return l) /\ w' = onlayoutclose w0).
Proof.
  destruct inputs as [|[m f] inputs]; [discriminate|].
  cbn [drive]. unfold bare at 1. cbn [bare_resume].
  destruct m as [v|e].
  - destruct (construct w) as [w1 [l|e]] eqn:Hc.
    + intros Hrun. right. right. exists w1, l.
      pose proof (await_bare_cases l (Send VNone) (onlayoutstart w1)) as Hcases.
      destruct (await_bare layout_resume onlayoutclose l (Send VNone)
                           (onlayoutstart w1)) as [w2 [call st2|r|e]].
      * destruct Hcases as [l' ->].
        destruct (drive_bare_await _ _ _ _ _ Hrun) as [w0 ->].
        exists w0. split; reflexivity.
      * inversion Hrun; subst. destruct Hcases as [w0 ->].
        exists w0. split; reflexivity.
      * inversion Hrun; subst. destruct Hcases as [w0 ->].
        exists w0. split; reflexivity.
    + intros Hrun. inversion Hrun; subst. right. left.
      exists e. split; reflexivity.
  - intros Hrun. inversion Hrun; subst. left.
    exists e, f, inputs. repeat split.
Qed.

End BareFacts.

(** A workflow module whose [onlayoutclose] is recorded in the log, for a
    concrete run. *)
Example layout_without_fade_sample :
  Hw.drive (Bare.bare_resume Samples.sample_construct
                             Samples.sample_layout_resume
                             (fun w => w)
                             (Hw.emit (Hw.EOnLayoutClose 2)))
           [(Py.Send Hw.VNone, fun d => d);
            (Py.Send (Hw.VTouch 4 10 20), fun d => d)]
           Bare.BareStart
           (Hw.mkWorld (Hw.mkDisplay 60 0 0) tt [])
  = (Hw.mkWorld (Hw.mkDisplay 60 0 0) tt
       [Hw.ESuspend Hw.WaitTouch; Hw.EOnLayoutClose 2],
     Hw.Finished (Py.Return 42)).
Proof. reflexivity. Qed.

(** [X19] A function decorated with [layout_without_fade] can end in three
    ways only.  Thrown into before its first run, it has run nothing.
    When [fn] raises, it ends with [UnboundLocalError] in place of the
    exception of [fn], and [workflow.onlayoutclose] is not called.
    Otherwise the layout was constructed, and whatever ended the run (the
    layout returned or raised, or the task was closed or thrown into), the
    last thing done was the call of [workflow.onlayoutclose]. *)
Theorem layout_without_fade_exits
        {U L R : Type}
        (construct : Hw.world U -> Hw.world U * Py.outcome L)
        (layout_resume : L -> Py.msg Hw.value -> Hw.world U
                         -> Hw.world U * Hw.step L R)
        (onlayoutstart onlayoutclose : Hw.world U -> Hw.world U)
        (inputs : list (Py.msg Hw.value * (Hw.display -> Hw.display)))
        (w w' : Hw.world U) (o : Py.outcome R) :
  Hw.drive (Bare.bare_resume construct layout_resume
                             onlayoutstart onlayoutclose)
           inputs Bare.BareStart w = (w', Hw.Finished o) ->
  (exists e f rest,
      inputs = (Py.Throw e, f) :: rest /\ w' = w /\ o = Py.Raise e) \/
  (exists e,
      construct w = (w', Py.Raise e) /\ o = Py.Raise Py.UnboundLocalError) \/
  (exists w1 l w0,
      construct w = (w1, Py.Return l) /\ w' = onlayoutclose w0).
Proof. apply drive_bare_start. Qed.

Lemma layout_without_fade_exits_witness :
  exists w0,
    Hw.mkWorld (Hw.mkDisplay 60 0 0) tt
               [Hw.ESuspend Hw.WaitTouch; Hw.EOnLayoutClose 2]
    = Hw.emit (Hw.EOnLayoutClose 2) w0.
Proof.
  destruct (layout_without_fade_exits
              Samples.sample_construct Samples.sample_layout_resume
              (fun w => w) (Hw.emit (Hw.EOnLayoutClose 2))
              [(Py.Send Hw.VNone, fun d => d);
               (Py.Throw Py.GeneratorExit, fun d => d)]
              (Hw.mkWorld (Hw.mkDisplay 60 0 0) tt [])
              (Hw.mkWorld (Hw.mkDisplay 60 0 0) tt
                          [Hw.ESuspend Hw.WaitTouch; Hw.EOnLayoutClose 2])
              (Py.Raise Py.GeneratorExit) eq_refl)
    as [(e & f & rest & Heq & _)|[(e & Hc & _)|(w1 & l & w0 & _ & Hw)]].
  - discriminate Heq.
  - discriminate Hc.
  - exists w0. exact Hw.
Defined.

(** ** Layout: failures, results from the render task, and the first frame *)

Section LayoutMoreFacts.

Import Py Hw LayoutRun.

Context {U : Type}.
Variables TOUCH_START TOUCH_MOVE TOUCH_END : Z.
Variable on_render : control U -> control U * outcome unit.
Variables on_touch_start on_touch_move on_touch_end
  : control U -> Z -> Z -> control U * outcome unit.
Variable BACKLIGHT_DIM : Z.
Variables slide_id layout_id : Z.

Let dispatch' := dispatch TOUCH_START TOUCH_MOVE TOUCH_END on_render
                          on_touch_start on_touch_move on_touch_end.
Let step' := sched_step TOUCH_START TOUCH_MOVE TOUCH_END on_render
                        on_touch_start on_touch_move on_touch_end
                        BACKLIGHT_DIM slide_id layout_id.
Let close' := close_render TOUCH_START TOUCH_MOVE TOUCH_END on_render
                           on_touch_start on_touch_move on_touch_end
                           BACKLIGHT_DIM slide_id layout_id.
Let close_in := close_input TOUCH_START TOUCH_MOVE TOUCH_END on_render
                            on_touch_start on_touch_move on_touch_end.

Lemma touch_raising_any (w : world (control U)) (t : children)
      (event x y : Z) (e : exn) :
  input_task t = Some (InputWait, PSys WaitTouch) ->
  snd (dispatch' event x y w) = Raise e ->
  step' (Touch event x y) (w, Running t)
  = (close' t (fst (dispatch' event x y w)), Resolved (catch_result e)).
Proof.
  intros Hinput Hraise. unfold step', sched_step. rewrite Hinput.
  cbn [input_resume]. fold dispatch'.
  destruct (dispatch' event x y w) as [w1 o]. cbn in Hraise. subst o.
  reflexivity.
Qed.

Lemma close_input_same (t : children) (w : world (control U)) :
  close_in t w = w.
Proof.
  unfold close_in, close_input.
  destruct (input_task t) as [[st [|call]]|]; reflexivity.
Qed.

Lemma render_raising_any (w : world (control U)) (t : children)
      (l : render_state) (us : Z) (e : exn) :
  render_task t = Some (Decorator.InnerAwait l, PSys (Sleep us)) ->
  snd (dispatch' RENDER 0 0 w) = Raise e ->
  step' RunRender (w, Running t)
  = (Decorator.cleanup slide_id layout_id (fst (dispatch' RENDER 0 0 w)),
     Resolved (catch_result e)).
Proof.
  intros Htask Hraise. unfold step', sched_step. rewrite Htask.
  unfold rendering_resume. cbn [Decorator.inner_resume].
  unfold Decorator.await_layout. cbn [render_resume]. fold dispatch'.
  destruct (dispatch' RENDER 0 0 w) as [w1 o]. cbn in Hraise. subst o.
  cbn [settle_render fst]. fold close_in. now rewrite close_input_same.
Qed.

End LayoutMoreFacts.

(** [X20] [Layout.__iter__] catches [Result] only: when the dispatch of a
    touch event raises any other exception, the layout ends with that very
    exception; as for a [Result], the render task is closed in the same
    scheduler step (adding at most the decorator's two cleanup calls to the
    log) and nothing of the layout runs afterwards. *)
Theorem layout_propagates_other_exceptions
        {U : Type} (TOUCH_START TOUCH_MOVE TOUCH_END : Z)
        (on_render : LayoutRun.control U
                     -> LayoutRun.control U * Py.outcome unit)
        (on_touch_start on_touch_move on_touch_end
         : LayoutRun.control U -> Z -> Z
           -> LayoutRun.control U * Py.outcome unit)
        (BACKLIGHT_DIM slide_id layout_id : Z)
        (w : Hw.world (LayoutRun.control U)) (t : LayoutRun.children)
        (event x y : Z) (e : Py.exn) (later : list LayoutRun.sched_event) :
  LayoutRun.input_task t
  = Some (LayoutRun.InputWait, LayoutRun.PSys Hw.WaitTouch) ->
  snd (LayoutRun.dispatch TOUCH_START TOUCH_MOVE TOUCH_END on_render
                          on_touch_start on_touch_move on_touch_end
                          event x y w)
  = Py.Raise e ->
  (forall v, e <> Py.ResultExc v) ->
  let raised := fst (LayoutRun.dispatch TOUCH_START TOUCH_MOVE TOUCH_END
                                        on_render on_touch_start on_touch_move
                                        on_touch_end event x y w) in
  let resolved := LayoutRun.sched_step TOUCH_START TOUCH_MOVE TOUCH_END
                                       on_render on_touch_start on_touch_move
                                       on_touch_end BACKLIGHT_DIM slide_id
                                       layout_id (LayoutRun.Touch event x y)
                                       (w, LayoutRun.Running t) in
  snd resolved = LayoutRun.Resolved (Py.Raise e) /\
  (exists part,
      Hw.log (fst resolved) = Hw.log raised ++ part /\
      (part = [] \/
       part = [Hw.EClose slide_id; Hw.EOnLayoutClose layout_id])) /\
  LayoutRun.sched_run TOUCH_START TOUCH_MOVE TOUCH_END on_render
                      on_touch_start on_touch_move on_touch_end
                      BACKLIGHT_DIM slide_id layout_id later resolved
  = resolved.
Proof.
  intros Hinput Hraise Hother raised resolved.
  assert (Hstep : resolved
                  = (LayoutRun.close_render
                       TOUCH_START TOUCH_MOVE TOUCH_END on_render
                       on_touch_start on_touch_move on_touch_end
                       BACKLIGHT_DIM slide_id layout_id t raised,
                     LayoutRun.Resolved (LayoutRun.catch_result e)))
    by (apply touch_raising_any; assumption).
  assert (Hcatch : LayoutRun.catch_result e = Py.Raise e).
  { destruct e; try reflexivity. now elim (Hother value). }
  rewrite Hcatch in Hstep.
  destruct (close_render_log TOUCH_START TOUCH_MOVE TOUCH_END on_render
              on_touch_start on_touch_move on_touch_end
              BACKLIGHT_DIM slide_id layout_id t raised)
    as (part & Hlog & Hpart).
  rewrite Hstep, resolved_is_final. cbn [fst snd].
  split; [reflexivity|]. split; [exists part; auto|reflexivity].
Qed.

Lemma layout_propagates_other_exceptions_witness :
  let raised := fst (LayoutRun.dispatch 1 2 4 Samples.idle Samples.idle_at
                                        MoreSamples.failing_at Samples.idle_at
                                        2 10 20 MoreSamples.running_world) in
  let resolved := LayoutRun.sched_step 1 2 4 Samples.idle Samples.idle_at
                                       MoreSamples.failing_at Samples.idle_at
                                       5 1 2 (LayoutRun.Touch 2 10 20)
                                       (MoreSamples.running_world,
                                        LayoutRun.Running
                                          MoreSamples.running_children) in
  snd resolved = LayoutRun.Resolved (Py.Raise (Py.OtherExc 3)) /\
  (exists part,
      Hw.log (fst resolved) = Hw.log raised ++ part /\
      (part = [] \/ part = [Hw.EClose 1; Hw.EOnLayoutClose 2])) /\
  LayoutRun.sched_run 1 2 4 Samples.idle Samples.idle_at
                      MoreSamples.failing_at Samples.idle_at 5 1 2
                      [LayoutRun.RunRender] resolved
  = resolved.
Proof.
  apply (layout_propagates_other_exceptions
           1 2 4 Samples.idle Samples.idle_at MoreSamples.failing_at
           Samples.idle_at 5 1 2 MoreSamples.running_world
           MoreSamples.running_children 2 10 20 (Py.OtherExc 3)
           [LayoutRun.RunRender]);
    [reflexivity|reflexivity|discriminate].
Defined.

(** [X21] A layout also ends from its render task: when [on_render] raises
    during a frame, the decorator around [handle_rendering] runs its cleanup
    ([loop.close(slide)], then [workflow.onlayoutclose]), the input task is
    closed, and the layout resolves to [v] for a [Result(v)] and ends with
    the exception otherwise; nothing of the layout runs afterwards. *)
Theorem layout_ends_from_render_task
        {U : Type} (TOUCH_START TOUCH_MOVE TOUCH_END : Z)
        (on_render : LayoutRun.control U
                     -> LayoutRun.control U * Py.outcome unit)
        (on_touch_start on_touch_move on_touch_end
         : LayoutRun.control U -> Z -> Z
           -> LayoutRun.control U * Py.outcome unit)
        (BACKLIGHT_DIM slide_id layout_id : Z)
        (w : Hw.world (LayoutRun.control U)) (t : LayoutRun.children)
        (l : LayoutRun.render_state) (us : Z) (e : Py.exn)
        (later : list LayoutRun.sched_event) :
  LayoutRun.render_task t
  = Some (Decorator.InnerAwait l, LayoutRun.PSys (Hw.Sleep us)) ->
  snd (LayoutRun.dispatch TOUCH_START TOUCH_MOVE TOUCH_END on_render
                          on_touch_start on_touch_move on_touch_end
                          LayoutRun.RENDER 0 0 w)
  = Py.Raise e ->
  let raised := fst (LayoutRun.dispatch TOUCH_START TOUCH_MOVE TOUCH_END
                                        on_render on_touch_start on_touch_move
                                        on_touch_end LayoutRun.RENDER 0 0 w) in
  let resolved := LayoutRun.sched_step TOUCH_START TOUCH_MOVE TOUCH_END
                                       on_render on_touch_start on_touch_move
                                       on_touch_end BACKLIGHT_DIM slide_id
                                       layout_id LayoutRun.RunRender
                                       (w, LayoutRun.Running t) in
  snd resolved
  = LayoutRun.Resolved (match e with
                        | Py.ResultExc v => Py.Return (Some v)
                        | _ => Py.Raise e
                        end) /\
  Hw.log (fst resolved)
  = Hw.log raised ++ [Hw.EClose slide_id; Hw.EOnLayoutClose layout_id] /\
  LayoutRun.sched_run TOUCH_START TOUCH_MOVE TOUCH_END on_render
                      on_touch_start on_touch_move on_touch_end
                      BACKLIGHT_DIM slide_id layout_id later resolved
  = resolved.
Proof.
  intros Htask Hraise raised resolved.
  assert (Hstep : resolved
                  = (Decorator.cleanup slide_id layout_id raised,
                     LayoutRun.Resolved (LayoutRun.catch_result e)))
    by (eapply render_raising_any; eassumption).
  rewrite Hstep, resolved_is_final. cbn [fst snd].
  split; [reflexivity|]. split; [|reflexivity].
  cbn. now rewrite <- app_assoc.
Qed.

Lemma layout_ends_from_render_task_witness :
  let raised := fst (LayoutRun.dispatch 1 2 4 MoreSamples.render_result_7
                                        Samples.idle_at Samples.idle_at
                                        Samples.idle_at LayoutRun.RENDER 0 0
                                        MoreSamples.running_world) in
  let resolved := LayoutRun.sched_step 1 2 4 MoreSamples.render_result_7
                                       Samples.idle_at Samples.idle_at
                                       Samples.idle_at 5 1 2
                                       LayoutRun.RunRender
                                       (MoreSamples.running_world,
                                        LayoutRun.Running
                                          MoreSamples.running_children) in
  snd resolved = LayoutRun.Resolved (Py.Return (Some 7)) /\
  Hw.log (fst resolved)
  = Hw.log raised ++ [Hw.EClose 1; Hw.EOnLayoutClose 2] /\
  LayoutRun.sched_run 1 2 4 MoreSamples.render_result_7 Samples.idle_at
                      Samples.idle_at Samples.idle_at 5 1 2
                      [LayoutRun.Touch 4 0 0] resolved
  = resolved.
Proof.
  apply (layout_ends_from_render_task
           1 2 4 MoreSamples.render_result_7 Samples.idle_at Samples.idle_at
           Samples.idle_at 5 1 2 MoreSamples.running_world
           MoreSamples.running_children LayoutRun.RenderLoop 10000
           (Py.ResultExc 7) [LayoutRun.Touch 4 0 0]);
    reflexivity.
Defined.

Lemma cleared_before_render_app (l ext : list Hw.effect) :
  cleared_before_render l ->
  (forall pre post, ext = pre ++ Hw.ERender :: post -> In Hw.EClear (l ++ pre)) ->
  cleared_before_render (l ++ ext).
Proof.
  intros Hl Hext pre post Heq.
  apply app_eq_app in Heq as [mid [[-> Htail]|[-> Hmid]]].
  - destruct mid as [|e mid].
    + cbn in Htail. specialize (Hext [] post (eq_sym Htail)).
      now rewrite !app_nil_r in *.
    + cbn in Htail. inversion Htail; subst. eapply Hl. reflexivity.
  - eapply Hext. exact Hmid.
Qed.

Lemma quiet_step_refl {U : Type} (w : Hw.world U) : quiet_step w w.
Proof. exists []. rewrite app_nil_r. auto. Qed.

Lemma quiet_step_trans {U : Type} (w1 w2 w3 : Hw.world U) :
  quiet_step w1 w2 -> quiet_step w2 w3 -> quiet_step w1 w3.
Proof.
  intros (e1 & H1 & N1) (e2 & H2 & N2). exists (e1 ++ e2). split.
  - now rewrite H2, H1, app_assoc.
  - rewrite in_app_iff. tauto.
Qed.

Lemma quiet_step_keeps {U : Type} (w w' : Hw.world U) :
  quiet_step w w' ->
  (cleared_before_render (Hw.log w) -> cleared_before_render (Hw.log w')) /\
  (In Hw.EClear (Hw.log w) -> In Hw.EClear (Hw.log w')).
Proof.
  intros (ext & Hlog & Hquiet). rewrite Hlog. split.
  - intros Hc. apply cleared_before_render_app; [exact Hc|].
    intros pre post ->. elim Hquiet. apply in_or_app. right. now left.
  - intros Hin. apply in_or_app. now left.
Qed.

Section FirstFrame.

Import Py Hw LayoutRun.

Context {U : Type}.
Variables TOUCH_START TOUCH_MOVE TOUCH_END : Z.
Variable on_render : control U -> control U * outcome unit.
Variables on_touch_start on_touch_move on_touch_end
  : control U -> Z -> Z -> control U * outcome unit.
Variable BACKLIGHT_DIM : Z.
Variables slide_id layout_id : Z.

Let dispatch' := dispatch TOUCH_START TOUCH_MOVE TOUCH_END on_render
                          on_touch_start on_touch_move on_touch_end.
Let rendering := rendering_resume TOUCH_START TOUCH_MOVE TOUCH_END on_render
                                  on_touch_start on_touch_move on_touch_end
                                  BACKLIGHT_DIM slide_id layout_id.
Let render_gen := @render_resume U TOUCH_START TOUCH_MOVE TOUCH_END on_render
                                 on_touch_start on_touch_move on_touch_end.
Let step' := sched_step TOUCH_START TOUCH_MOVE TOUCH_END on_render
                        on_touch_start on_touch_move on_touch_end
                        BACKLIGHT_DIM slide_id layout_id.

Lemma call_log (h : control U -> control U * outcome unit)
      (w : world (control U)) :
  log (fst (call h w)) = log w.
Proof. unfold call. destruct (h (self w)). reflexivity. Qed.

Lemma dispatch_render_log (w : world (control U)) :
  log (fst (dispatch' RENDER 0 0 w)) = log w ++ [ERender].
Proof.
  unfold dispatch', dispatch. rewrite Z.eqb_refl. now rewrite call_log.
Qed.

Lemma dispatch_touch_quiet (event x y : Z) (w : world (control U)) :
  event <> RENDER -> quiet_step w (fst (dispatch' event x y w)).
Proof.
  intros Hne. unfold dispatch', dispatch.
  destruct (Z.eqb_spec event RENDER) as [|_]; [contradiction|].
  assert (Htouch : forall h,
             quiet_step w (fst (call h (emit (ETouch event x y) w)))).
  { intros h. exists [ETouch event x y]. rewrite call_log. split; [reflexivity|].
    intros [H|[]]. discriminate H. }
  destruct (event =? TOUCH_START); [apply Htouch|].
  destruct (event =? TOUCH_MOVE); [apply Htouch|].
  destruct (event =? TOUCH_END); [apply Htouch|].
  destruct (event =? REPAINT); [|apply quiet_step_refl].
  exists []. cbn. rewrite app_nil_r. auto.
Qed.

(** A frame of the render loop, once the display has been cleared. *)
Lemma await_step (l : render_state) (w : world (control U)) :
  In EClear (log w) -> cleared_before_render (log w) ->
  cleared_before_render
    (log (fst (Decorator.await_layout render_gen slide_id layout_id
                                      l (Send VNone) w))) /\
  In EClear
     (log (fst (Decorator.await_layout render_gen slide_id layout_id
                                       l (Send VNone) w))).
Proof.
  intros Hclear Hcbr. unfold Decorator.await_layout, render_gen.
  cbn [render_resume]. fold dispatch'.
  pose proof (dispatch_render_log w) as Hlog.
  destruct (dispatch' RENDER 0 0 w) as [w1 [[]|e]]; cbn [fst] in *.
  - rewrite Hlog. split; [|apply in_or_app; now left].
    apply cleared_before_render_app; [exact Hcbr|].
    intros pre post _. apply in_or_app. now left.
  - cbn. rewrite Hlog, <- !app_assoc. split; [|apply in_or_app; now left].
    apply cleared_before_render_app; [exact Hcbr|].
    intros pre post _. apply in_or_app. now left.
Qed.

(** One resumption of the fade-down either stops there, or writes one
    level and suspends, or is over and leaves the world as it was. *)
Lemma slide_step_cases (s : Backlight.slide_state) (v : value)
      (w : world (control U)) :
  match Backlight.slide_resume s (Send v) w with
  | (w', Yielded _ _) => exists i, w' = set_backlight i w
  | (w', _) => w' = w
  end.
Proof.
  destruct s as [val delay step|delay rest]; cbn [Backlight.slide_resume].
  - destruct (range _ _ _) as [[|i rest]|e]; cbn; eauto.
  - destruct rest as [|i rest]; cbn; eauto.
Qed.

Lemma dim_step (s : Backlight.slide_state) (w : world (control U)) :
  cleared_before_render (log w) ->
  let res := Decorator.inner_dim (fun w0 => (w0, Return RenderStart))
                                 render_gen slide_id layout_id
                                 s (Send VNone) w in
  cleared_before_render (log (fst res)) /\
  (forall call l, snd res = Yielded call (Decorator.InnerAwait l) ->
                  In EClear (log (fst res))).
Proof.
  intros Hcbr. unfold Decorator.inner_dim.
  pose proof (slide_step_cases s VNone w) as Hcases.
  destruct (Backlight.slide_resume s (Send VNone) w) as [w1 [call s1|[]|e]].
  - destruct Hcases as [i ->]. cbn [fst snd]. split; [|discriminate].
    apply (quiet_step_keeps w); [|exact Hcbr].
    exists [EBacklight i]. split; [reflexivity|].
    intros [H|[]]. discriminate H.
  - subst w1. unfold Decorator.inner_try.
    set (w2 := clear (emit (ESchedule slide_id) w)).
    assert (Hquiet : quiet_step w w2).
    { exists [ESchedule slide_id; EClear]. split.
      - cbn. now rewrite <- app_assoc.
      - intros [H|[H|[]]]; discriminate H. }
    assert (Hclear : In EClear (log w2)).
    { cbn. apply in_or_app. right. now left. }
    destruct (await_step RenderStart w2 Hclear) as [Hc Hin].
    { now apply (quiet_step_keeps w w2). }
    split; [exact Hc|]. intros _ _ _. exact Hin.
  - subst w1. cbn [fst snd]. split; [exact Hcbr|discriminate].
Qed.

Lemma rendering_keeps (st : Decorator.inner_state) (w : world (control U)) :
  cleared_before_render (log w) ->
  (forall l, st = Decorator.InnerAwait l -> In EClear (log w)) ->
  cleared_before_render (log (fst (rendering st (Send VNone) w))) /\
  (forall call l,
      snd (rendering st (Send VNone) w)
      = Yielded call (Decorator.InnerAwait l) ->
      In EClear (log (fst (rendering st (Send VNone) w)))).
Proof.
  intros Hcbr Hclear. unfold rendering, rendering_resume.
  destruct st as [|s|l]; cbn [Decorator.inner_resume].
  - now apply dim_step.
  - now apply dim_step.
  - destruct (await_step l w (Hclear l eq_refl) Hcbr) as [Hc Hin].
    split; [exact Hc|]. intros _ _ _. exact Hin.
Qed.

Lemma settle_render_inv (t : children) (w : world (control U))
      (st : Decorator.inner_state) :
  first_frame_inv (w, Running t) ->
  (forall l, st = Decorator.InnerAwait l -> In EClear (log w)) ->
  first_frame_inv
    (settle_render TOUCH_START TOUCH_MOVE TOUCH_END on_render
                   on_touch_start on_touch_move on_touch_end
                   (rendering st (Send VNone) w) t).
Proof.
  intros [Hcbr _] Hclear.
  destruct (rendering_keeps st w Hcbr Hclear) as [Hc Hin].
  destruct (rendering st (Send VNone) w) as [w1 [call st1|r|e]];
    cbn [fst snd] in *.
  - split; [exact Hc|]. cbn. intros l0 p0 Heq. inversion Heq; subst.
    eapply Hin. reflexivity.
  - cbn. destruct (input_task t); split; cbn; auto.
    intros l0 p0 Heq. discriminate Heq.
  - cbn [settle_render]. rewrite close_input_same. split; [exact Hc|exact I].
Qed.

Lemma settle_input_inv (t : children) (w w1 : world (control U))
      (res : step input_state unit) :
  first_frame_inv (w, Running t) -> quiet_step w w1 ->
  first_frame_inv
    (settle_input TOUCH_START TOUCH_MOVE TOUCH_END on_render
                  on_touch_start on_touch_move on_touch_end
                  BACKLIGHT_DIM slide_id layout_id (w1, res) t).
Proof.
  intros [Hcbr Hclear] Hquiet. cbn [snd fst] in Hclear.
  destruct (quiet_step_keeps w w1 Hquiet) as [Hkeep Hin].
  destruct res as [call st1|r|e]; cbn [settle_input].
  - split; [now apply Hkeep|]. cbn. intros l0 p0 Heq. eauto.
  - destruct (render_task t) eqn:Ht; split; cbn; auto.
    intros l0 p0 Heq. apply Hin. eapply Hclear.
    first [exact Heq|rewrite Ht; exact Heq].
  - split; [|exact I]. cbn [fst].
    destruct (close_render_log TOUCH_START TOUCH_MOVE TOUCH_END on_render
                on_touch_start on_touch_move on_touch_end
                BACKLIGHT_DIM slide_id layout_id t w1)
      as (part & Hlog & Hpart).
    apply (quiet_step_keeps w1); [|now apply Hkeep].
    exists part. split; [exact Hlog|].
    destruct Hpart as [-> | ->]; [intros []|].
    intros [H|[H|[]]]; discriminate H.
Qed.

Lemma first_frame_step (ev : sched_event)
      (s : world (control U) * layout_status) :
  touch_code ev <> Some RENDER ->
  first_frame_inv s -> first_frame_inv (step' ev s).
Proof.
  intros Hcode Hinv. destruct s as [w [t|o]]; [|exact Hinv].
  unfold step', sched_step. destruct ev as [| |event x y|f].
  - destruct (render_task t) as [[st [|[us|]]]|] eqn:Ht; try exact Hinv.
    + apply settle_render_inv; [exact Hinv|].
      intros l ->. destruct Hinv as [_ Hclear]. eapply Hclear. exact Ht.
    + apply settle_render_inv; [exact Hinv|].
      intros l ->. destruct Hinv as [_ Hclear]. eapply Hclear. exact Ht.
  - destruct (input_task t) as [[st [|[us|]]]|]; try exact Hinv.
    + destruct st; cbn [input_resume];
        apply settle_input_inv with (w := w);
        auto using quiet_step_refl.
    + destruct st; cbn [input_resume];
        apply settle_input_inv with (w := w);
        auto using quiet_step_refl.
  - destruct (input_task t) as [[st [|[us|]]]|]; try exact Hinv.
    destruct st; cbn [input_resume].
    + apply settle_input_inv with (w := w); auto using quiet_step_refl.
    + assert (Hne : event <> RENDER).
      { intros ->. apply Hcode. reflexivity. }
      pose proof (dispatch_touch_quiet event x y w Hne) as Hquiet.
      fold dispatch'.
      destruct (dispatch' event x y w) as [w1 [[]|e]]; cbn [fst] in Hquiet;
        now apply settle_input_inv with (w := w).
  - destruct Hinv as [Hcbr Hclear]. split; [exact Hcbr|exact Hclear].
Qed.

Lemma first_frame_run (evs : list sched_event) :
  forall s : world (control U) * layout_status,
    Forall (fun ev => touch_code ev <> Some RENDER) evs ->
    first_frame_inv s ->
    first_frame_inv
      (sched_run TOUCH_START TOUCH_MOVE TOUCH_END on_render
                 on_touch_start on_touch_move on_touch_end
                 BACKLIGHT_DIM slide_id layout_id evs s).
Proof.
  unfold sched_run.
  induction evs as [|ev evs IH]; intros s Hcodes Hinv; [exact Hinv|].
  inversion Hcodes; subst. cbn [fold_left]. apply IH; [assumption|].
  now apply first_frame_step.
Qed.

End FirstFrame.

Example layout_first_frame_sample :
  Hw.log (fst (LayoutRun.sched_run
                 1 2 4 Samples.idle Samples.idle_at Samples.idle_at
                 Samples.result_42 5 1 2
                 [LayoutRun.RunInput; LayoutRun.Touch 1 3 3;
                  LayoutRun.RunRender; LayoutRun.RunRender;
                  LayoutRun.RunRender; LayoutRun.RunRender]
                 (LayoutRun.layout_start
                    (Hw.mkWorld (Hw.mkDisplay 40 0 0)
                                (LayoutRun.mkControl false tt) []))))
  = [Hw.ETouch 1 3 3; Hw.EBacklight 40; Hw.EBacklight 20;
     Hw.ESchedule 1; Hw.EClear; Hw.ERender; Hw.ERender].
Proof. reflexivity. Qed.

(** [X22] Whatever the scheduler does with a layout, and whatever its
    handlers do, no RENDER is dispatched to the control before the
    decorator around [handle_rendering] has finished the fade-down and
    called [display.clear()]: in the log every render dispatch has a
    [display.clear()] before it.  (Touch events carry touch codes, never
    the RENDER code itself.) *)
Theorem layout_clears_before_first_render
        {U : Type} (TOUCH_START TOUCH_MOVE TOUCH_END : Z)
        (on_render : LayoutRun.control U
                     -> LayoutRun.control U * Py.outcome unit)
        (on_touch_start on_touch_move on_touch_end
         : LayoutRun.control U -> Z -> Z
           -> LayoutRun.control U * Py.outcome unit)
        (BACKLIGHT_DIM slide_id layout_id : Z)
        (evs : list LayoutRun.sched_event)
        (w : Hw.world (LayoutRun.control U)) :
  Hw.log w = [] ->
  Forall (fun ev => touch_code ev <> Some LayoutRun.RENDER) evs ->
  cleared_before_render
    (Hw.log (fst (LayoutRun.sched_run
                    TOUCH_START TOUCH_MOVE TOUCH_END on_render
                    on_touch_start on_touch_move on_touch_end
                    BACKLIGHT_DIM slide_id layout_id evs
                    (LayoutRun.layout_start w)))).
Proof.
  intros Hfresh Hcodes.
  apply first_frame_run; [exact Hcodes|].
  split; cbn.
  - rewrite Hfresh. intros pre post Heq. destruct pre; discriminate Heq.
  - intros l p Heq. discriminate Heq.
Qed.

Lemma layout_clears_before_first_render_witness :
  cleared_before_render
    (Hw.log (fst (LayoutRun.sched_run
                    1 2 4 Samples.idle Samples.idle_at Samples.idle_at
                    Samples.result_42 5 1 2
                    [LayoutRun.RunInput; LayoutRun.Touch 1 3 3;
                     LayoutRun.RunRender; LayoutRun.RunRender;
                     LayoutRun.RunRender; LayoutRun.RunRender]
                    (LayoutRun.layout_start
                       (Hw.mkWorld (Hw.mkDisplay 40 0 0)
                                   (LayoutRun.mkControl false tt) []))))).
Proof.
  apply (layout_clears_before_first_render
           1 2 4 Samples.idle Samples.idle_at Samples.idle_at
           Samples.result_42 5 1 2
           [LayoutRun.RunInput; LayoutRun.Touch 1 3 3;
            LayoutRun.RunRender; LayoutRun.RunRender;
            LayoutRun.RunRender; LayoutRun.RunRender]
           (Hw.mkWorld (Hw.mkDisplay 40 0 0)
                       (LayoutRun.mkControl false tt) [])).
  - reflexivity.
  - repeat constructor; discriminate.
Defined.

(** ** Widget: what reaches [touch] *)

Lemma touch_calls_app (l1 l2 : list Hw.effect) :
  touch_calls (l1 ++ l2) = touch_calls l1 ++ touch_calls l2.
Proof. apply flat_map_app. Qed.

Section WidgetMoreFacts.

Import Py Hw WidgetProto.

Context {U R : Type}.
Variable render : U -> U * outcome unit.
Variable touch : U -> Z -> list Z -> U * outcome (option R).

Let resume := @widget_resume U R render touch.

Lemma widget_waiting_run (ts : list (Z * Z * Z)) :
  forall (done : list (Z * Z * Z)) (w : world U),
    touch_calls (log w) = done ->
    renders (log w) = S (length done) ->
    let run := drive resume (touch_inputs ts) WWaiting w in
    (exists rest, done ++ ts = touch_calls (log (fst run)) ++ rest) /\
    (forall st, snd run = Suspended st ->
                touch_calls (log (fst run)) = done ++ ts /\
                renders (log (fst run)) = S (length (done ++ ts))) /\
    (forall r, snd run = Finished (Return r) ->
               renders (log (fst run)) = length (touch_calls (log (fst run)))).
Proof.
  induction ts as [|[[ev x] y] ts IH]; intros done w Hcalls Hrenders run.
  - subst run. cbn. rewrite app_nil_r. split; [exists []; now rewrite app_nil_r|].
    split; [auto|discriminate].
  - subst run. cbn [touch_inputs map drive]. unfold resume.
    cbn [widget_resume]. fold (touch_inputs ts).
    set (w1 := emit (ETouch ev x y) w).
    assert (Hl1 : log w1 = log w ++ [ETouch ev x y]) by reflexivity.
    assert (Hcalls1 : touch_calls (log w1) = done ++ [(ev, x, y)]).
    { now rewrite Hl1, touch_calls_app, Hcalls. }
    assert (Hrenders1 : renders (log w1) = length (done ++ [(ev, x, y)])).
    { rewrite Hl1, renders_app, Hrenders, length_app.
      change (renders [ETouch ev x y]) with 0%nat. cbn [length]. lia. }
    destruct (touch (self w1) ev [x; y]) as [u [[r|]|e]]; cbn [fst snd].
    + change (log (set_self u w1)) with (log w1). rewrite Hcalls1, Hrenders1.
      split; [exists ts; now rewrite <- app_assoc|].
      split; [discriminate|reflexivity].
    + unfold widget_loop.
      set (w2 := emit ERender (set_self u w1)).
      assert (Hl2 : log w2 = log w1 ++ [ERender]) by reflexivity.
      assert (Hcalls2 : touch_calls (log w2) = done ++ [(ev, x, y)]).
      { rewrite Hl2, touch_calls_app, Hcalls1.
        change (touch_calls [ERender]) with (@nil (Z * Z * Z)).
        now rewrite app_nil_r. }
      assert (Hrenders2 : renders (log w2) = S (length (done ++ [(ev, x, y)]))).
      { rewrite Hl2, renders_app, Hrenders1.
        change (renders [ERender]) with 1%nat. lia. }
      destruct (render (self w2)) as [u' [[]|e]]; cbn [fst snd].
      * set (w3 := set_disp (disp (set_self u' w2))
                            (emit (ESuspend WaitTouch) (set_self u' w2))).
        assert (Hl3 : log w3 = log w2 ++ [ESuspend WaitTouch]) by reflexivity.
        specialize (IH (done ++ [(ev, x, y)]) w3).
        rewrite <- !app_assoc in IH. cbn [app] in IH. apply IH.
        -- rewrite Hl3, touch_calls_app, Hcalls2.
           change (touch_calls [ESuspend WaitTouch]) with (@nil (Z * Z * Z)).
           now rewrite app_nil_r.
        -- rewrite Hl3, renders_app, Hrenders2.
           change (renders [ESuspend WaitTouch]) with 0%nat. lia.
      * change (log (set_self u' w2)) with (log w2). rewrite Hcalls2.
        split; [exists ts; now rewrite <- app_assoc|].
        split; discriminate.
    + change (log (set_self u w1)) with (log w1). rewrite Hcalls1.
      split; [exists ts; now rewrite <- app_assoc|].
      split; discriminate.
Qed.

End WidgetMoreFacts.

(** [X23] A widget started on a fresh log and fed the touch events [ts]
    passes them to [touch] in the order received, each one once: the calls
    of [touch] are a prefix of [ts].  While it is still suspended it has
    passed on all of [ts] and rendered once more than that; when it returns
    a result it has rendered exactly once per touch event it passed on, so
    nothing is rendered after the touch that produced the result. *)
Theorem widget_passes_touches_in_order
        {U R : Type}
        (render : U -> U * Py.outcome unit)
        (touch : U -> Z -> list Z -> U * Py.outcome (option R))
        (f : Hw.display -> Hw.display) (ts : list (Z * Z * Z))
        (w : Hw.world U) :
  Hw.log w = [] ->
  let run := Hw.drive (WidgetProto.widget_resume render touch)
                      ((Py.Send Hw.VNone, f) :: touch_inputs ts)
                      WidgetProto.WStart w in
  (exists rest, ts = touch_calls (Hw.log (fst run)) ++ rest) /\
  (forall st, snd run = Hw.Suspended st ->
              touch_calls (Hw.log (fst run)) = ts /\
              renders (Hw.log (fst run)) = S (length ts)) /\
  (forall r, snd run = Hw.Finished (Py.Return r) ->
             renders (Hw.log (fst run))
             = length (touch_calls (Hw.log (fst run)))).
Proof.
  intros Hfresh run. subst run.
  cbn [Hw.drive WidgetProto.widget_resume]. unfold WidgetProto.widget_loop.
  set (w1 := Hw.emit Hw.ERender w).
  assert (Hl1 : Hw.log w1 = [Hw.ERender]) by (cbn; now rewrite Hfresh).
  destruct (render (Hw.self w1)) as [u [[]|e]]; cbn [fst snd].
  - set (w2 := Hw.set_disp _ _).
    assert (Hl2 : Hw.log w2 = [Hw.ERender; Hw.ESuspend Hw.WaitTouch]).
    { subst w2. cbn. cbn in Hl1. now rewrite Hl1. }
    apply (widget_waiting_run render touch ts [] w2); now rewrite Hl2.
  - change (Hw.log (Hw.set_self u w1)) with (Hw.log w1). rewrite Hl1.
    split; [exists ts; reflexivity|]. split; discriminate.
Qed.

Lemma widget_passes_touches_in_order_witness :
  let run := Hw.drive (WidgetProto.widget_resume Samples.sample_render
                                                 Samples.sample_touch)
                      ((Py.Send Hw.VNone, fun d => d)
                         :: touch_inputs [(1, 10, 20); (4, 10, 20); (1, 0, 0)])
                      WidgetProto.WStart
                      (Hw.mkWorld (Hw.mkDisplay 0 0 0) 0%nat []) in
  (exists rest,
      [(1, 10, 20); (4, 10, 20); (1, 0, 0)]
      = touch_calls (Hw.log (fst run)) ++ rest) /\
  (forall st, snd run = Hw.Suspended st ->
              touch_calls (Hw.log (fst run))
              = [(1, 10, 20); (4, 10, 20); (1, 0, 0)] /\
              renders (Hw.log (fst run)) = 4%nat) /\
  (forall r, snd run = Hw.Finished (Py.Return r) ->
             renders (Hw.log (fst run))
             = length (touch_calls (Hw.log (fst run)))).
Proof.
  apply (widget_passes_touches_in_order
           Samples.sample_render Samples.sample_touch (fun d => d)
           [(1, 10, 20); (4, 10, 20); (1, 0, 0)]
           (Hw.mkWorld (Hw.mkDisplay 0 0 0) 0%nat [])).
  reflexivity.
Defined.

(** ** The decorator with fade when [fn] fails, and early touches *)

Section FnFails.

Import Py Hw Decorator.

Context {U L R : Type}.
Variable BACKLIGHT_DIM : Z.
Variable construct : world U -> world U * outcome L.
Variable layout_resume : L -> msg value -> world U -> world U * step L R.
Variables slide_id layout_id : Z.

(** [fn] raises and leaves the world as it was. *)
Hypothesis fn_fails : forall w0, exists e, construct w0 = (w0, Raise e).

Let inner := @inner_resume U L R BACKLIGHT_DIM construct layout_resume
                           slide_id layout_id.

Lemma fade_then_fail (delay : Z) (rest : list Z) :
  forall inputs (w w' : world U) (o : outcome R),
    all_sent inputs ->
    drive inner inputs (InnerDim (Backlight.SlideLoop delay rest)) w
    = (w', Finished o) ->
    o = Raise UnboundLocalError /\
    log w' = log w
             ++ flat_map (fun i => [EBacklight i; ESuspend (Sleep delay)]) rest
             ++ [EClose slide_id].
Proof.
  induction rest as [|i rest IH]; intros inputs w w' o Hsent Hrun.
  - destruct inputs as [|[m f] inputs]; [discriminate Hrun|].
    inversion Hsent as [|? ? [v Hv] _]; subst. cbn in Hv. subst m.
    cbn [drive] in Hrun. unfold inner at 1 in Hrun.
    cbn [inner_resume] in Hrun. unfold inner_dim in Hrun.
    cbn [Backlight.slide_resume Backlight.slide_loop] in Hrun.
    unfold inner_try in Hrun.
    destruct (fn_fails w) as [e He]. rewrite He in Hrun.
    inversion Hrun; subst. split; reflexivity.
  - destruct inputs as [|[m f] inputs]; [discriminate Hrun|].
    inversion Hsent as [|? ? [v Hv] Hsent']; subst. cbn in Hv. subst m.
    cbn [drive] in Hrun. unfold inner at 1 in Hrun.
    cbn [inner_resume] in Hrun. unfold inner_dim in Hrun.
    cbn [Backlight.slide_resume Backlight.slide_loop] in Hrun.
    destruct (IH _ _ _ _ Hsent' Hrun) as [Ho Hlog].
    split; [exact Ho|]. rewrite Hlog. cbn. rewrite <- !app_assoc.
    reflexivity.
Qed.

Lemma start_then_fail inputs (w w' : world U) (o : outcome R) :
  all_sent inputs ->
  drive inner inputs InnerStart w = (w', Finished o) ->
  o = Raise UnboundLocalError /\
  exists levels,
    log w' = log w
             ++ flat_map (fun i => [EBacklight i; ESuspend (Sleep 35000)])
                         levels
             ++ [EClose slide_id].
Proof.
  intros Hsent Hrun.
  set (signed := if BACKLIGHT_DIM <? get_backlight w then Z.opp 20 else 20).
  assert (Hsigned : signed <> 0) by (unfold signed; destruct (_ <? _); lia).
  pose proof (range_nonzero_step (get_backlight w) BACKLIGHT_DIM signed Hsigned)
    as Hrange.
  set (levels := map _ _) in Hrange.
  assert (Hsame : drive inner inputs InnerStart w
                  = drive inner inputs
                          (InnerDim (Backlight.SlideLoop 35000 levels)) w).
  { destruct inputs as [|[m f] inputs']; [discriminate Hrun|].
    inversion Hsent as [|? ? [v Hv] _]; subst. cbn in Hv. subst m.
    cbn [drive]. unfold inner. cbn [inner_resume]. unfold inner_dim.
    cbn [Backlight.slide_resume]. fold signed. rewrite Hrange. reflexivity. }
  rewrite Hsame in Hrun.
  destruct (fade_then_fail 35000 levels inputs w w' o Hsent Hrun) as [Ho Hlog].
  split; [exact Ho|]. exists levels. exact Hlog.
Qed.

End FnFails.

(** [X24] When [fn] raises, a function decorated with [layout] that is
    only ever resumed (never thrown into) and that ends, ends with
    [UnboundLocalError] in place of the exception of [fn]: after the
    fade-down the [finally] block calls [loop.close(slide)] and then fails
    on the unbound [layout], so [workflow.onlayoutclose] is not called and
    the slide was never scheduled. *)
Theorem layout_fn_failure_is_masked
        {U L R : Type} (BACKLIGHT_DIM : Z)
        (construct : Hw.world U -> Hw.world U * Py.outcome L)
        (layout_resume : L -> Py.msg Hw.value -> Hw.world U
                         -> Hw.world U * Hw.step L R)
        (slide_id layout_id : Z)
        (inputs : list (Py.msg Hw.value * (Hw.display -> Hw.display)))
        (w w' : Hw.world U) (o : Py.outcome R) :
  (forall w0, exists e, construct w0 = (w0, Py.Raise e)) ->
  all_sent inputs ->
  Hw.drive (Decorator.inner_resume BACKLIGHT_DIM construct layout_resume
                                   slide_id layout_id)
           inputs Decorator.InnerStart w = (w', Hw.Finished o) ->
  o = Py.Raise Py.UnboundLocalError /\
  exists levels,
    Hw.log w' = Hw.log w
                ++ flat_map (fun i => [Hw.EBacklight i;
                                       Hw.ESuspend (Hw.Sleep 35000)]) levels
                ++ [Hw.EClose slide_id].
Proof.
  intros Hfails Hsent Hrun.
  eapply start_then_fail; [exact Hfails|exact Hsent|exact Hrun].
Qed.

Lemma layout_fn_failure_is_masked_witness :
  @Py.Raise Z Py.UnboundLocalError = Py.Raise Py.UnboundLocalError /\
  exists levels,
    [Hw.EBacklight 40; Hw.ESuspend (Hw.Sleep 35000);
     Hw.EBacklight 20; Hw.ESuspend (Hw.Sleep 35000); Hw.EClose 1]
    = [] ++ flat_map (fun i => [Hw.EBacklight i;
                                Hw.ESuspend (Hw.Sleep 35000)]) levels
         ++ [Hw.EClose 1].
Proof.
  apply (layout_fn_failure_is_masked
           5 Samples.failing_construct Samples.sample_layout_resume 1 2
           (repeat (Py.Send Hw.VNone, fun d => d) 3)
           (Hw.mkWorld (Hw.mkDisplay 40 0 0) tt [])
           (Hw.mkWorld (Hw.mkDisplay 20 0 0) tt
              [Hw.EBacklight 40; Hw.ESuspend (Hw.Sleep 35000);
               Hw.EBacklight 20; Hw.ESuspend (Hw.Sleep 35000); Hw.EClose 1])
           (Py.Raise Py.UnboundLocalError)).
  - intros w0. exists (Py.OtherExc 9). reflexivity.
  - repeat constructor; exists Hw.VNone; reflexivity.
  - reflexivity.
Defined.

(** [X25] A touch that ends the layout while the render task has not yet
    started its render loop (it has not run, or still fades the backlight
    down) ends it without any cleanup: closing the render task adds
    nothing, so neither [loop.close(slide)] nor [workflow.onlayoutclose] is
    called, and the world is left as the raising handler left it. *)
Theorem layout_ended_during_fade_skips_cleanup
        {U : Type} (TOUCH_START TOUCH_MOVE TOUCH_END : Z)
        (on_render : LayoutRun.control U
                     -> LayoutRun.control U * Py.outcome unit)
        (on_touch_start on_touch_move on_touch_end
         : LayoutRun.control U -> Z -> Z
           -> LayoutRun.control U * Py.outcome unit)
        (BACKLIGHT_DIM slide_id layout_id : Z)
        (w : Hw.world (LayoutRun.control U)) (t : LayoutRun.children)
        (event x y : Z) (e : Py.exn) :
  LayoutRun.input_task t
  = Some (LayoutRun.InputWait, LayoutRun.PSys Hw.WaitTouch) ->
  (forall l p, LayoutRun.render_task t <> Some (Decorator.InnerAwait l, p)) ->
  snd (LayoutRun.dispatch TOUCH_START TOUCH_MOVE TOUCH_END on_render
                          on_touch_start on_touch_move on_touch_end
                          event x y w)
  = Py.Raise e ->
  LayoutRun.sched_step TOUCH_START TOUCH_MOVE TOUCH_END on_render
                       on_touch_start on_touch_move on_touch_end
                       BACKLIGHT_DIM slide_id layout_id
                       (LayoutRun.Touch event x y) (w, LayoutRun.Running t)
  = (fst (LayoutRun.dispatch TOUCH_START TOUCH_MOVE TOUCH_END on_render
                             on_touch_start on_touch_move on_touch_end
                             event x y w),
     LayoutRun.Resolved (match e with
                         | Py.ResultExc v => Py.Return (Some v)
                         | _ => Py.Raise e
                         end)).
Proof.
  intros Hinput Hfade Hraise.
  rewrite (touch_raising_any TOUCH_START TOUCH_MOVE TOUCH_END on_render
             on_touch_start on_touch_move on_touch_end
             BACKLIGHT_DIM slide_id layout_id w t event x y e Hinput Hraise).
  f_equal. unfold LayoutRun.close_render.
  destruct (LayoutRun.render_task t) as [[st [|call]]|] eqn:Ht;
    try reflexivity.
  destruct st as [|s|l]; try reflexivity.
  now elim (Hfade l (LayoutRun.PSys call)).
Qed.

Lemma layout_ended_during_fade_skips_cleanup_witness :
  LayoutRun.sched_step 1 2 4 Samples.idle Samples.idle_at Samples.idle_at
                       Samples.result_42 5 1 2 (LayoutRun.Touch 4 10 20)
                       (Hw.mkWorld (Hw.mkDisplay 40 0 0)
                                   (LayoutRun.mkControl false tt)
                                   [Hw.EBacklight 40],
                        LayoutRun.Running
                          (LayoutRun.mkChildren
                             (Some (Decorator.InnerDim
                                      (Backlight.SlideLoop 35000 [20]),
                                    LayoutRun.PSys (Hw.Sleep 35000)))
                             (Some (LayoutRun.InputWait,
                                    LayoutRun.PSys Hw.WaitTouch))))
  = (fst (LayoutRun.dispatch 1 2 4 Samples.idle Samples.idle_at
                             Samples.idle_at Samples.result_42 4 10 20
                             (Hw.mkWorld (Hw.mkDisplay 40 0 0)
                                         (LayoutRun.mkControl false tt)
                                         [Hw.EBacklight 40])),
     LayoutRun.Resolved (Py.Return (Some 42))).
Proof.
  apply (layout_ended_during_fade_skips_cleanup
           1 2 4 Samples.idle Samples.idle_at Samples.idle_at
           Samples.result_42 5 1 2
           (Hw.mkWorld (Hw.mkDisplay 40 0 0) (LayoutRun.mkControl false tt)
                       [Hw.EBacklight 40])
           (LayoutRun.mkChildren
              (Some (Decorator.InnerDim (Backlight.SlideLoop 35000 [20]),
                     LayoutRun.PSys (Hw.Sleep 35000)))
              (Some (LayoutRun.InputWait, LayoutRun.PSys Hw.WaitTouch)))
           4 10 20 (Py.ResultExc 42));
    [reflexivity|discriminate|reflexivity].
Defined.

(** [X26] While a layout runs, its input task is never lost: after any
    sequence of scheduler steps from the start, the layout has resolved, or
    its input task has not had its first run yet, or it waits for a touch
    event.  It never sleeps and never ends on its own, also while the
    render task still fades the backlight. *)
Theorem layout_input_task_stays_ready
        {U : Type} (TOUCH_START TOUCH_MOVE TOUCH_END : Z)
        (on_render : LayoutRun.control U
                     -> LayoutRun.control U * Py.outcome unit)
        (on_touch_start on_touch_move on_touch_end
         : LayoutRun.control U -> Z -> Z
           -> LayoutRun.control U * Py.outcome unit)
        (BACKLIGHT_DIM slide_id layout_id : Z)
        (evs : list LayoutRun.sched_event)
        (w : Hw.world (LayoutRun.control U)) :
  match snd (LayoutRun.sched_run TOUCH_START TOUCH_MOVE TOUCH_END on_render
                                 on_touch_start on_touch_move on_touch_end
                                 BACKLIGHT_DIM slide_id layout_id evs
                                 (LayoutRun.layout_start w)) with
  | LayoutRun.Resolved _ => True
  | LayoutRun.Running t =>
      LayoutRun.input_task t = Some (LayoutRun.InputStart, LayoutRun.PStart) \/
      LayoutRun.input_task t
      = Some (LayoutRun.InputWait, LayoutRun.PSys Hw.WaitTouch)
  end.
Proof.
  exact (input_ready_run TOUCH_START TOUCH_MOVE TOUCH_END on_render
           on_touch_start on_touch_move on_touch_end
           BACKLIGHT_DIM slide_id layout_id evs w).
Qed.

Lemma click_returns_first_release_witness :
  snd (Hw.drive (ClickGen.click_resume 1 4)
                ((Py.Send Hw.VNone, fun d => d)
                   :: touch_inputs [(4, 1, 1); (1, 10, 20); (2, 11, 21);
                                    (4, 12, 22); (4, 90, 90)])
                ClickGen.ClickStart
                (Hw.mkWorld (Hw.mkDisplay 60 0 0) tt []))
  = Hw.Finished (Py.Return [12; 22]).
Proof.
  apply (click_returns_first_release
           1 4 (fun d => d)
           [(4, 1, 1); (1, 10, 20); (2, 11, 21); (4, 12, 22); (4, 90, 90)]
           [12; 22] (Hw.mkWorld (Hw.mkDisplay 60 0 0) tt [])).
  exists [(4, 1, 1)], 10, 20, [(2, 11, 21)], 12, 22, [(4, 90, 90)].
  split; [reflexivity|]. split; [|split; [|reflexivity]].
  - repeat constructor; cbn; lia.
  - repeat constructor; cbn; lia.
Defined.
